(** * rez-release: the release pipeline and its version-control back ends

    A shallow embedding of [python/rez/rez_release.py] and of
    [src/rezplugins/release_vcs/git.py].

    Python values are modelled as follows.
    - [str] is [string]; the string methods the code calls are in module [Py].
    - A call that may raise returns a [result]; the exception classes the
      code raises or can meet are the constructors of [exn].
    - Methods that assign attributes of [self] or act on the outside world
      are state-passing functions (type [M]).
    - External programs, the file system, the environment and the missing
      modules ([versions], [rez_metafile], [pysvn], [rez.release_vcs]) are
      explicit parameters. *)

From Stdlib Require Import String Ascii List Bool Arith ZArith Lia.
From Stdlib Require Import DecimalString DecimalNat Decimal.
Import ListNotations.
Open Scope string_scope.

(* ------------------------------------------------------------------ *)
(** ** Exceptions and results *)

Inductive exn : Type :=
| RezReleaseError (value : string)
| RezReleaseUnsupportedMode (value : string)
| ReleaseVCSError (value : string)
| VersionError (value : string)
| AttributeError (attr : string)
| AssertionError (value : string)
| TypeError (value : string)
| ValueError (value : string)
| IndexError (value : string)
| KeyError (key : string)
| OSError (value : string)
| IOError (value : string)
| ImportError (value : string)
| ClientError (value : string)      (* pysvn.ClientError *)
| SystemExit (code : nat)
| KeyboardInterrupt.

Inductive result (A : Type) : Type :=
| Ok (a : A)
| Raise (e : exn).
Arguments Ok {A} a.
Arguments Raise {A} e.

Definition is_ok {A} (r : result A) : bool :=
  match r with Ok _ => true | Raise _ => false end.

(** [except Exception] does not catch [SystemExit] or [KeyboardInterrupt];
    a bare [except:] catches everything. *)
Definition is_Exception (e : exn) : bool :=
  match e with
  | SystemExit _ | KeyboardInterrupt => false
  | _ => true
  end.

(** [str(e)] for the exceptions whose text the code inspects. *)
Definition exn_str (e : exn) : string :=
  match e with
  | RezReleaseError v | RezReleaseUnsupportedMode v | ReleaseVCSError v
  | VersionError v | AttributeError v | AssertionError v | TypeError v
  | ValueError v | IndexError v | KeyError v | OSError v | IOError v
  | ImportError v | ClientError v => v
  | SystemExit _ => ""
  | KeyboardInterrupt => ""
  end.

(** State-and-exception monad: the state survives a raise, as the
    attributes of [self] and the outside world do in Python. *)
Definition M (S A : Type) : Type := S -> result A * S.

Definition ret {S A} (a : A) : M S A := fun s => (Ok a, s).
Definition raise {S A} (e : exn) : M S A := fun s => (Raise e, s).
Definition bind {S A B} (m : M S A) (f : A -> M S B) : M S B :=
  fun s => match m s with
           | (Ok a, s') => f a s'
           | (Raise e, s') => (Raise e, s')
           end.
Definition get {S} : M S S := fun s => (Ok s, s).
Definition modify {S} (f : S -> S) : M S unit := fun s => (Ok tt, f s).
Definition lift {S A} (r : result A) : M S A := fun s => (r, s).

Declare Scope py_scope.
Delimit Scope py_scope with py.
Notation "x <- m ;; k" := (bind m (fun x => k))
  (at level 61, m at next level, right associativity) : py_scope.
Notation "m ;;; k" := (bind m (fun _ => k))
  (at level 61, right associativity) : py_scope.

(** The same for plain results. *)
Definition rbind {A B} (r : result A) (f : A -> result B) : result B :=
  match r with Ok a => f a | Raise e => Raise e end.

(* ------------------------------------------------------------------ *)
(** ** Python string operations used by the code *)

Module Py.

Definition nl : string := String (ascii_of_nat 10) EmptyString.
Definition dquote : string := String (ascii_of_nat 34) EmptyString.

(** [string.whitespace] of Python 2: space, \t, \n, \r, \x0b, \x0c. *)
Definition is_space (c : ascii) : bool :=
  let n := nat_of_ascii c in
  ((n =? 32) || (n =? 9) || (n =? 10) || (n =? 13) || (n =? 11) || (n =? 12))%nat.

Fixpoint lstrip (s : string) : string :=
  match s with
  | String c r => if is_space c then lstrip r else s
  | EmptyString => EmptyString
  end.

(** [rstrip]: a character is kept when it is not white space or when
    something is kept after it. *)
Fixpoint rstrip (s : string) : string :=
  match s with
  | EmptyString => EmptyString
  | String c r =>
      match rstrip r with
      | EmptyString => if is_space c then EmptyString else String c EmptyString
      | r' => String c r'
      end
  end.

(** [s.strip()] *)
Definition strip (s : string) : string := rstrip (lstrip s).

(** [s.rstrip('\n')] *)
Fixpoint rstrip_nl (s : string) : string :=
  match s with
  | EmptyString => EmptyString
  | String c r =>
      match rstrip_nl r with
      | EmptyString =>
          if (nat_of_ascii c =? 10)%nat then EmptyString
          else String c EmptyString
      | r' => String c r'
      end
  end.

(** [s.split(sep)] for a one-character separator: never empty. *)
Fixpoint split_on (sep : ascii) (s : string) : list string :=
  match s with
  | EmptyString => [EmptyString]
  | String c r =>
      if Ascii.eqb c sep then EmptyString :: split_on sep r
      else match split_on sep r with
           | w :: ws => String c w :: ws
           | [] => [String c EmptyString]
           end
  end.

(** [s.split(sep, 1)]: split at the first separator only. *)
Fixpoint split_once (sep : ascii) (s : string) : list string :=
  match s with
  | EmptyString => [EmptyString]
  | String c r =>
      if Ascii.eqb c sep then [EmptyString; r]
      else match split_once sep r with
           | w :: ws => String c w :: ws
           | [] => [String c EmptyString]
           end
  end.

(** [s.split()]: split on runs of white space, no empty words. *)
Fixpoint words_aux (cur : option string) (s : string) : list string :=
  match s with
  | EmptyString => match cur with Some w => [w] | None => [] end
  | String c r =>
      if is_space c
      then match cur with
           | Some w => w :: words_aux None r
           | None => words_aux None r
           end
      else match cur with
           | Some w => words_aux (Some (w ++ String c EmptyString)) r
           | None => words_aux (Some (String c EmptyString)) r
           end
  end.
Definition split (s : string) : list string := words_aux None s.

(** [sep.join(l)] *)
Fixpoint join (sep : string) (l : list string) : string :=
  match l with
  | [] => EmptyString
  | [x] => x
  | x :: r => x ++ sep ++ join sep r
  end.

(** [s.find(sub)]: index of the first occurrence, or -1. *)
Fixpoint find_from (i : nat) (sub s : string) : Z :=
  if String.prefix sub s then Z.of_nat i
  else match s with
       | EmptyString => (-1)%Z
       | String _ r => find_from (S i) sub r
       end.
Definition find (s sub : string) : Z := find_from 0 sub s.

(** [sub in s] *)
Definition contains (sub s : string) : bool := (0 <=? find s sub)%Z.

(** [s[:n]] for [n >= 0]. *)
Definition slice_to (s : string) (n : nat) : string := String.substring 0 n s.

(** [s.startswith(p)], [s.endswith(p)] *)
Definition startswith (s p : string) : bool := String.prefix p s.

(** [s[0]]: raises [IndexError] on the empty string. *)
Definition index0 (s : string) : result ascii :=
  match s with
  | String c _ => Ok c
  | EmptyString => Raise (IndexError "string index out of range")
  end.

(** [l[0]] and [l[-1]] on lists. *)
Definition first {A} (l : list A) : result A :=
  match l with
  | x :: _ => Ok x
  | [] => Raise (IndexError "list index out of range")
  end.
Definition last {A} (l : list A) : result A :=
  match List.rev l with
  | x :: _ => Ok x
  | [] => Raise (IndexError "list index out of range")
  end.

(** [l[-2]] *)
Definition last_but_one {A} (l : list A) : result A :=
  match List.rev l with
  | _ :: x :: _ => Ok x
  | _ => Raise (IndexError "list index out of range")
  end.

(** [s.replace(a, b)] for one-character [a] and [b]. *)
Fixpoint replace_char (a b : ascii) (s : string) : string :=
  match s with
  | EmptyString => EmptyString
  | String c r => String (if Ascii.eqb c a then b else c) (replace_char a b r)
  end.

(** [[f(x) for x in l]] when [f] may raise. *)
Fixpoint map_result {A B} (f : A -> result B) (l : list A) : result (list B) :=
  match l with
  | [] => Ok []
  | x :: r =>
      match f x with
      | Raise e => Raise e
      | Ok y => match map_result f r with
                | Raise e => Raise e
                | Ok ys => Ok (y :: ys)
                end
      end
  end.

(** [a, b = l]: unpacking into exactly two names. *)
Definition unpack2 {A} (l : list A) : result (A * A) :=
  match l with
  | [a; b] => Ok (a, b)
  | [] | [_] => Raise (ValueError "need more than 1 value to unpack")
  | _ => Raise (ValueError "too many values to unpack")
  end.

(** [str(n)] for a natural number and for an integer. *)
Definition str_nat (n : nat) : string := NilZero.string_of_uint (Nat.to_uint n).
Definition str_Z (z : Z) : string :=
  match z with
  | Zneg p => "-" ++ str_nat (Pos.to_nat p)
  | _ => str_nat (Z.to_nat z)
  end.

(** [int(s)] on a word without white space: an optional sign and
    decimal digits. *)
Definition int_digits (s : string) : result Z :=
  match NilZero.uint_of_string s with
  | Some d => Ok (Z.of_nat (Nat.of_uint d))
  | None => Raise (ValueError ("invalid literal for int() with base 10: " ++ s))
  end.
Definition int (s : string) : result Z :=
  match s with
  | String "-" r => rbind (int_digits r) (fun z => Ok (- z)%Z)
  | String "+" r => int_digits r
  | _ => int_digits s
  end.

(** Truth value of a string and of a list. *)
Definition truthy (s : string) : bool :=
  match s with EmptyString => false | _ => true end.
Definition nonempty {A} (l : list A) : bool :=
  match l with [] => false | _ => true end.

(** [os.path.join(a, b)] on POSIX. *)
Definition ends_with_slash (a : string) : bool :=
  match List.rev (list_ascii_of_string a) with
  | c :: _ => Ascii.eqb c "/"
  | [] => false
  end.
Definition path_join (a b : string) : string :=
  if String.prefix "/" b then b
  else if (negb (truthy a) || ends_with_slash a)%bool then a ++ b
  else a ++ "/" ++ b.

End Py.

(* ------------------------------------------------------------------ *)
(** ** The [versions] module

    [rez_release.py] imports [versions] and uses [versions.Version] through
    its constructor, [str], the comparisons [>] and [<=] and its truth
    value.  The module is not among the sources, so the pipeline is
    parameterised by this interface. *)

Class VersionAPI : Type := {
  Version : Type;
  (** [versions.Version(s)]; a malformed string raises [VersionError]. *)
  Version_new : string -> result Version;
  (** [str(v)] *)
  Version_str : Version -> string;
  (** [a > b] and [a <= b] *)
  Version_gt : Version -> Version -> bool;
  Version_le : Version -> Version -> bool;
  (** truth value of a version object, [if version:] *)
  Version_truth : Version -> bool
}.

(** What the claims on version ordering use: [>] is a strict order. *)
Class VersionOrder (VA : VersionAPI) : Prop := {
  Version_gt_irrefl : forall a, Version_gt a a = false;
  Version_gt_trans : forall a b c,
      Version_gt a b = true -> Version_gt b c = true -> Version_gt a c = true
}.

Module DottedVersion.

(** Modelled from the spec: the [versions.Version] value type, missing
    from the sources.  "Ordered sequence of numeric components parsed from
    a dotted string; total order by component-wise comparison; 0 is the
    universal minimum; a reserved legacy form (a leading letter marker
    followed by underscore-separated numeric triplet) is recognized and
    normalized."  Only numeric components are modelled. *)
Record t : Type := mk { legacy : bool; parts : list nat }.

Fixpoint parse_parts (ws : list string) : option (list nat) :=
  match ws with
  | [] => Some []
  | w :: r =>
      match NilZero.uint_of_string w, parse_parts r with
      | Some d, Some ns => Some (Nat.of_uint d :: ns)
      | _, _ => None
      end
  end.

(** Modelled from the spec: parsing of a dotted string, and of the legacy
    form [vN_N_N]. *)
Definition parse (s : string) : result t :=
  match s with
  | String "v" r =>
      match parse_parts (Py.split_on "_" r) with
      | Some [a; b; c] => Ok (mk true [a; b; c])
      | _ => Raise (VersionError s)
      end
  | _ =>
      match parse_parts (Py.split_on "." s) with
      | Some ns => Ok (mk false ns)
      | None => Raise (VersionError s)
      end
  end.

Definition to_str (v : t) : string :=
  if legacy v then "v" ++ Py.join "_" (map Py.str_nat (parts v))
  else Py.join "." (map Py.str_nat (parts v)).

(** Modelled from the spec: component-wise comparison, a proper prefix
    being smaller. *)
Fixpoint lt_parts (a b : list nat) : bool :=
  match a, b with
  | [], [] => false
  | [], _ :: _ => true
  | _ :: _, [] => false
  | x :: a', y :: b' =>
      if (x <? y)%nat then true
      else if (y <? x)%nat then false
      else lt_parts a' b'
  end.

Definition gt (a b : t) : bool := lt_parts (parts b) (parts a).
Definition le (a b : t) : bool := negb (gt a b).

(** Modelled from the spec: the [versions.Version] interface at dotted
    numeric versions. *)
#[export] Instance api : VersionAPI := {
  Version := t;
  Version_new := parse;
  Version_str := to_str;
  Version_gt := gt;
  Version_le := le;
  Version_truth := fun _ => true
}.

Lemma lt_parts_irrefl a : lt_parts a a = false.
Proof.
  induction a as [|x a IH]; simpl; [reflexivity|].
  now rewrite Nat.ltb_irrefl.
Qed.

Lemma lt_parts_trans a : forall b c,
    lt_parts a b = true -> lt_parts b c = true -> lt_parts a c = true.
Proof.
  induction a as [|x a IH]; intros [|y b] [|z c]; simpl; try congruence.
  destruct (x <? y)%nat eqn:Hxy, (y <? z)%nat eqn:Hyz, (x <? z)%nat eqn:Hxz;
    try reflexivity;
    destruct (y <? x)%nat eqn:Hyx; destruct (z <? y)%nat eqn:Hzy;
    destruct (z <? x)%nat eqn:Hzx;
    repeat match goal with
           | H : (_ <? _)%nat = true |- _ => apply Nat.ltb_lt in H
           | H : (_ <? _)%nat = false |- _ => apply Nat.ltb_ge in H
           end; try lia; try congruence.
  apply IH.
Qed.

#[export] Instance order : VersionOrder api.
Proof.
  split.
  - intros a. apply lt_parts_irrefl.
  - intros a b c Hab Hbc. simpl in *. unfold gt in *.
    eapply lt_parts_trans; eassumption.
Qed.

End DottedVersion.

(* ------------------------------------------------------------------ *)
(** ** [rez_release.py]: data *)

Module Release.

(** [ConfigMetadata] of [rez_metafile]: the fields the release reads.  An
    unset field is the empty string or list, which is what the code tests
    ([if not metadata.name]). *)
Record metadata_t : Type := {
  md_version : string;
  md_name : string;
  md_uuid : string;
  md_description : string;
  md_authors : list string;
  md_variants : list (list string)      (* [get_variants()] *)
}.

(** An entry of [self.variants]: [None], or a variant's requirement list. *)
Definition variant_t : Type := option (list string).

(** [if variant:] *)
Definition variant_truth (v : variant_t) : bool :=
  match v with
  | Some (_ :: _) => true
  | _ => false
  end.

(** The central directory of one package family,
    [$REZ_RELEASE_PACKAGES_PATH/<name>], as far as the release reads and
    writes it: absent, or a directory with or without [package.uuid]. *)
Record uuid_file : Type := { uf_content : string; uf_readable : bool }.

Inductive family_dir : Type :=
| NoDir
| Dir (marker : option uuid_file).

(** What the release does to the outside world, in order. *)
Inductive event : Type :=
| EvCall (method : string)                   (* a phase or hook is entered *)
| EvMakedirs (path : string)                 (* the scratch build root *)
| EvRemove (path : string)
| EvRmtree (path : string)
| EvWriteChangelog (path content : string)
| EvWriteCommitFile (path content : string)
| EvMakeFamilyDir (path : string)            (* the central family directory *)
| EvWriteUuid (path content : string)        (* [package.uuid] *)
| EvWriteTimeMetafile (path content : string)
| EvEditor (cmd : string) (returncode : Z)
| EvCopySource (build_dir : string)
| EvBuild (varnum : nat) (cmd : string) (returncode : Z)
| EvInstallPath (varnum : nat) (cmd : string) (returncode : Z)
| EvInstall (varnum : nat) (cmd : string) (returncode : Z)
| EvCheckInstalled (instpath : string)
| EvSendEmail (subject body : string) (recipients : list string).

(** The outside world: the central family directory, which local paths
    exist, and the trace of actions so far. *)
Record world : Type := {
  central : family_dir;
  local_exists : string -> bool;
  trace : list event
}.

(** Inputs of a run that the release only reads: the environment, the
    package file, the clock, the operator, and the external programs. *)
Record environ : Type := {
  getenv : string -> option string;
  getcwd : string;
  expand_path : string -> string;                  (* [_expand_path] *)
  access : string -> bool;                         (* [os.access(p, F_OK)] *)
  ConfigMetadata : string -> result metadata_t;
  islink : string -> bool;
  isdir : string -> bool;
  time_now : nat;                                  (* [int(time.time())] *)
  editor_call : string -> Z;                       (* [subprocess.call] *)
  editor_text : string -> string;                  (* file after editing *)
  raw_input : option string;                       (* [None]: [EOFError] *)
  shell : string -> Z * string;                    (* return code, stdout *)
  copytree : string -> string -> result unit;
  walk_installed : string -> result unit;          (* chmod and .pyc purge *)
  open_time_metafile : string -> result unit;
  (* pysvn *)
  import_pysvn : result unit;
  svn_info : string -> result (option string);     (* the entry's url *)
  svn_info2 : string -> result nat;                (* number of entries *)
  svn_ls : string -> result (list string);         (* entry names *)
  svn_status : string -> result (list bool);       (* [status.entry] set? *)
  svn_update : string -> result unit;
  svn_copy2 : string -> string -> string -> result unit;
  svn_export : string -> string -> Z;
  svn_changelog : result string;
  (* mercurial: return code, stdout, stderr of [hg args] *)
  hg_proc : list string -> Z * string * string
}.

Section WithVersions.

Context {VA : VersionAPI}.

(** The attributes of a [RezReleaseMode] instance.  An attribute that
    [__init__] does not assign is [None] until assigned; reading it before
    raises [AttributeError]. *)
Record self_t : Type := {
  path : string;
  metadata : option metadata_t;
  base_dir : option string;
  pkg_release_dir : option string;
  package_uuid_exists : option bool;
  changelog_file : string;
  editor : option string;
  (** [None] is the [False] sentinel of the cached property; [Some None]
      is a cached [None]. *)
  _last_tagged_version : option (option Version);
  (* assigned by [release] *)
  commit_message : option (option string);
  njobs : nat;
  build_time : string;
  allow_not_latest : bool;
  (* assigned in [pre_build] *)
  this_version : option Version;
  package_uuid_file : option string;
  variants : option (list variant_t);
  (* subclasses *)
  tag_url : option (option string);      (* svn: [None] until validated *)
  this_url : option string;              (* svn *)
  patch_path : option (option string)    (* hg *)
}.

Record st : Type := { self : self_t; wld : world }.

Definition with_self (f : self_t -> self_t) (s : st) : st :=
  {| self := f (self s); wld := wld s |}.
Definition with_wld (f : world -> world) (s : st) : st :=
  {| self := self s; wld := f (wld s) |}.

Definition emit (e : event) : M st unit :=
  modify (with_wld (fun w =>
    {| central := central w; local_exists := local_exists w;
       trace := trace w ++ [e] |})).

Definition set_central (d : family_dir) : M st unit :=
  modify (with_wld (fun w =>
    {| central := d; local_exists := local_exists w; trace := trace w |})).

Definition set_local (f : (string -> bool) -> string -> bool) : M st unit :=
  modify (with_wld (fun w =>
    {| central := central w; local_exists := f (local_exists w);
       trace := trace w |})).

(** A path and everything below it. *)
Definition under (root p : string) : bool :=
  String.eqb root p || String.prefix (root ++ "/") p.

Definition mark_present (p : string) (ex : string -> bool) : string -> bool :=
  fun q => String.eqb p q || ex q.
Definition mark_absent (p : string) (ex : string -> bool) : string -> bool :=
  fun q => negb (under p q) && ex q.

(** Attribute assignment. *)
Definition set_metadata v (o : self_t) : self_t :=
  {| path := path o; metadata := v; base_dir := base_dir o;
     pkg_release_dir := pkg_release_dir o;
     package_uuid_exists := package_uuid_exists o;
     changelog_file := changelog_file o; editor := editor o;
     _last_tagged_version := _last_tagged_version o;
     commit_message := commit_message o; njobs := njobs o;
     build_time := build_time o; allow_not_latest := allow_not_latest o;
     this_version := this_version o;
     package_uuid_file := package_uuid_file o; variants := variants o;
     tag_url := tag_url o; this_url := this_url o;
     patch_path := patch_path o |}.
Definition set_base_dir v (o : self_t) : self_t :=
  {| path := path o; metadata := metadata o; base_dir := v;
     pkg_release_dir := pkg_release_dir o;
     package_uuid_exists := package_uuid_exists o;
     changelog_file := changelog_file o; editor := editor o;
     _last_tagged_version := _last_tagged_version o;
     commit_message := commit_message o; njobs := njobs o;
     build_time := build_time o; allow_not_latest := allow_not_latest o;
     this_version := this_version o;
     package_uuid_file := package_uuid_file o; variants := variants o;
     tag_url := tag_url o; this_url := this_url o;
     patch_path := patch_path o |}.
Definition set_pkg_release_dir v (o : self_t) : self_t :=
  {| path := path o; metadata := metadata o; base_dir := base_dir o;
     pkg_release_dir := v;
     package_uuid_exists := package_uuid_exists o;
     changelog_file := changelog_file o; editor := editor o;
     _last_tagged_version := _last_tagged_version o;
     commit_message := commit_message o; njobs := njobs o;
     build_time := build_time o; allow_not_latest := allow_not_latest o;
     this_version := this_version o;
     package_uuid_file := package_uuid_file o; variants := variants o;
     tag_url := tag_url o; this_url := this_url o;
     patch_path := patch_path o |}.
Definition set_package_uuid_exists v (o : self_t) : self_t :=
  {| path := path o; metadata := metadata o; base_dir := base_dir o;
     pkg_release_dir := pkg_release_dir o;
     package_uuid_exists := v;
     changelog_file := changelog_file o; editor := editor o;
     _last_tagged_version := _last_tagged_version o;
     commit_message := commit_message o; njobs := njobs o;
     build_time := build_time o; allow_not_latest := allow_not_latest o;
     this_version := this_version o;
     package_uuid_file := package_uuid_file o; variants := variants o;
     tag_url := tag_url o; this_url := this_url o;
     patch_path := patch_path o |}.
Definition set_editor v (o : self_t) : self_t :=
  {| path := path o; metadata := metadata o; base_dir := base_dir o;
     pkg_release_dir := pkg_release_dir o;
     package_uuid_exists := package_uuid_exists o;
     changelog_file := changelog_file o; editor := v;
     _last_tagged_version := _last_tagged_version o;
     commit_message := commit_message o; njobs := njobs o;
     build_time := build_time o; allow_not_latest := allow_not_latest o;
     this_version := this_version o;
     package_uuid_file := package_uuid_file o; variants := variants o;
     tag_url := tag_url o; this_url := this_url o;
     patch_path := patch_path o |}.
Definition set_last_tagged_version v (o : self_t) : self_t :=
  {| path := path o; metadata := metadata o; base_dir := base_dir o;
     pkg_release_dir := pkg_release_dir o;
     package_uuid_exists := package_uuid_exists o;
     changelog_file := changelog_file o; editor := editor o;
     _last_tagged_version := v;
     commit_message := commit_message o; njobs := njobs o;
     build_time := build_time o; allow_not_latest := allow_not_latest o;
     this_version := this_version o;
     package_uuid_file := package_uuid_file o; variants := variants o;
     tag_url := tag_url o; this_url := this_url o;
     patch_path := patch_path o |}.
Definition set_commit_message v (o : self_t) : self_t :=
  {| path := path o; metadata := metadata o; base_dir := base_dir o;
     pkg_release_dir := pkg_release_dir o;
     package_uuid_exists := package_uuid_exists o;
     changelog_file := changelog_file o; editor := editor o;
     _last_tagged_version := _last_tagged_version o;
     commit_message := v; njobs := njobs o;
     build_time := build_time o; allow_not_latest := allow_not_latest o;
     this_version := this_version o;
     package_uuid_file := package_uuid_file o; variants := variants o;
     tag_url := tag_url o; this_url := this_url o;
     patch_path := patch_path o |}.
Definition set_build_time v (o : self_t) : self_t :=
  {| path := path o; metadata := metadata o; base_dir := base_dir o;
     pkg_release_dir := pkg_release_dir o;
     package_uuid_exists := package_uuid_exists o;
     changelog_file := changelog_file o; editor := editor o;
     _last_tagged_version := _last_tagged_version o;
     commit_message := commit_message o; njobs := njobs o;
     build_time := v; allow_not_latest := allow_not_latest o;
     this_version := this_version o;
     package_uuid_file := package_uuid_file o; variants := variants o;
     tag_url := tag_url o; this_url := this_url o;
     patch_path := patch_path o |}.
Definition set_this_version v (o : self_t) : self_t :=
  {| path := path o; metadata := metadata o; base_dir := base_dir o;
     pkg_release_dir := pkg_release_dir o;
     package_uuid_exists := package_uuid_exists o;
     changelog_file := changelog_file o; editor := editor o;
     _last_tagged_version := _last_tagged_version o;
     commit_message := commit_message o; njobs := njobs o;
     build_time := build_time o; allow_not_latest := allow_not_latest o;
     this_version := v;
     package_uuid_file := package_uuid_file o; variants := variants o;
     tag_url := tag_url o; this_url := this_url o;
     patch_path := patch_path o |}.
Definition set_package_uuid_file v (o : self_t) : self_t :=
  {| path := path o; metadata := metadata o; base_dir := base_dir o;
     pkg_release_dir := pkg_release_dir o;
     package_uuid_exists := package_uuid_exists o;
     changelog_file := changelog_file o; editor := editor o;
     _last_tagged_version := _last_tagged_version o;
     commit_message := commit_message o; njobs := njobs o;
     build_time := build_time o; allow_not_latest := allow_not_latest o;
     this_version := this_version o;
     package_uuid_file := v; variants := variants o;
     tag_url := tag_url o; this_url := this_url o;
     patch_path := patch_path o |}.
Definition set_variants v (o : self_t) : self_t :=
  {| path := path o; metadata := metadata o; base_dir := base_dir o;
     pkg_release_dir := pkg_release_dir o;
     package_uuid_exists := package_uuid_exists o;
     changelog_file := changelog_file o; editor := editor o;
     _last_tagged_version := _last_tagged_version o;
     commit_message := commit_message o; njobs := njobs o;
     build_time := build_time o; allow_not_latest := allow_not_latest o;
     this_version := this_version o;
     package_uuid_file := package_uuid_file o; variants := v;
     tag_url := tag_url o; this_url := this_url o;
     patch_path := patch_path o |}.
Definition set_tag_url v (o : self_t) : self_t :=
  {| path := path o; metadata := metadata o; base_dir := base_dir o;
     pkg_release_dir := pkg_release_dir o;
     package_uuid_exists := package_uuid_exists o;
     changelog_file := changelog_file o; editor := editor o;
     _last_tagged_version := _last_tagged_version o;
     commit_message := commit_message o; njobs := njobs o;
     build_time := build_time o; allow_not_latest := allow_not_latest o;
     this_version := this_version o;
     package_uuid_file := package_uuid_file o; variants := variants o;
     tag_url := v; this_url := this_url o;
     patch_path := patch_path o |}.
(** The four assignments at the head of [release]. *)
Definition set_release_args cm nj bt anl (o : self_t) : self_t :=
  {| path := path o; metadata := metadata o; base_dir := base_dir o;
     pkg_release_dir := pkg_release_dir o;
     package_uuid_exists := package_uuid_exists o;
     changelog_file := changelog_file o; editor := editor o;
     _last_tagged_version := _last_tagged_version o;
     commit_message := Some cm; njobs := nj;
     build_time := bt; allow_not_latest := anl;
     this_version := this_version o;
     package_uuid_file := package_uuid_file o; variants := variants o;
     tag_url := tag_url o; this_url := this_url o;
     patch_path := patch_path o |}.

Definition assign (f : self_t -> self_t) : M st unit := modify (with_self f).

(** Reading an attribute. *)
Definition getattr {A} (name : string) (f : self_t -> option A) : M st A :=
  fun s => match f (self s) with
           | Some a => (Ok a, s)
           | None => (Raise (AttributeError name), s)
           end.
Definition attr {A} (f : self_t -> A) : M st A := fun s => (Ok (f (self s)), s).

(** [try: body finally: fin] *)
Definition try_finally {A} (body : M st A) (fin : M st unit) : M st A :=
  fun s => match body s with
           | (r, s') =>
               match fin s' with
               | (Ok _, s'') => (r, s'')
               | (Raise e, s'') => (Raise e, s'')
               end
           end.


(* ------------------------------------------------------------------ *)
(** ** [rez_release.py]: the release modes *)

Variable E : environ.

(** The three classes registered by the module. *)
Inductive mode : Type := BaseMode | SvnMode | HgMode.

Definition REZ_RELEASE_PATH_ENV_VAR : string := "REZ_RELEASE_PACKAGES_PATH".
Definition EDITOR_ENV_VAR : string := "REZ_RELEASE_EDITOR".
Definition RELEASE_COMMIT_FILE : string := "rez-release-commit.tmp".

Local Open Scope py_scope.

(** *** Subversion helpers *)

(** [svn_url_exists(client, url)] *)
Definition svn_url_exists (url : string) : M st bool :=
  match svn_info2 E url with
  | Ok n => ret (0 <? n)%nat
  | Raise (ClientError _) => ret false
  | Raise e => raise e
  end.

(** [SvnRezReleaseMode.get_tag_url] *)
Definition svn_get_tag_url (version : option Version) : M st string :=
  this_url <- getattr "this_url" this_url ;;
  let pos_tr := Py.find this_url "/trunk" in
  let pos_br := Py.find this_url "/branches" in
  let pos := Z.max pos_tr pos_br in
  if (pos =? -1)%Z
  then (p <- attr path ;;
        raise (RezReleaseError (p ++ "is not in a branch or trunk")))
  else
    let base_url := Py.slice_to this_url (Z.to_nat pos) in
    let tag_url := base_url ++ "/tags" in
    ret (match version with
         | Some v =>
             if Version_truth v then tag_url ++ "/" ++ Version_str v
             else tag_url
         | None => tag_url
         end).

(** The body of the loop of [SvnRezReleaseMode.get_tags] on one entry
    name: the last path component, a legacy [vXX_XX_XX] name rewritten. *)
Definition svn_tag_of_entry (name : string) : result string :=
  rbind (Py.last (Py.split_on "/" name)) (fun tag =>
  rbind (Py.index0 tag) (fun c =>
  if Ascii.eqb c "v"
  then
    let nums := Py.split_on "_" (String.substring 1 (String.length tag) tag) in
    rbind (rbind (Py.first nums) Py.int) (fun n0 =>
    rbind (rbind (Py.first (tl nums)) Py.int) (fun n1 =>
    rbind (rbind (Py.first (tl (tl nums))) Py.int) (fun n2 =>
    Ok (Py.str_Z n0 ++ "." ++ Py.str_Z n1 ++ "." ++ Py.str_Z n2))))
  else Ok tag)).

(** [for tag_entry in tags: ... tags.append(tag)] *)
Fixpoint svn_collect_tags (entries : list string) (acc : list string)
  : result (list string) :=
  match entries with
  | [] => Ok acc
  | e :: rest =>
      rbind (svn_tag_of_entry e) (fun tag => svn_collect_tags rest (acc ++ [tag])%list)
  end.

(** [SvnRezReleaseMode.get_tags].  The statement [tags = []] rebinds the
    name that held the listing, so the loop runs over the new empty list. *)
Definition svn_get_tags : M st (list string) :=
  tag_url <- svn_get_tag_url None ;;
  ex <- svn_url_exists tag_url ;;
  if negb ex
  then raise (RezReleaseError ("Tag url does not exist: " ++ tag_url))
  else
    tags <- lift (svn_ls E tag_url) ;;
    if (List.length tags =? 0)%nat
    then raise (RezReleaseError "No existing tags")
    else
      let tags : list string := [] in
      lift (svn_collect_tags tags tags).

(** *** Mercurial helpers *)

(** The module function [hg]: run mercurial, return its output lines. *)
Definition hg_run (args : list string) : result (list string) :=
  let '(returncode, out, err) := hg_proc E args in
  if negb (returncode =? 0)%Z
  then Raise (RezReleaseError
                ("failed to call: hg " ++ Py.join " " args ++ Py.nl ++ err))
  else
    let out := Py.rstrip_nl out in
    if negb (Py.truthy out) then Ok []
    else Ok (Py.split_on (ascii_of_nat 10) out).

Definition hg (args : list string) : M st (list string) := lift (hg_run args).

(** [HgRezReleaseMode.get_tags] *)
Definition hg_get_tags : M st (list string) :=
  lines <- hg ["tags"] ;;
  tags <- lift (Py.map_result (fun line => Py.first (Py.split line)) lines) ;;
  lines' <- hg ["bookmarks"] ;;
  bookmarks <- lift (Py.map_result
                       (fun line => Py.last_but_one (Py.split line)) lines') ;;
  ret (tags ++ bookmarks)%list.

(** *** [get_tags], by class *)

Definition get_tags (m : mode) : M st (list string) :=
  match m with
  | BaseMode => ret []
  | SvnMode => svn_get_tags
  | HgMode => hg_get_tags
  end.

(** *** [get_last_tagged_version] *)

(** The loop shared by both definitions of [get_last_tagged_version]:
    [try: ver = Version(tag) except Exception: continue], then the
    [if ver > latest_ver] update. *)
Fixpoint latest_loop (tags : list string) (latest_ver : Version)
  (found_tag : bool) : result (Version * bool) :=
  match tags with
  | [] => Ok (latest_ver, found_tag)
  | tag :: rest =>
      match Version_new tag with
      | Raise e =>
          if is_Exception e then latest_loop rest latest_ver found_tag
          else Raise e
      | Ok ver =>
          if Version_gt ver latest_ver then latest_loop rest ver true
          else latest_loop rest latest_ver found_tag
      end
  end.

(** [RezReleaseMode.get_last_tagged_version] *)
Definition base_get_last_tagged_version (m : mode) : M st (option Version) :=
  latest_ver <- lift (Version_new "0") ;;
  tags <- get_tags m ;;
  r <- lift (latest_loop tags latest_ver false) ;;
  let '(latest_ver, found_tag) := r in
  if negb found_tag then ret None else ret (Some latest_ver).

(** [SvnRezReleaseMode.get_last_tagged_version] *)
Definition svn_get_last_tagged_version (m : mode) : M st (option Version) :=
  this_url <- getattr "this_url" this_url ;;
  latest_ver <-
    (if Py.contains "/branches/" this_url
     then lift (rbind (Py.last (Py.split_on "/" this_url)) Version_new)
     else lift (Version_new "0")) ;;
  tags <- get_tags m ;;
  r <- lift (latest_loop tags latest_ver false) ;;
  let '(latest_ver, found_tag) := r in
  if negb found_tag then ret None else ret (Some latest_ver).

Definition get_last_tagged_version (m : mode) : M st (option Version) :=
  match m with
  | SvnMode => svn_get_last_tagged_version m
  | _ => base_get_last_tagged_version m
  end.

(** The cached property [last_tagged_version]. *)
Definition last_tagged_version (m : mode) : M st (option Version) :=
  c <- attr _last_tagged_version ;;
  match c with
  | None =>
      v <- get_last_tagged_version m ;;
      assign (set_last_tagged_version (Some v)) ;;;
      ret v
  | Some v => ret v
  end.

(** *** [validate_version] *)

(** [RezReleaseMode.validate_version] *)
Definition base_validate_version (m : mode) : M st unit :=
  anl <- attr allow_not_latest ;;
  if anl : bool then ret tt
  else
    ltv <- last_tagged_version m ;;
    match ltv with
    | None => ret tt
    | Some last =>
        let last_tag_str := Version_str last in
        c <- lift (Py.index0 last_tag_str) ;;
        if Ascii.eqb c "v" then ret tt
        else
          this <- getattr "this_version" this_version ;;
          if Version_le this last
          then
            md <- getattr "metadata" metadata ;;
            raise (RezReleaseError
                     ("cannot release: current version '" ++ md_version md
                      ++ "' is not greater than the latest tag '"
                      ++ last_tag_str
                      ++ "'. Version up or pass --allow-not-latest."))
          else ret tt
    end.

(** [SvnRezReleaseMode.validate_version].  It reads [self.version]; no
    method of the class or of its base assigns an attribute of that name
    (the version parsed by [get_metadata] is [self.this_version]). *)
Definition svn_validate_version (m : mode) : M st unit :=
  version <- getattr "version" (fun _ => @None Version) ;;
  tag_url <- svn_get_tag_url (Some version) ;;
  assign (set_tag_url (Some (Some tag_url))) ;;;
  ex <- svn_url_exists tag_url ;;
  if ex : bool
  then raise (RezReleaseError
                ("cannot release: the tag '" ++ tag_url
                 ++ "' already exists in svn."
                 ++ " You may need to up your version, svn-checkin and try again."))
  else base_validate_version m.

Definition validate_version (m : mode) : M st unit :=
  match m with
  | SvnMode => svn_validate_version m
  | _ => base_validate_version m
  end.


(** *** The other hooks, by class *)

(** [get_metadata]: the base method, and the check added by the svn class. *)
Definition base_get_metadata : M st metadata_t :=
  p <- attr path ;;
  let yaml_path := Py.path_join p "package.yaml" in
  if negb (access E yaml_path)
  then raise (RezReleaseError (yaml_path ++ " not found"))
  else
    md <- lift (ConfigMetadata E yaml_path) ;;
    if negb (Py.truthy (md_version md))
    then raise (RezReleaseError (yaml_path ++ " does not specify a version"))
    else
      v <- lift (match Version_new (md_version md) with
                 | Raise (VersionError _) =>
                     Raise (RezReleaseError
                              (yaml_path ++ " contains illegal version number"))
                 | r => r
                 end) ;;
      assign (set_this_version (Some v)) ;;;
      if negb (Py.truthy (md_name md))
      then raise (RezReleaseError (yaml_path ++ " is missing name"))
      else if negb (Py.truthy (md_uuid md))
      then raise (RezReleaseError (yaml_path ++ " is missing uuid"))
      else if negb (Py.truthy (md_description md))
      then raise (RezReleaseError (yaml_path ++ " is missing a description"))
      else if negb (Py.nonempty (md_authors md))
      then raise (RezReleaseError (yaml_path ++ " is missing authors"))
      else ret md.

Definition svn_get_metadata : M st metadata_t :=
  result <- base_get_metadata ;;
  this_url <- getattr "this_url" this_url ;;
  ex <- svn_url_exists (this_url ++ "/package.yaml") ;;
  if negb ex
  then (p <- attr path ;;
        raise (RezReleaseError
                 (p ++ "/package.yaml is not under source control")))
  else ret result.

Definition get_metadata (m : mode) : M st metadata_t :=
  match m with
  | SvnMode => svn_get_metadata
  | _ => base_get_metadata
  end.

(** [validate_repostate].  The svn message ends with the [repr] of the
    status list, which is left out here. *)
Definition svn_validate_repostate : M st unit :=
  p <- attr path ;;
  status_list <- lift (svn_status E p) ;;
  let status_list_known := filter (fun entry => entry) status_list in
  if (0 <? List.length status_list_known)%nat
  then raise (RezReleaseError
                ("'" ++ p ++ "' is not in a state to release - you may need to "
                 ++ "svn-checkin and/or svn-update: "))
  else lift (svn_update E p).

Definition hg_check (modified : list string) (p : string) : M st unit :=
  if Py.nonempty modified
  then
    modified' <- lift (Py.map_result
                         (fun line => Py.last (Py.split line)) modified) ;;
    raise (RezReleaseError
             ("'" ++ p ++ "' is not in a state to release"
              ++ " - please commit outstanding changes: "
              ++ Py.join ", " modified'))
  else ret tt.

Definition hg_validate_repostate : M st unit :=
  out <- hg ["status"; "-m"; "-a"] ;;
  p <- attr path ;;
  hg_check out p ;;;
  pp <- getattr "patch_path" patch_path ;;
  match pp with
  | Some patches =>
      if Py.truthy patches
      then (out' <- hg ["status"; "-m"; "-a"; "--mq"] ;; hg_check out' patches)
      else ret tt
  | None => ret tt
  end.

Definition validate_repostate (m : mode) : M st unit :=
  match m with
  | BaseMode => ret tt
  | SvnMode => svn_validate_repostate
  | HgMode => hg_validate_repostate
  end.

(** [if self.patch_path:] *)
Definition has_patch_queue : M st bool :=
  pp <- getattr "patch_path" patch_path ;;
  ret (match pp with Some p => Py.truthy p | None => false end).

(** [get_tag_meta_str].  The base method returns [self.tag_url], an
    attribute only the svn class assigns. *)
Definition hg_get_tag_meta_str : M st (option string) :=
  mq <- has_patch_queue ;;
  if mq : bool
  then
    l1 <- hg ["log"; "-r"; "qparent"; "--template"; "{node}"] ;;
    qparent <- lift (Py.first l1) ;;
    l2 <- hg ["parent"; "--mq"; "--template"; "{node}"] ;;
    mq_parent <- lift (Py.first l2) ;;
    ret (Some (qparent ++ "#" ++ mq_parent))
  else
    l <- hg ["parent"; "--template{node}"] ;;
    node <- lift (Py.first l) ;;
    ret (Some node).

Definition get_tag_meta_str (m : mode) : M st (option string) :=
  match m with
  | HgMode => hg_get_tag_meta_str
  | _ => getattr "tag_url" tag_url
  end.

(** [copy_source] *)
Definition copy_source (m : mode) (build_dir : string) : M st unit :=
  match m with
  | BaseMode => lift (copytree E (getcwd E) build_dir)
  | SvnMode =>
      this_url <- getattr "this_url" this_url ;;
      if negb (svn_export E this_url build_dir =? 0)%Z
      then raise (RezReleaseError "rez-release: svn export failed")
      else ret tt
  | HgMode => hg ["archive"; build_dir] ;;; ret tt
  end.

(** [get_changelog] *)
Definition hg_get_changelog (m : mode) : M st string :=
  ltv <- last_tagged_version m ;;
  start_rev <-
    (if match ltv with Some v => Version_truth v | None => false end
     then (ltv' <- last_tagged_version m ;;
           ret (match ltv' with Some v => Version_str v | None => "None" end))
     else ret "0") ;;
  mq <- has_patch_queue ;;
  let end_rev := if mq : bool then "qparent" else "tip" in
  log <- hg ["log"; "-r"; start_rev ++ ".." ++ end_rev ++ " and not merge()";
             "--template=" ++ Py.dquote ++ "{desc}" ++ Py.nl ++ Py.nl
             ++ Py.dquote] ;;
  ret (Py.join "" log).

Definition get_changelog (m : mode) : M st string :=
  match m with
  | BaseMode => ret ""
  | SvnMode => lift (svn_changelog E)
  | HgMode => hg_get_changelog m
  end.

(** The message the tag is created with; [None] cannot be passed on. *)
Definition message_text : M st string :=
  cm <- getattr "commit_message" commit_message ;;
  match cm with
  | Some s => ret s
  | None => raise (TypeError "expected a string, got None")
  end.

(** [create_release_tag] *)
Definition svn_create_release_tag : M st unit :=
  tu <- getattr "tag_url" tag_url ;;
  match tu with
  | None => raise (TypeError "cannot concatenate 'str' and 'NoneType' objects")
  | Some tag_url =>
      cm <- getattr "commit_message" commit_message ;;
      this_url <- getattr "this_url" this_url ;;
      lift (svn_copy2 E this_url tag_url
              (match cm with Some s => s | None => "" end))
  end.

Definition hg_create_release_tag : M st unit :=
  mq <- has_patch_queue ;;
  v <- getattr "this_version" this_version ;;
  if mq : bool
  then
    msg <- message_text ;;
    hg ["tag"; "-f"; Version_str v; "--message"; msg; "--mq"] ;;;
    hg ["bookmark"; "-f"; Version_str v] ;;;
    ret tt
  else hg ["tag"; "-f"; Version_str v] ;;; ret tt.

Definition create_release_tag (m : mode) : M st unit :=
  match m with
  | BaseMode => ret tt
  | SvnMode => svn_create_release_tag
  | HgMode => hg_create_release_tag
  end.


(* ------------------------------------------------------------------ *)
(** ** [rez_release.py]: the phases of a release *)

Definition world_get {A} (f : world -> A) : M st A :=
  fun s => (Ok (f (wld s)), s).

(** [open(package_uuid_file).read()] *)
Definition read_uuid_file (d : family_dir) : result string :=
  match d with
  | Dir (Some f) =>
      if uf_readable f then Ok (uf_content f)
      else Raise (IOError "[Errno 13] Permission denied")
  | _ => Raise (IOError "[Errno 2] No such file or directory")
  end.

(** [RezReleaseMode.check_uuid] *)
Definition check_uuid (package_uuid_file : string) : M st bool :=
  d <- world_get central ;;
  md <- getattr "metadata" metadata ;;
  let '(package_uuid_exists, existing_uuid) :=
    match read_uuid_file d with
    | Ok text => (true, Py.strip text)
    | Raise _ => (false, md_uuid md)
    end in
  if negb (String.eqb existing_uuid (md_uuid md))
  then raise (RezReleaseError
                ("the uuid in '" ++ package_uuid_file
                 ++ "' does not match this package's uuid - you may have a package "
                 ++ "name clash. All package names must be unique."))
  else ret package_uuid_exists.

(** [os.makedirs] on the central family directory: it raises when the
    directory is there already. *)
Definition makedirs_central (p : string) : M st unit :=
  d <- world_get central ;;
  match d with
  | NoDir => emit (EvMakeFamilyDir p) ;;; set_central (Dir None)
  | Dir _ => raise (OSError ("[Errno 17] File exists: '" ++ p ++ "'"))
  end.

(** [f = open(package_uuid_file, 'w'); f.write(uuid); f.close()] *)
Definition write_uuid_file (file content : string) : M st unit :=
  d <- world_get central ;;
  match d with
  | NoDir => raise (IOError "[Errno 2] No such file or directory")
  | Dir _ =>
      emit (EvWriteUuid file content) ;;;
      set_central (Dir (Some {| uf_content := content; uf_readable := true |}))
  end.

(** [RezReleaseMode.write_time_metafile] *)
Definition write_time_metafile : M st unit :=
  prd <- getattr "pkg_release_dir" pkg_release_dir ;;
  md <- getattr "metadata" metadata ;;
  let time_metafile :=
    Py.path_join (Py.path_join (Py.path_join prd (md_version md)) ".metadata")
                 "release_time.txt" in
  lift (open_time_metafile E time_metafile) ;;;
  emit (EvWriteTimeMetafile time_metafile (Py.str_nat (time_now E) ++ Py.nl)).

(** The module function [send_release_email]; a failure to send is
    caught and printed. *)
Definition send_release_email (subject : string) (body : option string)
  : M st unit :=
  match getenv E "REZ_RELEASE_EMAIL_TO" with
  | None => ret tt
  | Some to_ =>
      if negb (Py.truthy to_) then ret tt
      else
        let recipients :=
          Py.replace_char "," " " (Py.replace_char ";" " "
            (Py.replace_char ":" " " to_)) in
        let recipients := Py.split (Py.strip recipients) in
        if negb (Py.nonempty recipients) then ret tt
        else emit (EvSendEmail subject
                     (match body with Some b => b | None => "" end)
                     recipients)
  end.

(** [RezReleaseMode.send_email] *)
Definition send_email : M st unit :=
  let usr := match getenv E "USER" with Some u => u | None => "unknown.user" end in
  md <- getattr "metadata" metadata ;;
  v <- getattr "this_version" this_version ;;
  let pkgname := md_name md ++ "-" ++ Version_str v in
  let subject := "[rez] [release] " ++ usr ++ " released " ++ pkgname in
  vs <- getattr "variants" variants ;;
  let subject :=
    if (1 <? List.length vs)%nat
    then subject ++ " (" ++ Py.str_nat (List.length vs) ++ " variants)"
    else subject in
  cm <- getattr "commit_message" commit_message ;;
  send_release_email subject cm.

(** [RezReleaseMode._write_changelog] *)
Definition _write_changelog (m : mode) : M st unit :=
  changelog <- get_changelog m ;;
  if Py.truthy changelog
  then
    cm <- getattr "commit_message" commit_message ;;
    assign (set_commit_message
              (Some (Some (match cm with
                           | Some (String c r) =>
                               String c r ++ Py.nl ++ changelog
                           | _ => Py.nl ++ Py.nl ++ changelog
                           end)))) ;;;
    f <- attr changelog_file ;;
    emit (EvWriteChangelog f changelog) ;;;
    set_local (mark_present f)
  else ret tt.

(** [RezReleaseMode._get_commit_message] *)
Definition _get_commit_message : M st unit :=
  bd <- getattr "base_dir" base_dir ;;
  let tmpf := Py.path_join bd RELEASE_COMMIT_FILE in
  msg <- message_text ;;
  emit (EvWriteCommitFile tmpf msg) ;;;
  try_finally
    (ed <- attr editor ;;
     match ed with
     | None =>
         raise (TypeError "unsupported operand type(s) for +: 'NoneType' and 'str'")
     | Some ed =>
         let cmd := ed ++ " " ++ tmpf in
         let returncode := editor_call E cmd in
         emit (EvEditor cmd returncode) ;;;
         if (returncode =? 0)%Z
         then
           let new_commit_message := editor_text E msg in
           (if String.eqb new_commit_message msg
            then match raw_input E with
                 | Some reply =>
                     if negb (String.eqb reply "c") then raise (SystemExit 1)
                     else ret tt
                 | None => raise (SystemExit 1)
                 end
            else ret tt) ;;;
           assign (set_commit_message (Some (Some new_commit_message)))
         else raise (RezReleaseError "Error getting commit message")
     end)
    (emit (EvRemove tmpf)).

(** [RezReleaseMode.get_build_cmd] and [get_install_cmd] *)
Definition cmd_options (m : mode) : M st (string * string) :=
  tms <- get_tag_meta_str m ;;
  let tag_meta_str :=
    match tms with
    | Some (String c r) => " -s " ++ String c r
    | _ => ""
    end in
  cf <- attr changelog_file ;;
  ex <- world_get (fun w => local_exists w cf) ;;
  let changelog := if ex : bool then " -c " ++ cf else "" in
  ret (tag_meta_str, changelog).

Definition get_build_cmd (m : mode) (vararg : string) : M st string :=
  o <- cmd_options m ;;
  let '(tag_meta_str, changelog) := o in
  bt <- attr build_time ;;
  nj <- attr njobs ;;
  ret ("rez-build" ++ " -t " ++ bt ++ " " ++ vararg ++ tag_meta_str
       ++ changelog ++ " -- -- -j" ++ Py.str_nat nj).

Definition get_install_cmd (m : mode) (vararg : string) : M st string :=
  o <- cmd_options m ;;
  let '(tag_meta_str, changelog) := o in
  bt <- attr build_time ;;
  ret ("rez-build -n" ++ " -t " ++ bt ++ " " ++ vararg ++ tag_meta_str
       ++ changelog ++ " -- -c -- install").

(** [RezReleaseMode.pre_build] *)
Definition pre_build (m : mode) : M st unit :=
  md <- get_metadata m ;;
  assign (set_metadata (Some md)) ;;;
  match getenv E REZ_RELEASE_PATH_ENV_VAR with
  | Some (String c r) =>
      let prd := Py.path_join (String c r) (md_name md) in
      assign (set_pkg_release_dir (Some prd)) ;;;
      let puf := Py.path_join prd "package.uuid" in
      assign (set_package_uuid_file (Some puf)) ;;;
      ex <- check_uuid puf ;;
      assign (set_package_uuid_exists (Some ex)) ;;;
      assign (set_variants
                (Some (if Py.nonempty (md_variants md)
                       then map Some (md_variants md) else [None]))) ;;;
      (* create base dir to do clean builds from *)
      let bd := Py.path_join (Py.path_join (getcwd E) "build") "rez-release" in
      assign (set_base_dir (Some bd)) ;;;
      there <- world_get (fun w => local_exists w bd) ;;
      (if there : bool
       then (if islink E bd then emit (EvRemove bd)
             else if isdir E bd then emit (EvRmtree bd)
             else emit (EvRemove bd)) ;;;
            set_local (mark_absent bd)
       else ret tt) ;;;
      emit (EvMakedirs bd) ;;;
      set_local (mark_present bd) ;;;
      bt <- attr build_time ;;
      (if String.eqb bt "0"
       then assign (set_build_time (Py.str_nat (time_now E)))
       else ret tt) ;;;
      cm <- getattr "commit_message" commit_message ;;
      match cm with
      | None =>
          match getenv E EDITOR_ENV_VAR with
          | Some (String c' r') =>
              assign (set_editor (Some (String c' r'))) ;;;
              assign (set_commit_message (Some (Some "")))
          | _ =>
              raise (RezReleaseError
                       ("rez-release: $" ++ EDITOR_ENV_VAR ++ " is not set."))
          end
      | Some _ => ret tt
      end ;;;
      (* check we're in a state to release *)
      emit (EvCall "validate_repostate") ;;;
      validate_repostate m ;;;
      emit (EvCall "validate_version") ;;;
      validate_version m ;;;
      _write_changelog m ;;;
      _get_commit_message
  | _ =>
      raise (RezReleaseError ("$" ++ REZ_RELEASE_PATH_ENV_VAR ++ " is not set."))
  end.

(** [RezReleaseMode.build_variant]; [varnum] is the index given by
    [enumerate]. *)
Definition build_variant (m : mode) (variant : variant_t) (varnum : nat)
  : M st unit :=
  bd <- getattr "base_dir" base_dir ;;
  let vararg := if variant_truth variant then "-v " ++ Py.str_nat varnum else "" in
  let subdir :=
    if variant_truth variant then Py.path_join bd (Py.str_nat varnum) else bd in
  there <- world_get (fun w => local_exists w subdir) ;;
  (if there : bool
   then emit (EvRmtree subdir) ;;; set_local (mark_absent subdir)
   else ret tt) ;;;
  emit (EvCopySource subdir) ;;;
  copy_source m subdir ;;;
  set_local (mark_present subdir) ;;;
  build_cmd <- get_build_cmd m vararg ;;
  let build_cmd := "cd " ++ subdir ++ " ; " ++ build_cmd in
  let returncode := fst (shell E build_cmd) in
  emit (EvBuild varnum build_cmd returncode) ;;;
  if negb (returncode =? 0)%Z
  then raise (RezReleaseError "rez-release: build failed")
  else ret tt.

(** [for varnum, variant in enumerate(self.variants)] *)
Fixpoint for_enumerate (body : variant_t -> nat -> M st unit)
  (varnum : nat) (vs : list variant_t) : M st unit :=
  match vs with
  | [] => ret tt
  | variant :: rest =>
      body variant varnum ;;; for_enumerate body (S varnum) rest
  end.

(** [RezReleaseMode.build] *)
Definition build (m : mode) : M st unit :=
  vs <- getattr "variants" variants ;;
  for_enumerate (build_variant m) 0 vs.

Definition install_failed : string :=
  "rez-release: install failed!! A partial central installation may "
  ++ "have resulted, please see to this immediately - it should probably be removed.".

(** [RezReleaseMode.install_variant] *)
Definition install_variant (m : mode) (variant : variant_t) (varnum : nat)
  : M st unit :=
  let vararg := if variant_truth variant then "-v " ++ Py.str_nat varnum else "" in
  let varnum_str := if variant_truth variant then Py.str_nat varnum else "" in
  bd <- getattr "base_dir" base_dir ;;
  let subdir := bd ++ "/" ++ varnum_str ++ "/" in
  (* determine install path *)
  let query := "cd " ++ subdir ++ " ; rez-build -i " ++ vararg in
  let '(returncode, instpath) := shell E query in
  emit (EvInstallPath varnum query returncode) ;;;
  if negb (returncode =? 0)%Z
  then raise (RezReleaseError install_failed)
  else
    let instpath := Py.strip instpath in
    build_cmd <- get_install_cmd m vararg ;;
    let build_cmd := "cd " ++ subdir ++ " ; " ++ build_cmd in
    let returncode := fst (shell E build_cmd) in
    emit (EvInstall varnum build_cmd returncode) ;;;
    if negb (returncode =? 0)%Z
    then raise (RezReleaseError install_failed)
    else
      emit (EvCheckInstalled instpath) ;;;
      lift (walk_installed E instpath).

(** [RezReleaseMode.install] *)
Definition install (m : mode) : M st unit :=
  pue <- attr package_uuid_exists ;;
  (* create the package.uuid file, if it doesn't exist *)
  (if negb (match pue with Some b => b | None => false end)
   then
     prd <- getattr "pkg_release_dir" pkg_release_dir ;;
     makedirs_central prd ;;;
     puf <- getattr "package_uuid_file" package_uuid_file ;;
     md <- getattr "metadata" metadata ;;
     write_uuid_file puf (md_uuid md)
   else ret tt) ;;;
  (* install the variants *)
  vs <- getattr "variants" variants ;;
  for_enumerate (install_variant m) 0 vs.

(** [RezReleaseMode.post_install] *)
Definition post_install (m : mode) : M st unit :=
  write_time_metafile ;;;
  send_email ;;;
  emit (EvCall "create_release_tag") ;;;
  create_release_tag m.

(** [RezReleaseMode.release] *)
Definition release (m : mode) (commit_message : option string) (njobs : nat)
  (build_time : string) (allow_not_latest : bool) : M st unit :=
  assign (set_release_args commit_message njobs build_time allow_not_latest) ;;;
  emit (EvCall "pre_build") ;;;
  pre_build m ;;;
  emit (EvCall "build") ;;;
  build m ;;;
  emit (EvCall "install") ;;;
  install m ;;;
  emit (EvCall "post_install") ;;;
  post_install m.


(* ------------------------------------------------------------------ *)
(** ** [rez_release.py]: construction of a release mode *)

(** [RezReleaseMode.__init__] *)
Definition base_init (p : string) : self_t :=
  {| path := expand_path E p;
     metadata := None; base_dir := None; pkg_release_dir := None;
     package_uuid_exists := None;
     changelog_file :=
       Py.path_join (getcwd E) "build/rez-release-changelog.txt";
     editor := None;
     _last_tagged_version := None;
     commit_message := None; njobs := 0; build_time := "";
     allow_not_latest := false;
     this_version := None; package_uuid_file := None; variants := None;
     tag_url := None; this_url := None; patch_path := None |}.

(** [SvnRezReleaseMode.__init__] *)
Definition svn_init (p : string) : result self_t :=
  let o := base_init p in
  rbind (import_pysvn E) (fun _ =>
  rbind (svn_info E (path o)) (fun svn_entry =>
  match svn_entry with
  | None =>
      Raise (RezReleaseUnsupportedMode
               ("'" ++ path o ++ "' is not an svn working copy"))
  | Some url =>
      Ok {| path := path o; metadata := None; base_dir := None;
            pkg_release_dir := None; package_uuid_exists := None;
            changelog_file := changelog_file o; editor := None;
            _last_tagged_version := None;
            commit_message := None; njobs := 0; build_time := "";
            allow_not_latest := false;
            this_version := None; package_uuid_file := None;
            variants := None;
            tag_url := Some None; this_url := Some url;
            patch_path := None |}
  end)).

(** [HgRezReleaseMode.__init__] *)
Definition hg_init (p : string) : result self_t :=
  let o := base_init p in
  let hgdir := Py.path_join (path o) ".hg" in
  if negb (isdir E hgdir)
  then Raise (RezReleaseUnsupportedMode
                ("'" ++ path o ++ "' is not an mercurial working copy"))
  else
    match rbind (hg_run ["root"]) Py.first with
    | Ok root =>
        if String.eqb root (path o)
        then
          let patches := Py.path_join hgdir "patches" in
          Ok {| path := path o; metadata := None; base_dir := None;
                pkg_release_dir := None; package_uuid_exists := None;
                changelog_file := changelog_file o; editor := None;
                _last_tagged_version := None;
                commit_message := None; njobs := 0; build_time := "";
                allow_not_latest := false;
                this_version := None; package_uuid_file := None;
                variants := None;
                tag_url := None; this_url := None;
                patch_path :=
                  Some (if isdir E patches then Some patches else None) |}
        else Raise (RezReleaseUnsupportedMode
                      ("'" ++ path o
                       ++ "' is not the root of a mercurial working copy"))
    | Raise _ => Raise (RezReleaseUnsupportedMode "failed to call hg")
    end.

(** [cls(path)] *)
Definition construct (cls : mode) (p : string) : result self_t :=
  match cls with
  | BaseMode => Ok (base_init p)
  | SvnMode => svn_init p
  | HgMode => hg_init p
  end.

(** A run of [release] on a freshly constructed object, from a world
    with an empty trace. *)
Definition start (o : self_t) (c : family_dir) (ex : string -> bool) : st :=
  {| self := o;
     wld := {| central := c; local_exists := ex; trace := [] |} |}.

End WithVersions.
End Release.

(* ------------------------------------------------------------------ *)
(** ** [rez_release.py]: the registry of release modes *)

Module Registry.

Section Classes.

(** Class objects and what calling one on a path does. *)
Variable cls_t : Type.
Variable inst_t : Type.
Variable construct : cls_t -> string -> result inst_t.

(** The module global [_release_classes]. *)
Definition registry : Type := list (string * cls_t).

(** [list_release_modes()] *)
Definition list_release_modes (rc : registry) : list string := map fst rc.

(** [register_release_mode(name, cls)].  Every [cls_t] stands for a
    subclass of [RezReleaseMode], so the first assertion holds. *)
Definition register_release_mode (name : string) (cls : cls_t) (rc : registry)
  : result registry :=
  if existsb (String.eqb name) (list_release_modes rc)
  then Raise (AssertionError "Mode has already been registered")
  else (* put new entries at the front *) Ok ((name, cls) :: rc).

(** The loop of [list_available_release_modes]:
    [try: cls(path) except: pass else: modes.append(name)]. *)
Fixpoint available_loop (rc : registry) (path : string) (modes : list string)
  : list string :=
  match rc with
  | [] => modes
  | (name, cls) :: rest =>
      match construct cls path with
      | Raise _ => available_loop rest path modes
      | Ok _ => available_loop rest path (modes ++ [name])
      end
  end.

(** [list_available_release_modes(path)] *)
Definition list_available_release_modes (rc : registry) (path : string)
  : result (list string) :=
  Ok (available_loop rc path []).

(** The registry as the specification words it: a backend that raises the
    dedicated "unsupported" condition is filtered out, any other
    construction failure propagates. *)
Fixpoint probe_available_spec (rc : registry) (path : string)
  : result (list string) :=
  match rc with
  | [] => Ok []
  | (name, cls) :: rest =>
      match construct cls path with
      | Raise (RezReleaseUnsupportedMode _) => probe_available_spec rest path
      | Raise e => Raise e
      | Ok _ => rbind (probe_available_spec rest path) (fun l => Ok (name :: l))
      end
  end.

(** The names of the entries whose construction on [path] succeeds, in
    registry order. *)
Definition constructible (rc : registry) (path : string) : list string :=
  map fst (filter (fun nc => is_ok (construct (snd nc) path)) rc).

End Classes.

Arguments list_release_modes {cls_t} rc.
Arguments register_release_mode {cls_t} name cls rc.
Arguments available_loop {cls_t inst_t} construct rc path modes.
Arguments list_available_release_modes {cls_t inst_t} construct rc path.
Arguments probe_available_spec {cls_t inst_t} construct rc path.
Arguments constructible {cls_t inst_t} construct rc path.

End Registry.

(* ------------------------------------------------------------------ *)
(** ** [rezplugins/release_vcs/git.py] *)

Module Git.

(** *** The repository and the [git] executable

    The plugin talks to the repository only through [self.git(...)].  The
    repository is modelled by the answers of the commands the plugin
    runs. *)

Record commit : Type := {
  c_hash : string;
  c_merge : bool;                      (* more than one parent *)
  c_touches : bool;                    (* changes something under "." *)
  c_log : list string;                 (* its entry in plain [git log] *)
  c_details : string -> list string    (* [--name-only --pretty=<format>] *)
}.

Inductive upstream : Type :=
| Tracking (uri : string)              (* [@{u}], as in "origin/master" *)
| NoUpstream (stderr : string).        (* what git says when there is none *)

Record repo : Type := {
  r_bare : bool;
  r_untracked : list string;           (* ls-files --other --exclude-standard *)
  r_changes : list string;             (* status --porcelain *)
  r_status : list string;              (* status *)
  r_branch : string;                   (* rev-parse --abbrev-ref HEAD *)
  r_upstream : upstream;
  r_ahead : nat;                       (* against the tracking ref as last fetched *)
  r_behind : nat;
  r_fetch : nat * nat;                 (* ahead, behind once the remote is updated *)
  r_online : bool;                     (* the remote can be reached *)
  r_refname_ok : string -> bool;       (* git check-ref-format *)
  r_tags : list (string * string);     (* annotated tags: name, message *)
  r_pushed : list (string * string);   (* remote, tag *)
  r_history : list commit;             (* [git log], newest first *)
  r_range : string -> option (list commit);  (* [git log <rev>..HEAD] *)
  r_cmds : list (list string)          (* the commands run, oldest first *)
}.

Definition set_cmds (l : list (list string)) (r : repo) : repo :=
  {| r_bare := r_bare r; r_untracked := r_untracked r;
     r_changes := r_changes r; r_status := r_status r;
     r_branch := r_branch r; r_upstream := r_upstream r;
     r_ahead := r_ahead r; r_behind := r_behind r; r_fetch := r_fetch r;
     r_online := r_online r; r_refname_ok := r_refname_ok r;
     r_tags := r_tags r; r_pushed := r_pushed r;
     r_history := r_history r; r_range := r_range r; r_cmds := l |}.
Definition set_distance (a b : nat) (r : repo) : repo :=
  {| r_bare := r_bare r; r_untracked := r_untracked r;
     r_changes := r_changes r; r_status := r_status r;
     r_branch := r_branch r; r_upstream := r_upstream r;
     r_ahead := a; r_behind := b; r_fetch := r_fetch r;
     r_online := r_online r; r_refname_ok := r_refname_ok r;
     r_tags := r_tags r; r_pushed := r_pushed r;
     r_history := r_history r; r_range := r_range r; r_cmds := r_cmds r |}.
Definition set_tags (l : list (string * string)) (r : repo) : repo :=
  {| r_bare := r_bare r; r_untracked := r_untracked r;
     r_changes := r_changes r; r_status := r_status r;
     r_branch := r_branch r; r_upstream := r_upstream r;
     r_ahead := r_ahead r; r_behind := r_behind r; r_fetch := r_fetch r;
     r_online := r_online r; r_refname_ok := r_refname_ok r;
     r_tags := l; r_pushed := r_pushed r;
     r_history := r_history r; r_range := r_range r; r_cmds := r_cmds r |}.
Definition set_pushed (l : list (string * string)) (r : repo) : repo :=
  {| r_bare := r_bare r; r_untracked := r_untracked r;
     r_changes := r_changes r; r_status := r_status r;
     r_branch := r_branch r; r_upstream := r_upstream r;
     r_ahead := r_ahead r; r_behind := r_behind r; r_fetch := r_fetch r;
     r_online := r_online r; r_refname_ok := r_refname_ok r;
     r_tags := r_tags r; r_pushed := l;
     r_history := r_history r; r_range := r_range r; r_cmds := r_cmds r |}.

(** The first line of [git status --short -b]. *)
Definition distance_suffix (ahead behind : nat) : string :=
  match ahead, behind with
  | 0, 0 => ""
  | S _, 0 => " [ahead " ++ Py.str_nat ahead ++ "]"
  | 0, S _ => " [behind " ++ Py.str_nat behind ++ "]"
  | S _, S _ =>
      " [ahead " ++ Py.str_nat ahead ++ ", behind " ++ Py.str_nat behind ++ "]"
  end.

Definition status_header (r : repo) : string :=
  "## " ++ r_branch r ++
  match r_upstream r with
  | Tracking u => "..." ++ u ++ distance_suffix (r_ahead r) (r_behind r)
  | NoUpstream _ => ""
  end.

(** [s] without the suffix [suf], when it ends with it. *)
Fixpoint strip_suffix (suf s : string) : option string :=
  if String.eqb s suf then Some ""
  else match s with
       | EmptyString => None
       | String c r => option_map (String c) (strip_suffix suf r)
       end.

(** [s] without the prefix [pre], when it starts with it. *)
Fixpoint strip_prefix (pre s : string) : option string :=
  match pre, s with
  | EmptyString, _ => Some s
  | String a p, String b r => if Ascii.eqb a b then strip_prefix p r else None
  | String _ _, EmptyString => None
  end.

(** The history from commit [h] on, in log order. *)
Fixpoint find_commit (h : string) (cs : list commit) : list commit :=
  match cs with
  | [] => []
  | c :: rest => if String.eqb (c_hash c) h then cs else find_commit h rest
  end.

(** Equality of argument lists. *)
Fixpoint args_eqb (a b : list string) : bool :=
  match a, b with
  | [], [] => true
  | x :: a', y :: b' => String.eqb x y && args_eqb a' b'
  | _, _ => false
  end.

Definition answer : Type := (Z * list string * string) * repo.

Definition git_ok (out : list string) (r : repo) : answer := ((0%Z, out, ""), r).
Definition git_fail (err : string) (r : repo) : answer :=
  ((128%Z, @nil string, err), r).

(** [git rev-parse ...] *)
Definition git_rev_parse (rest : list string) (r : repo) : answer :=
  if args_eqb rest [] then git_ok [] r
  else if args_eqb rest ["--is-bare-repository"]
  then git_ok [if r_bare r then "true" else "false"] r
  else if args_eqb rest ["--abbrev-ref"; "--symbolic-full-name"; "@{u}"]
  then match r_upstream r with
       | Tracking u => git_ok [u] r
       | NoUpstream err => git_fail err r
       end
  else if args_eqb rest ["--abbrev-ref"; "HEAD"] then git_ok [r_branch r] r
  else git_fail "git rev-parse: unsupported arguments" r.

(** [git status ...] *)
Definition git_status (rest : list string) (r : repo) : answer :=
  if args_eqb rest [] then git_ok (r_status r) r
  else if args_eqb rest ["--porcelain"] then git_ok (r_changes r) r
  else if args_eqb rest ["--short"; "-b"]
  then git_ok (status_header r :: r_changes r) r
  else git_fail "git status: unsupported arguments" r.

(** [git remote update <remote>]: the tracking refs move to where the
    remote is. *)
Definition git_remote (rest : list string) (r : repo) : answer :=
  match rest with
  | [sub; remote] =>
      if String.eqb sub "update"
      then if r_online r
           then ((0%Z, ["Fetching " ++ remote], ""),
                 set_distance (fst (r_fetch r)) (snd (r_fetch r)) r)
           else git_fail ("fatal: unable to access '" ++ remote ++ "'") r
      else git_fail "git remote: unsupported arguments" r
  | _ => git_fail "git remote: unsupported arguments" r
  end.

(** [git tag] and [git tag -a <name> -m <message>] *)
Definition git_tag (rest : list string) (r : repo) : answer :=
  match rest with
  | [] => git_ok (map fst (r_tags r)) r
  | [a; name; mflag; msg] =>
      if String.eqb a "-a" && String.eqb mflag "-m"
      then if existsb (String.eqb name) (map fst (r_tags r))
           then git_fail ("fatal: tag '" ++ name ++ "' already exists") r
           else if negb (r_refname_ok r name)
           then git_fail ("fatal: '" ++ name ++ "' is not a valid tag name.") r
           else ((0%Z, [], ""), set_tags (r_tags r ++ [(name, msg)]) r)
      else git_fail "git tag: unsupported arguments" r
  | _ => git_fail "git tag: unsupported arguments" r
  end.

(** [git push <remote> <tag>] *)
Definition git_push (rest : list string) (r : repo) : answer :=
  match rest with
  | [remote; name] =>
      if r_online r
      then ((0%Z, [], ""), set_pushed (r_pushed r ++ [(remote, name)]) r)
      else git_fail ("fatal: unable to access '" ++ remote ++ "'") r
  | _ => git_fail "git push: unsupported arguments" r
  end.

(** The commits [--no-merges] keeps. *)
Definition not_merge (c : commit) : bool := negb (c_merge c).

(** [git log ...], in the four forms the plugin uses:
    - [git log]: every commit;
    - [git log <rev>..HEAD]: every commit of the range, merges too;
    - [git log -n 100 <rev>.. --no-merges --reverse --pretty=%H .]: the
      hashes of the commits of the range that are no merges and touch the
      current directory, the 100 latest, oldest first;
    - [git log <hash> --name-only --no-merges -1 --pretty=<format>]: the
      first commit from [hash] on that is no merge. *)
Definition git_log (rest : list string) (r : repo) : answer :=
  match rest with
  | [] => git_ok (concat (map c_log (r_history r))) r
  | [range] =>
      match option_map (r_range r) (strip_suffix "..HEAD" range) with
      | Some (Some cs) => git_ok (concat (map c_log cs)) r
      | _ => git_fail ("fatal: bad revision '" ++ range ++ "'") r
      end
  | [n; count; range; nomerges; reverse; pretty; dot] =>
      if args_eqb [n; count; nomerges; reverse; pretty; dot]
           ["-n"; "100"; "--no-merges"; "--reverse"; "--pretty=%H"; "."]
      then match option_map (r_range r) (strip_suffix ".." range) with
           | Some (Some cs) =>
               git_ok (map c_hash
                         (List.rev (firstn 100
                            (filter (fun c => not_merge c && c_touches c) cs))))
                      r
           | _ => git_fail ("fatal: bad revision '" ++ range ++ "'") r
           end
      else git_fail "git log: unsupported arguments" r
  | [h; nameonly; nomerges; one; pretty] =>
      if args_eqb [nameonly; nomerges; one] ["--name-only"; "--no-merges"; "-1"]
      then match strip_prefix "--pretty=" pretty,
                 filter not_merge (find_commit h (r_history r)) with
           | Some fmt, c :: _ => git_ok (c_details c fmt) r
           | Some _, [] =>
               match find_commit h (r_history r) with
               | [] => git_fail ("fatal: bad object " ++ h) r
               | _ => git_ok [] r
               end
           | None, _ => git_fail "git log: unsupported arguments" r
           end
      else git_fail "git log: unsupported arguments" r
  | _ => git_fail "git log: unsupported arguments" r
  end.

(** Exit status, output lines and error text of one command, and the
    repository after it. *)
Definition git_exec (args : list string) (r : repo) : answer :=
  match args with
  | [] => git_fail "usage: git <command>" r
  | cmd :: rest =>
      if String.eqb cmd "rev-parse" then git_rev_parse rest r
      else if String.eqb cmd "ls-files"
      then if args_eqb rest ["--other"; "--exclude-standard"]
           then git_ok (r_untracked r) r
           else git_fail "git ls-files: unsupported arguments" r
      else if String.eqb cmd "status" then git_status rest r
      else if String.eqb cmd "remote" then git_remote rest r
      else if String.eqb cmd "tag" then git_tag rest r
      else if String.eqb cmd "push" then git_push rest r
      else if String.eqb cmd "log" then git_log rest r
      else git_fail ("git: '" ++ cmd ++ "' is not a git command") r
  end.

(** *** The plugin *)

(** The plugin's configuration ([self.settings], [self.type_settings]). *)
Record settings : Type := {
  allow_no_upstream : bool;
  commit_details_format : string;
  releasable_branches : list string
}.

Section Plugin.

Variable cfg : settings.
(** [re.search(pattern, s)] as a truth value. *)
Variable re_search : string -> string -> bool.

Local Open Scope py_scope.

(** Modelled from the spec: [ReleaseVCS._cmd], behind [self.git], is not
    among the sources.  "All external invocations are synchronous and
    blocking; a non-zero exit status is the only failure signal, with
    captured output text folded into the raised error."  The result is the
    list of output lines, as every caller uses it. *)
Definition git (args : list string) : M repo (list string) :=
  fun r =>
    let '((returncode, out, err), r') := git_exec args r in
    let r'' := set_cmds (r_cmds r' ++ [args]) r' in
    if negb (returncode =? 0)%Z
    then (Raise (ReleaseVCSError
                   ("command failed: git " ++ Py.join " " args ++ Py.nl ++ err)),
          r'')
    else (Ok out, r'').

(** [re.compile("\[([^\]]+)\]").findall(s)]: the non-empty runs of
    characters other than a closing bracket that stand between an opening
    and a closing bracket, leftmost first, not overlapping.  [cur] is the
    run read since the last unmatched opening bracket. *)
Fixpoint findall_bracketed (cur : option string) (s : string) : list string :=
  match s with
  | EmptyString => []
  | String c rest =>
      match cur with
      | None =>
          if Ascii.eqb c "[" then findall_bracketed (Some "") rest
          else findall_bracketed None rest
      | Some run =>
          if Ascii.eqb c "]"
          then match run with
               | EmptyString => findall_bracketed None rest
               | _ => run :: findall_bracketed None rest
               end
          else findall_bracketed (Some (run ++ String c "")) rest
      end
  end.

(** [try: ... except Exception as e: raise ReleaseVCSError(...)] around
    the parsing in [get_relative_to_remote]. *)
Definition parse_distance (s2 : string) : result Z :=
  rbind (Py.first (Py.split_on "," s2)) (fun head =>
  rbind (Py.unpack2 (Py.split head)) (fun '(adj, n) =>
  if negb (String.eqb adj "ahead" || String.eqb adj "behind")
  then Raise (AssertionError "")
  else
    rbind (Py.int n) (fun n =>
    Ok (if String.eqb adj "behind" then (- n)%Z else n)))).

(** [GitReleaseVCS.get_relative_to_remote] *)
Definition get_relative_to_remote : M repo Z :=
  lines <- git ["status"; "--short"; "-b"] ;;
  s <- lift (Py.first lines) ;;
  let toks := findall_bracketed None s in
  if Py.nonempty toks
  then
    match rbind (Py.last toks) parse_distance with
    | Ok n => ret n
    | Raise e =>
        if is_Exception e
        then raise (ReleaseVCSError
                      ("Problem parsing first line of result of 'git status "
                       ++ "--short -b' (" ++ s ++ "):" ++ Py.nl ++ exn_str e))
        else raise e
    end
  else ret 0%Z.

(** [GitReleaseVCS.get_local_branch] *)
Definition get_local_branch : M repo string :=
  lines <- git ["rev-parse"; "--abbrev-ref"; "HEAD"] ;;
  lift (Py.first lines).

(** [GitReleaseVCS.get_tracking_branch]: the list [remote_uri.split('/', 1)],
    or the pair [(None, None)]. *)
Definition get_tracking_branch : M repo (list (option string)) :=
  fun r =>
    match (lines <- git ["rev-parse"; "--abbrev-ref"; "--symbolic-full-name";
                         "@{u}"] ;;
           remote_uri <- lift (Py.first lines) ;;
           ret (map Some (Py.split_once "/" remote_uri))) r with
    | (Ok l, r') => (Ok l, r')
    | (Raise e, r') =>
        if is_Exception e
        then if negb (Py.contains "No upstream branch" (exn_str e))
             then (Raise e, r')
             else (Ok [None; None], r')
        else (Raise e, r')
    end.

(** A list is never equal to a string: [b == "true"] with [b] the list of
    output lines. *)
Definition list_eq_str (b : list string) (s : string) : bool := false.

(** The loop over [releasable_branches] with its [break]. *)
Fixpoint any_search (patterns : list string) (name : string) : bool :=
  match patterns with
  | [] => false
  | p :: rest => if re_search p name then true else any_search rest name
  end.

Definition is_some_nonempty (o : option string) : bool :=
  match o with
  | Some s => Py.truthy s
  | None => false
  end.

Definition is_none (o : option string) : bool :=
  match o with None => true | Some _ => false end.

(** ['/'.join((remote, remote_branch))] *)
Definition join_uri (remote remote_branch : option string) : result string :=
  match remote, remote_branch with
  | Some a, Some b => Ok (a ++ "/" ++ b)
  | _, _ => Raise (TypeError "sequence item: expected string, NoneType found")
  end.

(** [GitReleaseVCS.validate_repostate] *)
Definition validate_repostate : M repo unit :=
  b <- git ["rev-parse"; "--is-bare-repository"] ;;
  if list_eq_str b "true"
  then raise (ReleaseVCSError "Could not release: bare git repository")
  else
    tb <- get_tracking_branch ;;
    p <- lift (Py.unpack2 tb) ;;
    let '(remote, remote_branch) := p in
    (* check for untracked files *)
    output <- git ["ls-files"; "--other"; "--exclude-standard"] ;;
    if Py.nonempty output
    then raise (ReleaseVCSError
                  ("Could not release: there are untracked files:" ++ Py.nl
                   ++ Py.join Py.nl output))
    else
      (* check for uncommitted changes *)
      isDirty <- git ["status"; "--porcelain"] ;;
      if Py.nonempty isDirty
      then
        statmsg <- git ["status"] ;;
        raise (ReleaseVCSError
                 ("Could not release: there are uncommitted changes:" ++ Py.nl
                  ++ Py.join Py.nl statmsg))
      else
        (* check for upstream branch *)
        if is_none remote && negb (allow_no_upstream cfg)
        then raise (ReleaseVCSError
                      ("Release cancelled: there is no upstream branch (git cannot see "
                       ++ "a remote repo - you should probably FIX THIS FIRST!). To allow "
                       ++ "the release, set the config entry "
                       ++ "'plugins.release_vcs.git.allow_no_upstream' to true."))
        else
          (* check we are releasing from a valid branch *)
          (if Py.nonempty (releasable_branches cfg)
           then
             current_branch_name <- get_local_branch ;;
             if negb (any_search (releasable_branches cfg) current_branch_name)
             then raise (ReleaseVCSError
                           ("Could not release: current branch is "
                            ++ current_branch_name ++ ", must match one of: "
                            ++ Py.join ", " (releasable_branches cfg)))
             else ret tt
           else ret tt) ;;;
          (* check if we are behind/ahead of remote *)
          match remote with
          | Some (String c0 r0) =>
              git ["remote"; "update"; String c0 r0] ;;;
              n <- get_relative_to_remote ;;
              if negb (n =? 0)%Z
              then
                let s := if (0 <? n)%Z then "ahead of" else "behind" in
                remote_uri <- lift (join_uri remote remote_branch) ;;
                raise (ReleaseVCSError
                         ("Could not release: " ++ Py.str_Z (Z.abs n)
                          ++ " commits " ++ s ++ " " ++ remote_uri ++ "."))
              else ret tt
          | _ => ret tt
          end.

(** A revision handle: the dictionary made by [get_current_revision]. *)
Definition revision : Type := list (string * string).

Fixpoint dict_get (k : string) (d : revision) : option string :=
  match d with
  | [] => None
  | (k', v) :: rest => if String.eqb k k' then Some v else dict_get k rest
  end.

(** [GitReleaseVCS.get_changelog] *)
Definition get_changelog (previous_revision : option revision)
  : M repo string :=
  let prev_commit :=
    match previous_revision with
    | Some d => dict_get "commit" d       (* a missing key is caught *)
    | None => None
    end in
  stdout <-
    (if is_some_nonempty prev_commit
     then
       let commit_range :=
         match prev_commit with Some c => c | None => "" end ++ "..HEAD" in
       git ["log"; commit_range]
     else git ["log"]) ;;
  ret (Py.join Py.nl stdout).

(** [GitReleaseVCS.create_release_tag] *)
Definition create_release_tag (tag_name : string) (message : option string)
  : M repo unit :=
  (* check if tag already exists *)
  tags <- git ["tag"] ;;
  if existsb (String.eqb tag_name) tags
  then ret tt
  else
    (* create tag *)
    let args := (["tag"; "-a"; tag_name]
                 ++ ["-m"; match message with
                           | Some (String c r) => String c r
                           | _ => ""
                           end])%list in
    git args ;;;
    (* push tag *)
    tb <- get_tracking_branch ;;
    p <- lift (Py.unpack2 tb) ;;
    let '(remote, remote_branch) := p in
    match remote with
    | None => ret tt
    | Some remote' =>
        remote_uri <- lift (join_uri remote remote_branch) ;;
        git ["push"; remote'; tag_name] ;;;
        ret tt
    end.

(** The loop of [get_commit_details] over the hashes. *)
Fixpoint details_loop (hashes : list string) (commit_details : list string)
  : M repo (list string) :=
  match hashes with
  | [] => ret commit_details
  | hash_ :: rest =>
      commit_detail <- git ["log"; hash_; "--name-only"; "--no-merges"; "-1";
                            "--pretty=" ++ commit_details_format cfg] ;;
      details_loop rest (commit_details ++ [Py.join Py.nl commit_detail])%list
  end.

(** [GitReleaseVCS.get_commit_details] *)
Definition get_commit_details (previous_revision : option revision)
  : M repo (list string) :=
  let previous_commit :=
    match previous_revision with
    | Some (e :: d) => dict_get "commit" (e :: d)
    | _ => None                       (* [(previous_revision or {})] *)
    end in
  match previous_commit with
  | Some (String c r) =>
      hashes <- git ["log"; "-n"; "100"; String c r ++ ".."; "--no-merges";
                     "--reverse"; "--pretty=%H"; "."] ;;
      details_loop hashes []
  | _ => ret []
  end.

End Plugin.

End Git.

(* ------------------------------------------------------------------ *)
(** ** Concrete runs *)

Module Scenario.

Import Release.

(** An environment built from the answers that vary between the
    scenarios below; everything else succeeds and returns nothing. *)
Definition environment
  (env : string -> option string)
  (package : result metadata_t)
  (dirs : string -> bool)
  (sh : string -> Z * string)
  (pysvn : result unit)
  (info2 : string -> result nat)
  (ls : string -> result (list string))
  (hgp : list string -> Z * string * string) : environ :=
  {| getenv := env;
     getcwd := "/work/proj";
     expand_path := fun p => p;
     access := fun _ => true;
     ConfigMetadata := fun _ => package;
     islink := fun _ => false;
     isdir := dirs;
     time_now := 1234;
     editor_call := fun _ => 0%Z;
     editor_text := fun msg => "Release." ++ msg;
     raw_input := Some "c";
     shell := sh;
     copytree := fun _ _ => Ok tt;
     walk_installed := fun _ => Ok tt;
     open_time_metafile := fun _ => Ok tt;
     import_pysvn := pysvn;
     svn_info := fun _ => Ok (Some "http://svn/proj/trunk");
     svn_info2 := info2;
     svn_ls := ls;
     svn_status := fun _ => Ok [];
     svn_update := fun _ => Ok tt;
     svn_copy2 := fun _ _ _ => Ok tt;
     svn_export := fun _ _ => 0%Z;
     svn_changelog := Ok "";
     hg_proc := hgp |}.

Definition no_env : string -> option string := fun _ => None.
Definition no_package : result metadata_t := Raise (IOError "no package.yaml").
Definition no_dirs : string -> bool := fun _ => false.
Definition sh_ok : string -> Z * string := fun _ => (0%Z, "/central/proj/1.0.0").
Definition no_svn : string -> result nat := fun _ => Raise (ClientError "not found").
Definition no_ls : string -> result (list string) := fun _ => Raise (ClientError "not found").
Definition no_hg : list string -> Z * string * string :=
  fun _ => (255%Z, "", "abort: no repository found").

(** A plain directory on a machine without pysvn. *)
Definition plain_dir_no_pysvn : environ :=
  environment no_env no_package no_dirs sh_ok
    (Raise (ImportError "No module named pysvn")) no_svn no_ls no_hg.

(** The registry after the module is imported: [base], then [svn], then
    [hg] were registered. *)
Definition module_registry : Registry.registry mode :=
  [("hg", HgMode); ("svn", SvnMode); ("base", BaseMode)].

(** An svn working copy of [http://svn/proj/trunk] whose tags directory
    exists and lists two tags. *)
Definition svn_with_tags : environ :=
  environment no_env no_package no_dirs sh_ok (Ok tt)
    (fun url => if String.eqb url "http://svn/proj/tags"
                   || String.eqb url "http://svn/proj/tags/1.0.0"
                then Ok 1 else Raise (ClientError "not found"))
    (fun url => if String.eqb url "http://svn/proj/tags"
                then Ok ["http://svn/proj/tags/1.0.0";
                         "http://svn/proj/tags/0.9.0"]
                else Raise (ClientError "not found"))
    no_hg.

(** A mercurial working copy at [/work/proj] with one tag besides [tip]
    and no bookmark. *)
Fixpoint args_eqb (a b : list string) : bool :=
  match a, b with
  | [], [] => true
  | x :: a', y :: b' => String.eqb x y && args_eqb a' b'
  | _, _ => false
  end.

Definition hg_answers (tag : string) (args : list string) : Z * string * string :=
  if args_eqb args ["root"] then (0%Z, "/work/proj" ++ Py.nl, "")
  else if args_eqb args ["tags"]
  then (0%Z, "tip                1:5d2f1a" ++ Py.nl
             ++ tag ++ "                0:9c3e77" ++ Py.nl, "")
  else if args_eqb args ["bookmarks"] then (0%Z, "no bookmarks set" ++ Py.nl, "")
  else if args_eqb args ["parent"; "--template{node}"]
  then (0%Z, "5d2f1a" ++ Py.nl, "")
  else (0%Z, "", "").

Definition hg_dirs (p : string) : bool := String.eqb p "/work/proj/.hg".

Definition hg_repo (tag : string) (env : string -> option string)
  (package : result metadata_t) (sh : string -> Z * string) : environ :=
  environment env package hg_dirs sh
    (Raise (ImportError "No module named pysvn")) no_svn no_ls (hg_answers tag).

End Scenario.

(* ------------------------------------------------------------------ *)
(** ** Properties of the registry *)

Module RegistryProps.

Import Registry.

Section Classes.

Variable cls_t : Type.
Variable inst_t : Type.
Variable construct : cls_t -> string -> result inst_t.

Lemma available_loop_acc (rc : registry cls_t) path modes :
  available_loop construct rc path modes
  = (modes ++ constructible construct rc path)%list.
Proof.
  revert modes.
  induction rc as [|[name cls] rc IH]; intros modes; simpl.
  - now rewrite app_nil_r.
  - unfold constructible in *. simpl.
    destruct (construct cls path) as [i|e]; simpl.
    + rewrite IH. now rewrite <- app_assoc.
    + apply IH.
Qed.

(** C5, as the code has it.  Probing returns exactly the names of the
    registered back ends whose construction on the path succeeds, in
    registry order, and a registration that is accepted puts its back end
    in front of the earlier ones.  A back end whose construction raises is
    left out whatever it raises: the "unsupported" condition and any other
    failure alike.  Probing itself never raises. *)
Theorem list_available_release_modes_constructible
  (rc : registry cls_t) (path : string) :
  list_available_release_modes construct rc path
  = Ok (constructible construct rc path)
  /\ (forall name cls rc',
         register_release_mode name cls rc = Ok rc' ->
         list_available_release_modes construct rc' path
         = Ok ((if is_ok (construct cls path) then [name] else [])
               ++ constructible construct rc path)%list)
  /\ (forall name cls e,
         In (name, cls) rc -> construct cls path = Raise e ->
         NoDup (map fst rc) ->
         ~ In name (constructible construct rc path)).
Proof.
  unfold list_available_release_modes.
  split; [|split].
  - now rewrite available_loop_acc.
  - intros name cls rc' H. unfold register_release_mode in H.
    destruct (existsb _ _); [discriminate|].
    injection H as <-. rewrite available_loop_acc. simpl.
    unfold constructible. simpl.
    now destruct (construct cls path).
  - intros name cls e Hin He Hnd Hc.
    unfold constructible in Hc.
    apply in_map_iff in Hc as [[n c] [Hn Hf]]. simpl in Hn. subst n.
    apply filter_In in Hf as [Hin' Hok]. simpl in Hok.
    assert (c = cls) as ->.
    { clear -Hin Hin' Hnd.
      induction rc as [|[n0 c0] rc IH]; simpl in *; [contradiction|].
      inversion Hnd as [|? ? Hnot Hnd']; subst.
      destruct Hin as [Heq|Hin], Hin' as [Heq'|Hin'].
      - congruence.
      - injection Heq as -> ->. exfalso. apply Hnot.
        apply in_map_iff. now exists (name, c).
      - injection Heq' as -> ->. exfalso. apply Hnot.
        apply in_map_iff. now exists (name, cls).
      - now apply IH. }
    rewrite He in Hok. discriminate.
Qed.

End Classes.

(** The registry the module builds by its three registrations. *)
Example module_registry_built :
  rbind (register_release_mode "base" Release.BaseMode [])
    (fun rc => rbind (register_release_mode "svn" Release.SvnMode rc)
                 (register_release_mode "hg" Release.HgMode))
  = Ok Scenario.module_registry.
Proof. reflexivity. Qed.

(** C5, a run of the theorem: registering [hg] on top of [svn] and [base]
    and probing a plain directory on a machine without pysvn. *)
Lemma list_available_release_modes_constructible_run :
  list_available_release_modes
    (Release.construct (VA := DottedVersion.api) Scenario.plain_dir_no_pysvn)
    Scenario.module_registry "/work/proj"
  = Ok ["base"].
Proof.
  exact (proj1 (proj2 (list_available_release_modes_constructible _ _
           (Release.construct (VA := DottedVersion.api)
              Scenario.plain_dir_no_pysvn)
           [("svn", Release.SvnMode); ("base", Release.BaseMode)]
           "/work/proj"))
         "hg" Release.HgMode Scenario.module_registry eq_refl).
Defined.

(** C5, as the claim has it, fails: on a machine without pysvn the svn
    class raises [ImportError], which is not the "unsupported" condition.
    The claim lets it reach the caller; the code returns a list. *)
Lemma probe_does_not_propagate :
  Release.construct (VA := DottedVersion.api) Scenario.plain_dir_no_pysvn
    Release.SvnMode "/work/proj"
  = Raise (ImportError "No module named pysvn")
  /\ probe_available_spec
       (Release.construct (VA := DottedVersion.api) Scenario.plain_dir_no_pysvn)
       Scenario.module_registry "/work/proj"
     = Raise (ImportError "No module named pysvn")
  /\ list_available_release_modes
       (Release.construct (VA := DottedVersion.api) Scenario.plain_dir_no_pysvn)
       Scenario.module_registry "/work/proj"
     = Ok ["base"].
Proof. repeat split; reflexivity. Qed.

End RegistryProps.

(* ------------------------------------------------------------------ *)
(** ** Properties of the svn release mode *)

Ltac unfold_monad :=
  unfold bind, ret, raise, lift, get, modify, Release.getattr, Release.attr,
    Release.assign, Release.world_get in *.

Module SvnProps.

Import Release.

Section WithVersions.

Context {VA : VersionAPI}.
Variable E : environ.

Lemma svn_get_tag_url_state v s r s' :
  svn_get_tag_url v s = (r, s') -> s' = s.
Proof.
  unfold svn_get_tag_url. unfold_monad.
  destruct (this_url (self s)); [|now intros [= _ <-]].
  destruct (_ =? _)%Z; now intros [= _ <-].
Qed.

Lemma svn_url_exists_state url s r s' :
  svn_url_exists E url s = (r, s') -> s' = s.
Proof.
  unfold svn_url_exists. unfold_monad.
  destruct (svn_info2 E url) as [n|[]]; now intros [= _ <-].
Qed.

Lemma svn_url_exists_true url s s' :
  svn_url_exists E url s = (Ok true, s') <->
  s' = s /\ exists n, svn_info2 E url = Ok n /\ 0 < n.
Proof.
  unfold svn_url_exists. unfold_monad.
  destruct (svn_info2 E url) as [n|[]];
    (split; [intros [= H <-] | intros [<- [k [[= Hk] Hpos]]]]);
    try discriminate.
  - split; [reflexivity|]. exists n. split; [reflexivity|].
    now apply Nat.ltb_lt.
  - subst k. apply Nat.ltb_lt in Hpos. now rewrite Hpos.
Qed.

(** When [get_tags] returns, it returns the empty list, and it returns
    exactly when the tags URL can be derived, exists, and has a non-empty
    listing. *)
Lemma svn_get_tags_spec s l s' :
  svn_get_tags E s = (Ok l, s') <->
  l = [] /\ s' = s
  /\ exists tag_url listing,
      svn_get_tag_url None s = (Ok tag_url, s)
      /\ svn_url_exists E tag_url s = (Ok true, s)
      /\ svn_ls E tag_url = Ok listing
      /\ listing <> [].
Proof.
  unfold svn_get_tags.
  unfold bind at 1.
  destruct (svn_get_tag_url None s) as [[tag_url|e] s1] eqn:Hurl.
  2:{ split; [discriminate|].
      intros (_ & _ & u & li & [= ] & _). }
  pose proof (svn_get_tag_url_state _ _ _ _ Hurl) as ->.
  unfold bind at 1.
  destruct (svn_url_exists E tag_url s) as [[ex|e] s1] eqn:Hex.
  2:{ split; [discriminate|].
      intros (_ & _ & u & li & [= <-] & Hu & _). congruence. }
  pose proof (svn_url_exists_state _ _ _ _ Hex) as ->.
  destruct ex; simpl.
  2:{ split; [discriminate|].
      intros (_ & _ & u & li & [= <-] & Hu & _). congruence. }
  unfold_monad.
  destruct (svn_ls E tag_url) as [listing|e] eqn:Hls.
  2:{ split; [discriminate|].
      intros (_ & _ & u & li & [= <-] & _ & Hli & _). congruence. }
  destruct listing as [|x listing]; simpl.
  - split; [discriminate|].
    intros (_ & _ & u & li & [= <-] & _ & Hli & Hne). congruence.
  - split.
    + intros [= <- <-]. repeat split.
      exists tag_url, (x :: listing). repeat split; congruence.
    + intros (-> & -> & _). reflexivity.
Qed.

(** C10.  Whenever the svn [get_tags] returns normally it returns the
    empty list, and it returns normally exactly when the tags URL derived
    from the working-copy URL exists and has a non-empty listing: the
    listing is dropped before the loop over it.  So the svn
    [get_last_tagged_version], when it returns, returns [None]: never a
    version taken from a tag of the repository. *)
Theorem svn_get_tags_discards_listing (s : st) :
  (forall l s', svn_get_tags E s = (Ok l, s') -> l = [] /\ s' = s)
  /\ (forall tag_url listing,
         svn_get_tag_url None s = (Ok tag_url, s) ->
         svn_url_exists E tag_url s = (Ok true, s) ->
         svn_ls E tag_url = Ok listing -> listing <> [] ->
         svn_get_tags E s = (Ok [], s))
  /\ (forall l s', svn_get_tags E s = (Ok l, s') ->
         exists tag_url listing,
           svn_get_tag_url None s = (Ok tag_url, s)
           /\ svn_url_exists E tag_url s = (Ok true, s)
           /\ svn_ls E tag_url = Ok listing /\ listing <> [])
  /\ (forall v s',
         get_last_tagged_version E SvnMode s = (Ok v, s') -> v = None).
Proof.
  repeat split.
  - now apply svn_get_tags_spec in H.
  - now apply svn_get_tags_spec in H.
  - intros tag_url listing H1 H2 H3 H4.
    apply svn_get_tags_spec. repeat split.
    exists tag_url, listing. auto.
  - intros l s' H. apply svn_get_tags_spec in H. tauto.
  - intros v s'. simpl. unfold svn_get_last_tagged_version.
    unfold bind at 1. unfold getattr.
    destruct (this_url (self s)) as [url|]; [|discriminate].
    unfold bind at 1.
    match goal with
    | |- context [if ?c then ?a else ?b] =>
        destruct (if c then a else b) as [[latest|e] s1] eqn:Hl
    end; [|discriminate].
    assert (s1 = s) as ->.
    { destruct (Py.contains _ _); unfold lift in Hl; congruence. }
    simpl get_tags. unfold bind at 1.
    destruct (svn_get_tags E s) as [[l|e] s1] eqn:Ht; [|discriminate].
    apply svn_get_tags_spec in Ht as (-> & -> & _).
    simpl. unfold_monad. simpl. congruence.
Qed.

(** C9.  The svn [validate_version] raises [AttributeError] on its first
    line, whatever the state of the repository: it reads [self.version],
    which nothing assigns.  It derives no tag URL and never looks whether
    one exists. *)
Theorem svn_validate_version_attribute_error (m : mode) (s : st) :
  svn_validate_version E m s = (Raise (AttributeError "version"), s)
  /\ validate_version E SvnMode s = (Raise (AttributeError "version"), s).
Proof. split; reflexivity. Qed.

End WithVersions.

(** C10 at a working copy of [http://svn/proj/trunk] whose tags directory
    lists [1.0.0] and [0.9.0]. *)
Definition svn_self : self_t (VA := DottedVersion.api) :=
  match svn_init Scenario.svn_with_tags "/work/proj" with
  | Ok o => o
  | Raise _ => base_init Scenario.svn_with_tags "/work/proj"
  end.

Definition svn_state : st (VA := DottedVersion.api) :=
  start svn_self NoDir (fun _ => false).

Lemma svn_get_tags_discards_listing_run :
  svn_ls Scenario.svn_with_tags "http://svn/proj/tags"
  = Ok ["http://svn/proj/tags/1.0.0"; "http://svn/proj/tags/0.9.0"]
  /\ svn_get_tags Scenario.svn_with_tags svn_state = (Ok [], svn_state)
  /\ fst (get_last_tagged_version Scenario.svn_with_tags SvnMode svn_state)
     = Ok None.
Proof.
  split; [reflexivity|]. split.
  - apply (proj1 (proj2 (svn_get_tags_discards_listing
                           Scenario.svn_with_tags svn_state))
             "http://svn/proj/tags"
             ["http://svn/proj/tags/1.0.0"; "http://svn/proj/tags/0.9.0"]);
      [reflexivity | reflexivity | reflexivity | discriminate].
  - reflexivity.
Defined.

End SvnProps.

(* ------------------------------------------------------------------ *)
(** ** Properties of tag discovery and version validation *)

Module VersionProps.

Import Release.

Section WithVersions.

Context {VA : VersionAPI}.
Variable E : environ.

(** The versions the tags of a list parse to. *)
Definition parsed (tags : list string) (v : Version) : Prop :=
  exists tag, In tag tags /\ Version_new tag = Ok v.

(** The loop of [get_last_tagged_version] by induction on the tags: the
    result is the start value or a parsed tag above it, it is above every
    parsed tag, and the flag is raised exactly when a parsed tag is above
    the start value. *)
Lemma latest_loop_spec {VO : VersionOrder VA} tags :
  forall v0 f0 v f,
    latest_loop tags v0 f0 = Ok (v, f) ->
    (v = v0 \/ (parsed tags v /\ Version_gt v v0 = true))
    /\ (forall v', parsed tags v' -> Version_gt v' v = false)
    /\ (f = true <-> f0 = true \/ (parsed tags v /\ Version_gt v v0 = true))
    /\ (f0 = false -> f = false -> v = v0)
    /\ (f0 = false -> f = false ->
        forall v', parsed tags v' -> Version_gt v' v0 = false).
Proof.
  assert (Hasym : forall a b, Version_gt a b = true -> Version_gt b a = false).
  { intros a b Hab. destruct (Version_gt b a) eqn:Hba; [|reflexivity].
    pose proof (Version_gt_trans _ _ _ Hab Hba) as Haa.
    now rewrite Version_gt_irrefl in Haa. }
  induction tags as [|tag rest IH]; intros v0 f0 v f; simpl.
  - intros [= <- <-]. repeat split.
    + now left.
    + intros v' (t & [] & _).
    + intros ->. now left.
    + intros [H | ((t & [] & _) & _)]. exact H.
    + intros _ _ v' (t & [] & _).
  - assert (Hextend : forall v', parsed rest v' -> parsed (tag :: rest) v').
    { intros v' (t & Hin & Ht). exists t. split; [now right|exact Ht]. }
    destruct (Version_new tag) as [ver|e] eqn:Hparse.
    + destruct (Version_gt ver v0) eqn:Hgt.
      * intros H. apply IH in H as (Hv & Hub & Hf & _ & _).
        assert (Hver : parsed (tag :: rest) ver).
        { exists tag. split; [now left|exact Hparse]. }
        assert (Hvv0 : parsed (tag :: rest) v /\ Version_gt v v0 = true).
        { destruct Hv as [-> | [Hp Hg]]; [now split|].
          split; [now apply Hextend|].
          eapply Version_gt_trans; eassumption. }
        repeat split.
        -- now right.
        -- intros v' (t & [<- | Hin] & Ht).
           ++ rewrite Hparse in Ht. injection Ht as <-.
              destruct Hv as [-> | [_ Hg]];
                [apply Version_gt_irrefl | now apply Hasym].
           ++ apply Hub. now exists t.
        -- intros _. now right.
        -- intros _. apply Hf. now left.
        -- intros _ ->. destruct Hf as [_ Hf].
           discriminate Hf. now left.
        -- intros _ ->. destruct Hf as [_ Hf].
           discriminate Hf. now left.
      * intros H. apply IH in H as (Hv & Hub & Hf & Hnf & Hall).
        repeat split.
        -- destruct Hv as [-> | [Hp Hg]]; [now left|right].
           split; [now apply Hextend|exact Hg].
        -- intros v' (t & [<- | Hin] & Ht).
           ++ rewrite Hparse in Ht. injection Ht as <-.
              destruct Hv as [-> | [_ Hg]]; [exact Hgt|].
              destruct (Version_gt ver v) eqn:Hvv; [|reflexivity].
              pose proof (Version_gt_trans _ _ _ Hvv Hg). congruence.
           ++ apply Hub. now exists t.
        -- intros Hft. apply Hf in Hft as [H | [Hp Hg]]; [now left|right].
           split; [now apply Hextend|exact Hg].
        -- intros [H | [(t & [<- | Hin] & Ht) Hg]]; apply Hf.
           ++ now left.
           ++ rewrite Hparse in Ht. injection Ht as <-. congruence.
           ++ right. split; [now exists t|exact Hg].
        -- exact Hnf.
        -- intros H0 Hff v' (t & [<- | Hin] & Ht).
           ++ rewrite Hparse in Ht. now injection Ht as <-.
           ++ apply (Hall H0 Hff). now exists t.
    + destruct (is_Exception e); [|discriminate].
      intros H. apply IH in H as (Hv & Hub & Hf & Hnf & Hall).
      assert (Hshrink : forall v', parsed (tag :: rest) v' -> parsed rest v').
      { intros v' (t & [<- | Hin] & Ht); [congruence|now exists t]. }
      repeat split.
      * destruct Hv as [-> | [Hp Hg]]; [now left|right].
        split; [now apply Hextend|exact Hg].
      * intros v' Hp. apply Hub. now apply Hshrink.
      * intros Hft. apply Hf in Hft as [H | [Hp Hg]]; [now left|right].
        split; [now apply Hextend|exact Hg].
      * intros [H | [Hp Hg]]; apply Hf; [now left|right].
        split; [now apply Hshrink|exact Hg].
      * exact Hnf.
      * intros H0 Hff v' Hp. apply (Hall H0 Hff). now apply Hshrink.
Qed.

(** The loop returns whenever parsing fails only with exceptions that
    [except Exception] catches. *)
Lemma latest_loop_total tags :
  (forall tag e, In tag tags -> Version_new tag = Raise e -> is_Exception e = true) ->
  forall v0 f0, exists v f, latest_loop tags v0 f0 = Ok (v, f).
Proof.
  induction tags as [|tag rest IH]; intros Hexc v0 f0; simpl.
  - now exists v0, f0.
  - assert (Hrest : forall t e, In t rest -> Version_new t = Raise e ->
                                is_Exception e = true).
    { intros t e Hin. apply Hexc. now right. }
    destruct (Version_new tag) as [ver|e] eqn:Hparse.
    + destruct (Version_gt ver v0); now apply IH.
    + rewrite (Hexc tag e (or_introl eq_refl) Hparse). now apply IH.
Qed.

(** What [get_last_tagged_version] of the base class returns: the
    greatest parsed tag when some parsed tag is above [Version("0")], and
    [None] when none is - also when tags parse, but to nothing above
    [Version("0")]. *)
Lemma base_get_last_tagged_version_spec {VO : VersionOrder VA}
  (m : mode) (s s1 : st) (zero : Version) (tags : list string) :
  Version_new "0" = Ok zero ->
  get_tags E m s = (Ok tags, s1) ->
  (forall tag e, In tag tags -> Version_new tag = Raise e -> is_Exception e = true) ->
  exists r, base_get_last_tagged_version E m s = (Ok r, s1)
    /\ (r = None <-> forall v, parsed tags v -> Version_gt v zero = false)
    /\ (forall v, r = Some v ->
          parsed tags v /\ forall v', parsed tags v' -> Version_gt v' v = false).
Proof.
  intros Hzero Htags Hexc.
  unfold base_get_last_tagged_version. unfold_monad.
  rewrite Hzero, Htags.
  destruct (latest_loop_total tags Hexc zero false) as (v & f & Hloop).
  rewrite Hloop.
  apply latest_loop_spec in Hloop as (Hv & Hub & Hf & Hnf & Hall).
  destruct f; simpl.
  - exists (Some v). split; [reflexivity|]. split.
    + split; [discriminate|]. intros Hno.
      destruct Hf as [Hf _]. destruct (Hf eq_refl) as [H | [Hp Hg]];
        [discriminate|]. rewrite (Hno v Hp) in Hg. discriminate.
    + intros v' [= <-]. split; [|exact Hub].
      destruct Hf as [Hf _]. destruct (Hf eq_refl) as [H | [Hp Hg]];
        [discriminate|exact Hp].
  - exists None. split; [reflexivity|]. split.
    + split; [|reflexivity]. intros _. now apply Hall.
    + discriminate.
Qed.

(** The cached property returns what [get_last_tagged_version] returns
    the first time, and the cached value from then on. *)
Lemma last_tagged_version_cached (m : mode) (s : st) v :
  _last_tagged_version (self s) = Some v ->
  last_tagged_version E m s = (Ok v, s).
Proof.
  intros H. unfold last_tagged_version. unfold_monad. now rewrite H.
Qed.

(** C2.  [validate_version] of the base class, once the version and the
    metadata are loaded and the last tagged version has a non-empty string
    form: it raises a release error if and only if [allow_not_latest] is
    false, there is a last tagged version, its string form does not begin
    with "v", and the version released is [<=] it; otherwise it returns
    without raising. *)
Theorem base_validate_version_raises_iff
  (m : mode) (s s1 : st) (ltv : option Version) (this : Version)
  (md : metadata_t) :
  last_tagged_version E m s = (Ok ltv, s1) ->
  this_version (self s1) = Some this ->
  metadata (self s1) = Some md ->
  (forall last, ltv = Some last -> Version_str last <> "") ->
  let r := fst (base_validate_version E m s) in
  ((exists msg, r = Raise (RezReleaseError msg)) <->
   (allow_not_latest (self s) = false
    /\ exists last, ltv = Some last
         /\ Py.startswith (Version_str last) "v" = false
         /\ Version_le this last = true))
  /\ (r = Ok tt \/ exists msg, r = Raise (RezReleaseError msg)).
Proof.
  intros Hltv Hthis Hmd Hstr r. subst r.
  unfold base_validate_version. unfold_monad.
  destruct (allow_not_latest (self s)) eqn:Hanl; simpl.
  { split; [|now left]. split; [intros [msg [=]] | intros [[=] _]]. }
  unfold last_tagged_version in *. unfold_monad.
  rewrite Hltv.
  destruct ltv as [last|]; simpl.
  2:{ split; [|now left].
      split; [intros [msg [=]] | intros [_ (l & [=] & _)]]. }
  specialize (Hstr last eq_refl).
  destruct (Version_str last) as [|c rest] eqn:Hs; [congruence|].
  simpl. unfold Py.startswith. simpl.
  destruct (Ascii.eqb c "v") eqn:Hc; simpl.
  { apply Ascii.eqb_eq in Hc. subst c.
    split; [|now left].
    split; [intros [msg [=]] | intros [_ (l & [= <-] & Hp & _)]].
    rewrite Hs in Hp. simpl in Hp. destruct rest; discriminate. }
  rewrite Hthis.
  destruct (Version_le this last) eqn:Hle; simpl.
  - rewrite Hmd. simpl. split; [|right; eauto].
    split; [intros _ | eauto].
    split; [reflexivity|]. exists last. repeat split; [|exact Hle].
    rewrite Hs. simpl.
    destruct c as [[] [] [] [] [] [] [] []]; try reflexivity; try discriminate;
      destruct rest; reflexivity.
  - split; [|now left].
    split; [intros [msg [=]] | intros [_ (l & [= <-] & _ & Hl)]]; congruence.
Qed.

End WithVersions.

End VersionProps.

(** *** Runs on a mercurial working copy *)

Module VersionRuns.

Import Release.

Definition package (version : string) : metadata_t :=
  {| md_version := version; md_name := "proj"; md_uuid := "7b0c-41aa";
     md_description := "A project."; md_authors := ["ann"];
     md_variants := [] |}.

(** The release object of a mercurial working copy whose only tag besides
    [tip] is [tag], once [get_metadata] has loaded version [version]. *)
Definition hg_env (tag version : string) : environ :=
  Scenario.hg_repo tag Scenario.no_env (Ok (package version)) Scenario.sh_ok.

Definition hg_loaded (tag version : string) : st (VA := DottedVersion.api) :=
  let E := hg_env tag version in
  let o := match hg_init E "/work/proj" with
           | Ok o => o
           | Raise _ => base_init E "/work/proj"
           end in
  let s := start (set_release_args None 1 "0" false o) NoDir (fun _ => false) in
  match get_metadata E HgMode s with
  | (Ok md, s') => with_self (set_metadata (Some md)) s'
  | (Raise _, s') => s'
  end.

(** C2 at version 1.0.0 released over the tag 1.0.0: the release is
    refused. *)
Lemma base_validate_version_raises_iff_run :
  exists msg,
    fst (base_validate_version (hg_env "1.0.0" "1.0.0") HgMode
           (hg_loaded "1.0.0" "1.0.0"))
    = Raise (RezReleaseError msg).
Proof.
  pose (E := hg_env "1.0.0" "1.0.0").
  pose (s := hg_loaded "1.0.0" "1.0.0").
  pose (v := DottedVersion.mk false [1; 0; 0]).
  destruct (VersionProps.base_validate_version_raises_iff E HgMode s
              (snd (last_tagged_version E HgMode s)) (Some v) v
              (package "1.0.0")) as [[_ H] _].
  - reflexivity.
  - reflexivity.
  - reflexivity.
  - intros last [= <-]. discriminate.
  - apply H. split; [reflexivity|].
    exists v. repeat split; reflexivity.
Defined.

(** The same run, evaluated: the message of the error. *)
Example validate_version_refuses_equal :
  fst (validate_version (hg_env "1.0.0" "1.0.0") HgMode
         (hg_loaded "1.0.0" "1.0.0"))
  = Raise (RezReleaseError
             ("cannot release: current version '1.0.0' is not greater than "
              ++ "the latest tag '1.0.0'. Version up or pass --allow-not-latest.")).
Proof. reflexivity. Qed.

Example validate_version_accepts_greater :
  fst (validate_version (hg_env "1.0.0" "1.0.1") HgMode
         (hg_loaded "1.0.0" "1.0.1"))
  = Ok tt.
Proof. reflexivity. Qed.

Example validate_version_accepts_legacy :
  fst (validate_version (hg_env "v1_0_0" "1.0.0") HgMode
         (hg_loaded "v1_0_0" "1.0.0"))
  = Ok tt.
Proof. reflexivity. Qed.

(** C4 at a working copy whose only release tag is [0].  The tag parses,
    [tip] and the word taken from "no bookmarks set" do not; the greatest
    parsed tag is version 0, yet [get_last_tagged_version] returns [None],
    because the tag is not above the [Version("0")] the search starts
    from.  Version 0 can then be released again: [validate_version]
    passes. *)
Theorem get_last_tagged_version_misses_zero :
  fst (get_tags (hg_env "0" "0") HgMode (hg_loaded "0" "0"))
  = Ok ["tip"; "0"; "bookmarks"]
  /\ Version_new (VersionAPI := DottedVersion.api) "0"
     = Ok (DottedVersion.mk false [0])
  /\ is_ok (Version_new (VersionAPI := DottedVersion.api) "tip") = false
  /\ is_ok (Version_new (VersionAPI := DottedVersion.api) "bookmarks") = false
  /\ fst (get_last_tagged_version (hg_env "0" "0") HgMode (hg_loaded "0" "0"))
     = Ok None
  /\ fst (validate_version (hg_env "0" "0") HgMode (hg_loaded "0" "0"))
     = Ok tt.
Proof. repeat split; reflexivity. Qed.

(** With a tag above version 0 the greatest parsed tag is returned. *)
Example get_last_tagged_version_finds_one :
  fst (get_last_tagged_version (hg_env "1.0.0" "1.0.1") HgMode
         (hg_loaded "1.0.0" "1.0.1"))
  = Ok (Some (DottedVersion.mk false [1; 0; 0])).
Proof. reflexivity. Qed.

End VersionRuns.

(* ------------------------------------------------------------------ *)
(** ** Properties of the release pipeline *)

Module PipelineProps.

Import Release.
Local Open Scope list_scope.

Section WithVersions.

Context {VA : VersionAPI}.
Variable E : environ.

Definition T (s : st) : list event := trace (wld s).

Lemma bind_inv {A B} (m : M st A) (f : A -> M st B) s r s' :
  bind m f s = (r, s') ->
  (exists e, m s = (Raise e, s') /\ r = Raise e)
  \/ (exists a s1, m s = (Ok a, s1) /\ f a s1 = (r, s')).
Proof.
  unfold bind. destruct (m s) as [[a|e] s1].
  - intros H. right. now exists a, s1.
  - intros [= <- <-]. left. now exists e.
Qed.

(** *** Actions that keep a relation between the states before and after *)

Section Preserved.

Variable R : st -> st -> Prop.
Hypothesis R_refl : forall s, R s s.
Hypothesis R_trans : forall a b c, R a b -> R b c -> R a c.

Definition preserves {A} (m : M st A) : Prop :=
  forall s r s', m s = (r, s') -> R s s'.

Lemma pres_ret {A} (a : A) : preserves (ret a).
Proof. intros s r s' [= _ <-]. apply R_refl. Qed.

Lemma pres_raise {A} e : preserves (@raise st A e).
Proof. intros s r s' [= _ <-]. apply R_refl. Qed.

Lemma pres_lift {A} (x : result A) : preserves (lift x).
Proof. intros s r s' [= _ <-]. apply R_refl. Qed.

Lemma pres_getattr {A} name (f : self_t -> option A) : preserves (getattr name f).
Proof.
  intros s r s'. unfold getattr.
  destruct (f (self s)); intros [= _ <-]; apply R_refl.
Qed.

Lemma pres_attr {A} (f : self_t -> A) : preserves (attr f).
Proof. intros s r s' [= _ <-]. apply R_refl. Qed.

Lemma pres_world_get {A} (f : world -> A) : preserves (world_get f).
Proof. intros s r s' [= _ <-]. apply R_refl. Qed.

Lemma pres_bind {A B} (m : M st A) (f : A -> M st B) :
  preserves m -> (forall a, preserves (f a)) -> preserves (bind m f).
Proof.
  intros Hm Hf s r s' H.
  apply bind_inv in H as [(e & H & _) | (a & s1 & H1 & H2)].
  - eapply Hm; eassumption.
  - eapply R_trans; [eapply Hm | eapply Hf]; eassumption.
Qed.

Lemma pres_try_finally {A} (body : M st A) (fin : M st unit) :
  preserves body -> preserves fin -> preserves (try_finally body fin).
Proof.
  intros Hb Hf s r s'. unfold try_finally.
  destruct (body s) as [rb s1] eqn:H1.
  destruct (fin s1) as [[u|e] s2] eqn:H2; intros [= _ <-];
    (eapply R_trans; [eapply Hb | eapply Hf]; eassumption).
Qed.

Lemma pres_for_enumerate (body : variant_t -> nat -> M st unit) :
  (forall v i, preserves (body v i)) ->
  forall vs k, preserves (for_enumerate body k vs).
Proof.
  intros Hb vs. induction vs as [|v vs IH]; intros k; simpl.
  - apply pres_ret.
  - apply pres_bind; [apply Hb | intros _; apply IH].
Qed.

End Preserved.

(** *** The relations *)

(** The world is untouched. *)
Definition R_world (s s' : st) : Prop := wld s' = wld s.

(** The central family directory is untouched. *)
Definition R_central (s s' : st) : Prop :=
  central (wld s') = central (wld s).

(** The attributes [pre_build] computes for the later phases are kept. *)
Definition R_attrs (s s' : st) : Prop :=
  metadata (self s') = metadata (self s)
  /\ pkg_release_dir (self s') = pkg_release_dir (self s)
  /\ package_uuid_file (self s') = package_uuid_file (self s)
  /\ package_uuid_exists (self s') = package_uuid_exists (self s)
  /\ variants (self s') = variants (self s).

(** What a hook may do: assign other attributes of [self]. *)
Definition R_frame (s s' : st) : Prop := R_world s s' /\ R_attrs s s'.

(** The trace grows by events that all satisfy [P]. *)
Definition R_trace (P : event -> Prop) (s s' : st) : Prop :=
  exists evs, T s' = T s ++ evs /\ Forall P evs.

Lemma R_world_refl s : R_world s s.
Proof. reflexivity. Qed.
Lemma R_world_trans a b c : R_world a b -> R_world b c -> R_world a c.
Proof. unfold R_world. congruence. Qed.
Lemma R_central_refl s : R_central s s.
Proof. reflexivity. Qed.
Lemma R_central_trans a b c : R_central a b -> R_central b c -> R_central a c.
Proof. unfold R_central. congruence. Qed.
Lemma R_attrs_refl s : R_attrs s s.
Proof. repeat split. Qed.
Lemma R_attrs_trans a b c : R_attrs a b -> R_attrs b c -> R_attrs a c.
Proof.
  unfold R_attrs. intros (?&?&?&?&?) (?&?&?&?&?).
  repeat split; congruence.
Qed.
Lemma R_frame_refl s : R_frame s s.
Proof. split; [apply R_world_refl | apply R_attrs_refl]. Qed.
Lemma R_frame_trans a b c : R_frame a b -> R_frame b c -> R_frame a c.
Proof.
  intros [? ?] [? ?].
  split; [eapply R_world_trans | eapply R_attrs_trans]; eassumption.
Qed.
Lemma R_trace_refl P s : R_trace P s s.
Proof. exists []. split; [now rewrite app_nil_r | constructor]. Qed.
Lemma R_trace_trans P a b c : R_trace P a b -> R_trace P b c -> R_trace P a c.
Proof.
  intros (e1 & H1 & F1) (e2 & H2 & F2). exists (e1 ++ e2)%list. split.
  - rewrite H2, H1. now rewrite app_assoc.
  - apply Forall_app. now split.
Qed.

Lemma R_world_central s s' : R_world s s' -> R_central s s'.
Proof. unfold R_world, R_central. now intros ->. Qed.
Lemma R_world_trace P s s' : R_world s s' -> R_trace P s s'.
Proof.
  unfold R_world, R_trace, T. intros ->. exists [].
  split; [now rewrite app_nil_r | constructor].
Qed.

Lemma frame_world {A} (m : M st A) :
  preserves R_frame m -> preserves R_world m.
Proof. intros H s r s' Hm. now apply (H s r s' Hm). Qed.
Lemma frame_attrs {A} (m : M st A) :
  preserves R_frame m -> preserves R_attrs m.
Proof. intros H s r s' Hm. now apply (H s r s' Hm). Qed.
Lemma frame_central {A} (m : M st A) :
  preserves R_frame m -> preserves R_central m.
Proof. intros H s r s' Hm. apply R_world_central. now apply (H s r s' Hm). Qed.
Lemma frame_trace P {A} (m : M st A) :
  preserves R_frame m -> preserves (R_trace P) m.
Proof. intros H s r s' Hm. apply R_world_trace. now apply (H s r s' Hm). Qed.

(** *** The primitive actions *)

Lemma emit_trace (P : event -> Prop) e : P e -> preserves (R_trace P) (emit e).
Proof.
  intros He s r s' [= _ <-]. exists [e]. split; [reflexivity|].
  now constructor.
Qed.
Lemma emit_central e : preserves R_central (emit e).
Proof. now intros s r s' [= _ <-]. Qed.
Lemma emit_attrs e : preserves R_attrs (emit e).
Proof. intros s r s' [= _ <-]. now repeat split. Qed.

Lemma set_local_trace P f : preserves (R_trace P) (set_local f).
Proof.
  intros s r s' [= _ <-]. exists []. unfold T. simpl.
  split; [now rewrite app_nil_r | constructor].
Qed.
Lemma set_local_central f : preserves R_central (set_local f).
Proof. now intros s r s' [= _ <-]. Qed.
Lemma set_local_attrs f : preserves R_attrs (set_local f).
Proof. intros s r s' [= _ <-]. now repeat split. Qed.

Lemma set_central_trace P d : preserves (R_trace P) (set_central d).
Proof.
  intros s r s' [= _ <-]. exists []. unfold T. simpl.
  split; [now rewrite app_nil_r | constructor].
Qed.
Lemma set_central_attrs d : preserves R_attrs (set_central d).
Proof. intros s r s' [= _ <-]. now repeat split. Qed.

Lemma assign_world f : preserves R_world (assign f).
Proof. now intros s r s' [= _ <-]. Qed.
Lemma assign_central f : preserves R_central (assign f).
Proof. now intros s r s' [= _ <-]. Qed.
Lemma assign_trace P f : preserves (R_trace P) (assign f).
Proof.
  intros s r s' [= _ <-]. exists []. unfold T. simpl.
  split; [now rewrite app_nil_r | constructor].
Qed.

(** Assignments to the attributes outside [R_attrs]. *)
Definition keeps_attrs (f : self_t -> self_t) : Prop :=
  forall o,
    metadata (f o) = metadata o
    /\ pkg_release_dir (f o) = pkg_release_dir o
    /\ package_uuid_file (f o) = package_uuid_file o
    /\ package_uuid_exists (f o) = package_uuid_exists o
    /\ variants (f o) = variants o.

Lemma assign_attrs f : keeps_attrs f -> preserves R_attrs (assign f).
Proof. intros Hf s r s' [= _ <-]. apply Hf. Qed.
Lemma assign_frame f : keeps_attrs f -> preserves R_frame (assign f).
Proof.
  intros Hf s r s' H. split.
  - eapply assign_world; eassumption.
  - eapply assign_attrs; eassumption.
Qed.

Lemma keeps_this_version v : keeps_attrs (set_this_version v).
Proof. now intros o. Qed.
Lemma keeps_last_tagged_version v : keeps_attrs (set_last_tagged_version v).
Proof. now intros o. Qed.
Lemma keeps_tag_url v : keeps_attrs (set_tag_url v).
Proof. now intros o. Qed.
Lemma keeps_commit_message v : keeps_attrs (set_commit_message v).
Proof. now intros o. Qed.
Lemma keeps_build_time v : keeps_attrs (set_build_time v).
Proof. now intros o. Qed.
Lemma keeps_editor v : keeps_attrs (set_editor v).
Proof. now intros o. Qed.
Lemma keeps_base_dir v : keeps_attrs (set_base_dir v).
Proof. now intros o. Qed.

Create HintDb pres.

#[local] Hint Resolve R_world_refl R_world_trans R_central_refl R_central_trans
  R_attrs_refl R_attrs_trans R_frame_refl R_frame_trans R_trace_refl
  R_trace_trans : pres.
#[local] Hint Resolve emit_central emit_attrs set_local_trace set_local_central
  set_local_attrs set_central_trace set_central_attrs assign_world
  assign_central assign_trace assign_attrs assign_frame
  keeps_this_version keeps_last_tagged_version keeps_tag_url
  keeps_commit_message keeps_build_time keeps_editor keeps_base_dir : pres.

(** *** What each phase adds to the trace *)

Definition pre_ev (e : event) : Prop :=
  match e with
  | EvCall m => m = "validate_repostate" \/ m = "validate_version"
  | EvMakedirs _ | EvRemove _ | EvRmtree _ | EvWriteChangelog _ _
  | EvWriteCommitFile _ _ | EvEditor _ _ => True
  | _ => False
  end.

Definition build_ev (e : event) : Prop :=
  match e with
  | EvRmtree _ | EvCopySource _ | EvBuild _ _ _ => True
  | _ => False
  end.

Definition variant_install_ev (e : event) : Prop :=
  match e with
  | EvInstallPath _ _ _ | EvInstall _ _ _ | EvCheckInstalled _ => True
  | _ => False
  end.

Definition install_ev (e : event) : Prop :=
  match e with
  | EvMakeFamilyDir _ | EvWriteUuid _ _ => True
  | _ => variant_install_ev e
  end.

Definition mail_ev (e : event) : Prop :=
  match e with
  | EvSendEmail _ _ _ => True
  | _ => False
  end.

Definition post_ev (e : event) : Prop :=
  match e with
  | EvWriteTimeMetafile _ _ | EvSendEmail _ _ _ => True
  | EvCall m => m = "create_release_tag"
  | _ => False
  end.

(** An external command that was run returned 0. *)
Definition succeeded (e : event) : Prop :=
  match e with
  | EvBuild _ _ rc | EvInstallPath _ _ rc | EvInstall _ _ rc => rc = 0%Z
  | _ => True
  end.

Definition built_ok (e : event) : Prop := build_ev e /\ succeeded e.
Definition installed_ok (e : event) : Prop := variant_install_ev e /\ succeeded e.

(** One step of a proof that an action preserves a relation: the
    structure of the action is followed, its branches are split. *)
Ltac pres_step :=
  match goal with
  | |- preserves _ (bind _ _) =>
      apply pres_bind; [eauto with pres .. | | intros ?]
  | |- preserves _ (ret _) => apply pres_ret; eauto with pres
  | |- preserves _ (raise _) => apply pres_raise; eauto with pres
  | |- preserves _ (lift _) => apply pres_lift; eauto with pres
  | |- preserves _ (hg _ _) => apply pres_lift; eauto with pres
  | |- preserves _ (getattr _ _) => apply pres_getattr; eauto with pres
  | |- preserves _ (attr _) => apply pres_attr; eauto with pres
  | |- preserves _ (world_get _) => apply pres_world_get; eauto with pres
  | |- preserves _ (try_finally _ _) =>
      apply pres_try_finally; [eauto with pres .. | | ]
  | |- preserves _ (for_enumerate _ _ _) =>
      apply pres_for_enumerate; [eauto with pres .. | intros ? ?]
  | |- preserves _ (if ?c then _ else _) => destruct c
  | |- preserves _ (match ?x with _ => _ end) => destruct x
  | |- preserves _ (let '(_, _) := ?x in _) => destruct x
  | |- preserves _ (let _ := _ in _) => cbv zeta
  | |- preserves (R_trace _) (emit _) =>
      apply emit_trace; unfold built_ok, installed_ok; simpl;
      solve [auto | intuition discriminate]
  | |- preserves _ _ => solve [eauto with pres]
  end.

Ltac pres_tac := repeat pres_step.

(** *** The hooks keep the world and the phase attributes *)

Lemma frame_svn_url_exists url : preserves R_frame (svn_url_exists E url).
Proof. unfold svn_url_exists. pres_tac. Qed.

Lemma frame_svn_get_tag_url v : preserves R_frame (svn_get_tag_url v).
Proof. unfold svn_get_tag_url. pres_tac. Qed.

#[local] Hint Resolve frame_svn_url_exists frame_svn_get_tag_url : pres.

Lemma frame_get_tags m : preserves R_frame (get_tags E m).
Proof.
  destruct m; simpl; [pres_tac | unfold svn_get_tags | unfold hg_get_tags];
    pres_tac.
Qed.

#[local] Hint Resolve frame_get_tags : pres.

Lemma frame_get_last_tagged_version m :
  preserves R_frame (get_last_tagged_version E m).
Proof.
  destruct m; simpl;
    unfold base_get_last_tagged_version, svn_get_last_tagged_version;
    pres_tac.
Qed.

#[local] Hint Resolve frame_get_last_tagged_version : pres.

Lemma frame_last_tagged_version m :
  preserves R_frame (last_tagged_version E m).
Proof. unfold last_tagged_version. pres_tac. Qed.

#[local] Hint Resolve frame_last_tagged_version : pres.

Lemma frame_validate_version m : preserves R_frame (validate_version E m).
Proof.
  destruct m; simpl; unfold svn_validate_version, base_validate_version;
    pres_tac.
Qed.

Lemma frame_get_metadata m : preserves R_frame (get_metadata E m).
Proof.
  destruct m; simpl; unfold svn_get_metadata, base_get_metadata; pres_tac.
Qed.

Lemma frame_hg_check l p : preserves R_frame (hg_check l p).
Proof. unfold hg_check. pres_tac. Qed.

#[local] Hint Resolve frame_hg_check : pres.

Lemma frame_validate_repostate m : preserves R_frame (validate_repostate E m).
Proof.
  destruct m; simpl; unfold svn_validate_repostate, hg_validate_repostate;
    pres_tac.
Qed.

Lemma frame_has_patch_queue : preserves R_frame has_patch_queue.
Proof. unfold has_patch_queue. pres_tac. Qed.

#[local] Hint Resolve frame_has_patch_queue : pres.

Lemma frame_get_tag_meta_str m : preserves R_frame (get_tag_meta_str E m).
Proof. destruct m; simpl; unfold hg_get_tag_meta_str; pres_tac. Qed.

Lemma frame_copy_source m d : preserves R_frame (copy_source E m d).
Proof. destruct m; simpl; pres_tac. Qed.

Lemma frame_get_changelog m : preserves R_frame (get_changelog E m).
Proof. destruct m; simpl; unfold hg_get_changelog; pres_tac. Qed.

Lemma frame_message_text : preserves R_frame message_text.
Proof. unfold message_text. pres_tac. Qed.

#[local] Hint Resolve frame_message_text : pres.

Lemma frame_create_release_tag m : preserves R_frame (create_release_tag E m).
Proof.
  destruct m; simpl; unfold svn_create_release_tag, hg_create_release_tag;
    pres_tac.
Qed.

#[local] Hint Resolve frame_validate_version frame_get_metadata
  frame_validate_repostate frame_get_tag_meta_str frame_copy_source
  frame_get_changelog frame_create_release_tag : pres.
#[local] Hint Resolve frame_world frame_attrs frame_central frame_trace : pres.

Lemma frame_check_uuid f : preserves R_frame (check_uuid f).
Proof. unfold check_uuid. pres_tac. Qed.

Lemma frame_cmd_options m : preserves R_frame (cmd_options E m).
Proof. unfold cmd_options. pres_tac. Qed.

#[local] Hint Resolve frame_check_uuid frame_cmd_options : pres.

Lemma frame_get_build_cmd m a : preserves R_frame (get_build_cmd E m a).
Proof. unfold get_build_cmd. pres_tac. Qed.

Lemma frame_get_install_cmd m a : preserves R_frame (get_install_cmd E m a).
Proof. unfold get_install_cmd. pres_tac. Qed.

#[local] Hint Resolve frame_get_build_cmd frame_get_install_cmd : pres.

Lemma trace_pre_build m : preserves (R_trace pre_ev) (pre_build E m).
Proof.
  unfold pre_build, _write_changelog, _get_commit_message. pres_tac.
Qed.

Lemma central_pre_build m : preserves R_central (pre_build E m).
Proof.
  unfold pre_build, _write_changelog, _get_commit_message. pres_tac.
Qed.

Lemma trace_build m : preserves (R_trace build_ev) (build E m).
Proof. unfold build, build_variant. pres_tac. Qed.

Lemma central_build m : preserves R_central (build E m).
Proof. unfold build, build_variant. pres_tac. Qed.

Lemma attrs_build m : preserves R_attrs (build E m).
Proof. unfold build, build_variant. pres_tac. Qed.

Lemma trace_install_variant m v i :
  preserves (R_trace variant_install_ev) (install_variant E m v i).
Proof. unfold install_variant. pres_tac. Qed.

Lemma central_install_variant m v i :
  preserves R_central (install_variant E m v i).
Proof. unfold install_variant. pres_tac. Qed.

Lemma attrs_install m : preserves R_attrs (install E m).
Proof.
  unfold install, install_variant, makedirs_central, write_uuid_file.
  pres_tac.
Qed.

Lemma trace_install m : preserves (R_trace install_ev) (install E m).
Proof.
  unfold install, install_variant, makedirs_central, write_uuid_file.
  pres_tac.
Qed.

Lemma trace_post_install m : preserves (R_trace post_ev) (post_install E m).
Proof.
  unfold post_install, write_time_metafile, send_email, send_release_email.
  pres_tac.
Qed.

Lemma central_post_install m : preserves R_central (post_install E m).
Proof.
  unfold post_install, write_time_metafile, send_email, send_release_email.
  pres_tac.
Qed.

Lemma attrs_post_install m : preserves R_attrs (post_install E m).
Proof.
  unfold post_install, write_time_metafile, send_email, send_release_email.
  pres_tac.
Qed.

(** *** Successful runs of the variant loops *)

Lemma trace_rel {A} (m : M st A) (R : st -> st -> Prop) :
  preserves R m -> forall s r s', m s = (r, s') -> R s s'.
Proof. intros H. exact H. Qed.

(** A successful run of [m] from [s] to [s'] is cut at its first bind;
    the first action is summarised by the relation [R]. *)
Ltac peel R H :=
  let Hm := fresh "Hm" in
  let HR := fresh "HR" in
  apply bind_inv in H as [(? & _ & ?) | (? & ? & Hm & H)]; [discriminate|];
  match type of Hm with
  | ?m ?s = _ => assert (HR : preserves R m) by pres_tac; apply HR in Hm; clear HR
  end.


Lemma emit_inv e s r s' : emit e s = (r, s') -> r = Ok tt /\ T s' = T s ++ [e].
Proof. now intros [= <- <-]. Qed.

Lemma build_variant_ok m v i s s' :
  build_variant E m v i s = (Ok tt, s') ->
  exists evs, T s' = T s ++ evs /\ Forall built_ok evs
              /\ exists cmd, In (EvBuild i cmd 0) evs.
Proof.
  intros H. unfold build_variant in H.
  do 7 peel (R_trace built_ok) H.
  apply bind_inv in H as [(? & _ & ?) | (? & s7 & He & H)]; [discriminate|].
  apply emit_inv in He as [_ He].
  match type of H with
  | (if negb (?rc =? 0)%Z then _ else _) _ = _ => destruct (rc =? 0)%Z eqn:Hrc
  end; simpl in H; [|discriminate].
  injection H as <-. apply Z.eqb_eq in Hrc. rewrite Hrc in He.
  repeat match goal with
         | H1 : R_trace _ ?a ?b, H2 : R_trace _ ?b ?c |- _ =>
             pose proof (R_trace_trans _ _ _ _ H1 H2); clear H1 H2
         end.
  match goal with
  | H1 : R_trace _ s _ |- _ => destruct H1 as (evs & Ht & Hf)
  end.
  eexists. split; [rewrite He, Ht, <- app_assoc; reflexivity|]. split.
  - apply Forall_app. split; [exact Hf|].
    constructor; [|constructor]. split; simpl; auto.
  - eexists. apply in_or_app. right. left. reflexivity.
Qed.

Ltac chain_traces :=
  repeat match goal with
         | H1 : R_trace _ ?a ?b, H2 : R_trace _ ?b ?c |- _ =>
             pose proof (R_trace_trans _ _ _ _ H1 H2); clear H1 H2
         end.

Lemma install_variant_ok m v i s s' :
  install_variant E m v i s = (Ok tt, s') ->
  exists evs, T s' = T s ++ evs /\ Forall installed_ok evs
              /\ exists cmd, In (EvInstall i cmd 0) evs.
Proof.
  intros H. unfold install_variant in H.
  peel (R_trace installed_ok) H.
  destruct (shell E _) as [rc instpath] in H.
  apply bind_inv in H as [(? & _ & ?) | (? & s2 & He1 & H)]; [discriminate|].
  apply emit_inv in He1 as [_ He1].
  destruct (rc =? 0)%Z eqn:Hrc; simpl in H; [|discriminate].
  apply Z.eqb_eq in Hrc. subst rc.
  peel (R_trace installed_ok) H.
  apply bind_inv in H as [(? & _ & ?) | (? & s4 & He2 & H)]; [discriminate|].
  apply emit_inv in He2 as [_ He2].
  match type of H with
  | (if negb (?rc =? 0)%Z then _ else _) _ = _ => destruct (rc =? 0)%Z eqn:Hrc
  end; simpl in H; [|discriminate].
  apply Z.eqb_eq in Hrc. rewrite Hrc in He2.
  match type of H with
  | ?m ?s = _ =>
      assert (HR : preserves (R_trace installed_ok) m) by pres_tac;
        apply HR in H; clear HR
  end.
  destruct Hm as (e0 & Ht0 & Hf0).
  destruct Hm0 as (e1 & Ht1 & Hf1).
  destruct H as (e2 & Ht2 & Hf2).
  eexists. split.
  { rewrite Ht2, He2, Ht1, He1, Ht0. repeat rewrite <- app_assoc. reflexivity. }
  split.
  - repeat (apply Forall_app; split); try assumption;
      (constructor; [split; simpl; auto | constructor]).
  - eexists. apply in_or_app. right. apply in_or_app. right.
    apply in_or_app. right. apply in_or_app. left. left. reflexivity.
Qed.

(** The loop over the variants: when it returns, every index has run. *)
Lemma for_enumerate_ok (body : variant_t -> nat -> M st unit)
  (P : event -> Prop) (Q : nat -> event -> Prop) :
  (forall v i s s', body v i s = (Ok tt, s') ->
     exists evs, T s' = T s ++ evs /\ Forall P evs
                 /\ exists e, In e evs /\ Q i e) ->
  forall vs k s s',
    for_enumerate body k vs s = (Ok tt, s') ->
    exists evs, T s' = T s ++ evs /\ Forall P evs
                /\ forall j, j < length vs -> exists e, In e evs /\ Q (k + j) e.
Proof.
  intros Hbody vs. induction vs as [|v vs IH]; intros k s s' H; simpl in H.
  - injection H as <-. exists []. split; [now rewrite app_nil_r|].
    split; [constructor|]. simpl. intros j Hj. inversion Hj.
  - apply bind_inv in H as [(? & _ & ?) | ([] & s1 & Hb & H)]; [discriminate|].
    apply Hbody in Hb as (e1 & Ht1 & Hf1 & e & Hin & Hq).
    apply IH in H as (e2 & Ht2 & Hf2 & Hall).
    exists (e1 ++ e2). split; [rewrite Ht2, Ht1; now rewrite app_assoc|].
    split; [apply Forall_app; now split|].
    intros [|j] Hj; simpl in Hj.
    + exists e. rewrite Nat.add_0_r. split; [apply in_or_app; now left|exact Hq].
    + destruct (Hall j) as (e' & Hin' & Hq'); [lia|].
      exists e'. split; [apply in_or_app; now right|].
      now replace (k + S j) with (S k + j) by lia.
Qed.

Lemma build_ok m s s' :
  build E m s = (Ok tt, s') ->
  exists vs evs,
    variants (self s) = Some vs
    /\ T s' = T s ++ evs /\ Forall built_ok evs
    /\ forall i, i < length vs -> exists cmd, In (EvBuild i cmd 0) evs.
Proof.
  intros H. unfold build in H.
  apply bind_inv in H as [(? & _ & ?) | (vs & s1 & Hv & H)]; [discriminate|].
  unfold getattr in Hv. destruct (variants (self s)) as [vs'|] eqn:Hvs;
    [|discriminate].
  injection Hv as <- <-.
  apply (for_enumerate_ok _ built_ok (fun i e => exists cmd, e = EvBuild i cmd 0))
    in H as (evs & Ht & Hf & Hall).
  - exists vs', evs. repeat split; try assumption.
    intros i Hi. destruct (Hall i Hi) as (e & Hin & cmd & ->).
    now exists cmd.
  - intros v i a b Hb. apply build_variant_ok in Hb as (evs & ? & ? & cmd & ?).
    exists evs. repeat split; try assumption.
    exists (EvBuild i cmd 0). split; [assumption|now exists cmd].
Qed.

(** *** The install phase *)

(** The loop of [install] over the variants. *)
Definition install_variants (m : mode) : M st unit :=
  bind (getattr "variants" variants) (for_enumerate (install_variant E m) 0).

Lemma install_variants_run m s r s' :
  install_variants m s = (r, s') ->
  exists evs,
    T s' = T s ++ evs /\ Forall variant_install_ev evs
    /\ central (wld s') = central (wld s)
    /\ (r = Ok tt ->
        exists vs, variants (self s) = Some vs
          /\ Forall installed_ok evs
          /\ forall i, i < length vs -> exists cmd, In (EvInstall i cmd 0) evs).
Proof.
  intros H.
  assert (Ht : R_trace variant_install_ev s s').
  { revert H. apply (trace_rel (install_variants m)).
    unfold install_variants, install_variant. pres_tac. }
  assert (Hc : R_central s s').
  { revert H. apply (trace_rel (install_variants m)).
    unfold install_variants, install_variant. pres_tac. }
  destruct Ht as (evs & Ht & Hf).
  exists evs. repeat split; try assumption.
  intros ->. unfold install_variants in H.
  apply bind_inv in H as [(? & _ & ?) | (vs & s1 & Hv & H)]; [discriminate|].
  unfold getattr in Hv. destruct (variants (self s)) as [vs'|] eqn:Hvs;
    [|discriminate].
  injection Hv as <- <-.
  apply (for_enumerate_ok _ installed_ok
           (fun i e => exists cmd, e = EvInstall i cmd 0))
    in H as (evs' & Ht' & Hf' & Hall).
  - rewrite Ht in Ht'. apply app_inv_head in Ht'. subst evs'.
    exists vs'. repeat split; try assumption.
    intros i Hi. destruct (Hall i Hi) as (e & Hin & cmd & ->).
    now exists cmd.
  - intros v i a b Hb.
    apply install_variant_ok in Hb as (ev & ? & ? & cmd & ?).
    exists ev. repeat split; try assumption.
    exists (EvInstall i cmd 0). split; [assumption|now exists cmd].
Qed.

Definition uuid_known (o : self_t) : bool :=
  match package_uuid_exists o with
  | Some b => b
  | None => false
  end.

(** The marker is known to exist: [install] only installs the variants. *)
Lemma install_existing m s r s' :
  uuid_known (self s) = true ->
  install E m s = (r, s') ->
  install_variants m s = (r, s').
Proof.
  intros Hk H. unfold install in H. unfold uuid_known in Hk.
  unfold bind at 1 in H. unfold attr in H. rewrite Hk in H. simpl in H.
  exact H.
Qed.

(** The marker is not known to exist, but the family directory is there:
    [os.makedirs] raises and nothing is written. *)
Lemma install_blocked m s r s' d :
  uuid_known (self s) = false ->
  central (wld s) = Dir d ->
  install E m s = (r, s') ->
  s' = s /\ exists e, r = Raise e.
Proof.
  intros Hk Hc H. unfold install in H. unfold uuid_known in Hk.
  unfold bind at 1 in H. unfold attr in H. rewrite Hk in H. simpl in H.
  unfold bind at 1 in H. unfold bind at 1 in H. unfold getattr at 1 in H.
  destruct (pkg_release_dir (self s)) as [prd|].
  - unfold bind at 1 in H. unfold makedirs_central in H.
    unfold bind at 1 in H. unfold world_get in H. rewrite Hc in H.
    unfold raise in H. injection H as <- <-. eauto.
  - injection H as <- <-. eauto.
Qed.

(** First release of the family: the directory is made and the marker
    written, once, before the variants are installed. *)
Lemma install_first m s r s' prd puf md :
  uuid_known (self s) = false ->
  central (wld s) = NoDir ->
  pkg_release_dir (self s) = Some prd ->
  package_uuid_file (self s) = Some puf ->
  metadata (self s) = Some md ->
  install E m s = (r, s') ->
  exists s1,
    T s1 = T s ++ [EvMakeFamilyDir prd; EvWriteUuid puf (md_uuid md)]
    /\ central (wld s1)
       = Dir (Some {| uf_content := md_uuid md; uf_readable := true |})
    /\ variants (self s1) = variants (self s)
    /\ install_variants m s1 = (r, s').
Proof.
  intros Hk Hc Hprd Hpuf Hmd H. unfold uuid_known in Hk.
  unfold install_variants.
  cbv [install bind attr getattr makedirs_central write_uuid_file world_get
       emit set_central modify with_wld with_self ret raise] in *.
  rewrite Hk in H. cbn [negb] in H. rewrite Hprd, Hc in H. cbn in H.
  rewrite Hpuf in H. cbn in H. rewrite Hmd in H. cbn in H.
  eexists. split; [|split; [|split; [|exact H]]].
  - unfold T. simpl. now rewrite <- app_assoc.
  - reflexivity.
  - reflexivity.
Qed.

(** *** The post-install phase *)

Definition tag_call : event := EvCall "create_release_tag".

Lemma post_install_run m s r s' :
  post_install E m s = (r, s') ->
  exists evs,
    T s' = T s ++ evs
    /\ central (wld s') = central (wld s)
    /\ Forall post_ev evs
    /\ (In tag_call evs ->
        exists f c mail,
          evs = EvWriteTimeMetafile f c :: mail ++ [tag_call]
          /\ Forall mail_ev mail).
Proof.
  intros H.
  pose proof (trace_rel _ _ (trace_post_install m) _ _ _ H) as (evs & Ht & Hf).
  pose proof (trace_rel _ _ (central_post_install m) _ _ _ H) as Hc.
  exists evs.
  split; [assumption | split; [assumption | split; [assumption|]]].
  intros Hin. unfold post_install in H.
  (* write_time_metafile *)
  apply bind_inv in H as [(e & Hw & _) | ([] & s1 & Hw & H)].
  { exfalso.
    assert (Hn : R_trace (fun e => e <> tag_call) s s').
    { revert Hw. apply trace_rel. unfold write_time_metafile. pres_tac. }
    destruct Hn as (evs' & Ht' & Hf'). rewrite Ht in Ht'.
    apply app_inv_head in Ht'. subst evs'.
    rewrite Forall_forall in Hf'. now apply (Hf' _ Hin). }
  assert (Hw' : exists f c, T s1 = T s ++ [EvWriteTimeMetafile f c]).
  { unfold write_time_metafile in Hw.
    apply bind_inv in Hw as [(? & _ & ?) | (prd & a1 & H1 & Hw)]; [discriminate|].
    apply bind_inv in Hw as [(? & _ & ?) | (md & a2 & H2 & Hw)]; [discriminate|].
    cbv zeta in Hw.
    apply bind_inv in Hw as [(? & _ & ?) | (u & a3 & H3 & Hw)]; [discriminate|].
    apply emit_inv in Hw as [_ Hw].
    unfold getattr in H1, H2. unfold lift in H3.
    destruct (pkg_release_dir (self s)); [|discriminate].
    destruct (metadata (self a1)); [|discriminate].
    injection H1 as <- <-. injection H2 as <- <-. injection H3 as _ <-.
    eauto. }
  destruct Hw' as (f & c & Hw').
  (* send_email *)
  apply bind_inv in H as [(e & Hs & _) | ([] & s2 & Hs & H)].
  { exfalso.
    assert (Hn : R_trace mail_ev s1 s').
    { revert Hs. apply trace_rel.
      unfold send_email, send_release_email. pres_tac. }
    destruct Hn as (evs' & Ht' & Hf'). rewrite Hw' in Ht'.
    rewrite Ht, <- app_assoc in Ht'. apply app_inv_head in Ht'. subst evs.
    destruct Hin as [Hin|Hin]; [discriminate|].
    rewrite Forall_forall in Hf'. now apply (Hf' _ Hin). }
  assert (Hm : R_trace mail_ev s1 s2).
  { revert Hs. apply trace_rel.
    unfold send_email, send_release_email. pres_tac. }
  destruct Hm as (mail & Hm & Hfm).
  apply bind_inv in H as [(e & He & _) | ([] & s3 & He & H)].
  { apply emit_inv in He as [[=] _]. }
  apply emit_inv in He as [_ He].
  assert (Hfr : R_world s3 s').
  { revert H. apply trace_rel. pres_tac. }
  unfold R_world in Hfr. unfold T in *. rewrite Hfr, He, Hm, Hw' in Ht.
  repeat rewrite <- app_assoc in Ht. apply app_inv_head in Ht. subst evs.
  exists f, c, mail. split; [reflexivity|exact Hfm].
Qed.

(** *** The pre-build phase *)

Definition uuid_mismatch_error (package_uuid_file : string) : exn :=
  RezReleaseError
    ("the uuid in '" ++ package_uuid_file
     ++ "' does not match this package's uuid - you may have a package "
     ++ "name clash. All package names must be unique.")%string.

(** [check_uuid] as a function of the marker file and the metadata. *)
Definition check_uuid_result (package_uuid_file : string) (d : family_dir)
  (md : metadata_t) : result bool :=
  match read_uuid_file d with
  | Ok text =>
      if String.eqb (Py.strip text) (md_uuid md) then Ok true
      else Raise (uuid_mismatch_error package_uuid_file)
  | Raise _ => Ok false
  end.

Lemma check_uuid_eq puf s md :
  metadata (self s) = Some md ->
  check_uuid puf s = (check_uuid_result puf (central (wld s)) md, s).
Proof.
  intros Hmd. unfold check_uuid, check_uuid_result. unfold_monad.
  rewrite Hmd.
  destruct (read_uuid_file (central (wld s))) as [text|e]; simpl.
  - now destruct (String.eqb (Py.strip text) (md_uuid md)).
  - now rewrite String.eqb_refl.
Qed.

Lemma get_metadata_loaded m s md s1 :
  get_metadata E m s = (Ok md, s1) ->
  exists p, ConfigMetadata E p = Ok md.
Proof.
  assert (Hb : forall s md s1, base_get_metadata E s = (Ok md, s1) ->
                               exists p, ConfigMetadata E p = Ok md).
  { clear. intros s md s1 H. unfold base_get_metadata in H.
    apply bind_inv in H as [(? & _ & ?) | (p & a1 & H1 & H)]; [discriminate|].
    cbv zeta in H.
    destruct (access E _); simpl in H; [|discriminate].
    apply bind_inv in H as [(? & _ & ?) | (md' & a2 & H2 & H)]; [discriminate|].
    unfold lift in H2. injection H2 as H2 _.
    destruct (Py.truthy (md_version md')); simpl in H; [|discriminate].
    apply bind_inv in H as [(? & _ & ?) | (v & a3 & H3 & H)]; [discriminate|].
    apply bind_inv in H as [(? & _ & ?) | (u & a4 & H4 & H)]; [discriminate|].
    repeat match type of H with
           | (if ?c then _ else _) _ = _ => destruct c; simpl in H; try discriminate
           end.
    injection H as <- _. eauto. }
  destruct m; simpl; try apply Hb.
  intros H. unfold svn_get_metadata in H.
  apply bind_inv in H as [(? & _ & ?) | (md' & a1 & H1 & H)]; [discriminate|].
  apply bind_inv in H as [(? & _ & ?) | (u & a2 & H2 & H)]; [discriminate|].
  apply bind_inv in H as [(? & _ & ?) | (ex & a3 & H3 & H)]; [discriminate|].
  destruct ex; simpl in H.
  - injection H as <- _. eapply Hb; eassumption.
  - apply bind_inv in H as [(? & _ & ?) | (? & ? & _ & H)]; discriminate.
Qed.

Lemma assign_inv f s r s' :
  assign f s = (r, s') -> r = Ok tt /\ s' = with_self f s.
Proof. now intros [= <- <-]. Qed.

(** What a successful [pre_build] leaves for the later phases. *)
Definition prepared (c : family_dir) (s' : st) : Prop :=
  exists md prd vs,
    metadata (self s') = Some md
    /\ pkg_release_dir (self s') = Some prd
    /\ package_uuid_file (self s') = Some (Py.path_join prd "package.uuid")
    /\ uuid_known (self s') = is_ok (read_uuid_file c)
    /\ (forall text, read_uuid_file c = Ok text -> Py.strip text = md_uuid md)
    /\ variants (self s') = Some vs
    /\ vs <> [].

Lemma pre_build_run m s r s' :
  pre_build E m s = (r, s') ->
  R_trace pre_ev s s'
  /\ central (wld s') = central (wld s)
  /\ (r = Ok tt -> prepared (central (wld s)) s')
  /\ (forall f,
        central (wld s) = Dir (Some f) -> uf_readable f = true ->
        (forall p md, ConfigMetadata E p = Ok md ->
                      Py.strip (uf_content f) <> md_uuid md) ->
        T s' = T s
        /\ (exists e, r = Raise e)
        /\ (forall md s1 c0 r0,
              get_metadata E m s = (Ok md, s1) ->
              getenv E REZ_RELEASE_PATH_ENV_VAR = Some (String c0 r0) ->
              r = Raise (uuid_mismatch_error
                           (Py.path_join (Py.path_join (String c0 r0) (md_name md))
                                         "package.uuid")))).
Proof.
  intros H.
  split; [exact (trace_pre_build m _ _ _ H)|].
  split; [exact (central_pre_build m _ _ _ H)|].
  unfold pre_build in H.
  apply bind_inv in H as [(e & Hg & ->) | (md & s1 & Hg & H)].
  { split; [discriminate|]. intros f Hc Hr Hne.
    pose proof (frame_get_metadata _ _ _ _ Hg) as [Hw _]. unfold R_world in Hw.
    unfold T. rewrite Hw. split; [reflexivity|]. split; [eauto|].
    intros md s1 c0 r0 Hg'. congruence. }
  pose proof Hg as Hld. apply get_metadata_loaded in Hld as (p & Hld).
  apply frame_get_metadata in Hg as Hfr. destruct Hfr as [Hw1 _].
  unfold R_world in Hw1.
  apply bind_inv in H as [(? & Ha & _) | ([] & s2 & Ha & H)];
    [apply assign_inv in Ha as [[=] _]|].
  apply assign_inv in Ha as [_ ->].
  destruct (getenv E REZ_RELEASE_PATH_ENV_VAR) as [[|c0 r0]|] eqn:Henv.
  1,3: (injection H as <- <-; split; [discriminate|];
        intros f Hc Hr Hne; unfold T; simpl; rewrite Hw1;
        split; [reflexivity|]; split; [eauto|];
        intros md' s1' c1 r1 _ [=]).
  cbv zeta in H.
  apply bind_inv in H as [(? & Ha & _) | ([] & s3 & Ha & H)];
    [apply assign_inv in Ha as [[=] _]|].
  apply assign_inv in Ha as [_ ->].
  apply bind_inv in H as [(? & Ha & _) | ([] & s3 & Ha & H)];
    [apply assign_inv in Ha as [[=] _]|].
  apply assign_inv in Ha as [_ ->].
  unfold bind at 1 in H.
  rewrite (check_uuid_eq _ _ md) in H; [|reflexivity].
  simpl central in H. rewrite Hw1 in H.
  unfold check_uuid_result in H.
  destruct (read_uuid_file (central (wld s))) as [text|e] eqn:Hread.
  - (* the marker was read *)
    destruct (String.eqb (Py.strip text) (md_uuid md)) eqn:Heq;
      cbv beta iota in H.
    + (* and matches *)
      apply String.eqb_eq in Heq.
      split.
      * intros ->.
        apply bind_inv in H as [(? & Ha & _) | ([] & s3 & Ha & H)];
          [apply assign_inv in Ha as [[=] _]|].
        apply assign_inv in Ha as [_ ->].
        apply bind_inv in H as [(? & Ha & _) | ([] & s3 & Ha & H)];
          [apply assign_inv in Ha as [[=] _]|].
        apply assign_inv in Ha as [_ ->].
        match type of H with
        | ?t ?x = _ =>
            assert (HR : preserves R_attrs t)
              by (unfold _write_changelog, _get_commit_message; pres_tac);
              apply HR in H; clear HR
        end.
        destruct H as (H1 & H2 & H3 & H4 & H5). simpl in *.
        unfold prepared. eexists _, _, _.
        split; [eassumption|]. split; [eassumption|]. split; [eassumption|].
        split; [unfold uuid_known; rewrite H4, Hread; reflexivity|].
        split; [intros t Ht; rewrite Hread in Ht; injection Ht as <-; exact Heq|].
        split; [eassumption|].
        destruct (md_variants md); simpl; discriminate.
      * intros f Hc Hr Hne. exfalso.
        rewrite Hc in Hread. simpl in Hread. rewrite Hr in Hread.
        injection Hread as <-. now apply (Hne p md).
    + (* and differs *)
      injection H as <- <-.
      split; [discriminate|].
      intros f Hc Hr Hne. unfold T. simpl. rewrite Hw1.
      split; [reflexivity|]. split; [eauto|].
      intros md' s1' c1 r1 Hg' [= <- <-]. rewrite Hg in Hg'.
      now injection Hg' as <- _.
  - (* the marker could not be read *)
    cbv beta iota in H.
    split.
    + intros ->.
      apply bind_inv in H as [(? & Ha & _) | ([] & s3 & Ha & H)];
        [apply assign_inv in Ha as [[=] _]|].
      apply assign_inv in Ha as [_ ->].
      apply bind_inv in H as [(? & Ha & _) | ([] & s3 & Ha & H)];
        [apply assign_inv in Ha as [[=] _]|].
      apply assign_inv in Ha as [_ ->].
      match type of H with
      | ?t ?x = _ =>
          assert (HR : preserves R_attrs t)
            by (unfold _write_changelog, _get_commit_message; pres_tac);
            apply HR in H; clear HR
      end.
      destruct H as (H1 & H2 & H3 & H4 & H5). simpl in *.
      unfold prepared. eexists _, _, _.
      split; [eassumption|]. split; [eassumption|]. split; [eassumption|].
      split; [unfold uuid_known; rewrite H4, Hread; reflexivity|].
      split; [intros t Ht; rewrite Hread in Ht; discriminate|].
      split; [eassumption|].
      destruct (md_variants md); simpl; discriminate.
    + intros f Hc Hr Hne. exfalso.
      rewrite Hc in Hread. simpl in Hread. rewrite Hr in Hread. discriminate.
Qed.

(** *** The shape of a run of [release] *)

(** The state once an event is recorded. *)
Definition after (e : event) (s : st) : st := snd (emit e s).

Lemma T_after e s : T (after e s) = T s ++ [e].
Proof. reflexivity. Qed.
Lemma self_after e s : self (after e s) = self s.
Proof. reflexivity. Qed.
Lemma central_after e s : central (wld (after e s)) = central (wld s).
Proof. reflexivity. Qed.

(** [release] runs the four phases in order and stops at the first that
    raises. *)
Lemma release_shape m cm nj bt anl s0 r s' :
  release E m cm nj bt anl s0 = (r, s') ->
  exists r1 s1,
    pre_build E m (after (EvCall "pre_build")
                     (with_self (set_release_args cm nj bt anl) s0)) = (r1, s1)
    /\ match r1 with
       | Raise e => r = Raise e /\ s' = s1
       | Ok _ =>
           exists r2 s2,
             build E m (after (EvCall "build") s1) = (r2, s2)
             /\ match r2 with
                | Raise e => r = Raise e /\ s' = s2
                | Ok _ =>
                    exists r3 s3,
                      install E m (after (EvCall "install") s2) = (r3, s3)
                      /\ match r3 with
                         | Raise e => r = Raise e /\ s' = s3
                         | Ok _ =>
                             post_install E m (after (EvCall "post_install") s3)
                             = (r, s')
                         end
                end
       end.
Proof.
  unfold release. intros H.
  apply bind_inv in H as [(? & [=] & _) | ([] & sa & [= <-] & H)].
  apply bind_inv in H as [(? & [=] & _) | ([] & sb & [= <-] & H)].
  apply bind_inv in H as [(e & H1 & ->) | ([] & s1 & H1 & H)].
  { exists (Raise e), s'. split; [exact H1|now split]. }
  exists (Ok tt), s1. split; [exact H1|].
  apply bind_inv in H as [(? & [=] & _) | ([] & sc & [= <-] & H)].
  apply bind_inv in H as [(e & H2 & ->) | ([] & s2 & H2 & H)].
  { exists (Raise e), s'. split; [exact H2|now split]. }
  exists (Ok tt), s2. split; [exact H2|].
  apply bind_inv in H as [(? & [=] & _) | ([] & sd & [= <-] & H)].
  apply bind_inv in H as [(e & H3 & ->) | ([] & s3 & H3 & H)].
  { exists (Raise e), s'. split; [exact H3|now split]. }
  exists (Ok tt), s3. split; [exact H3|].
  apply bind_inv in H as [(? & [=] & _) | ([] & se & [= <-] & H)].
  exact H.
Qed.

(** The uuid marker writes of a trace, in order. *)
Fixpoint uuid_writes (t : list event) : list (string * string) :=
  match t with
  | [] => []
  | EvWriteUuid p c :: rest => (p, c) :: uuid_writes rest
  | _ :: rest => uuid_writes rest
  end.

Lemma uuid_writes_app a b : uuid_writes (a ++ b) = uuid_writes a ++ uuid_writes b.
Proof.
  induction a as [|e a IH]; simpl; [reflexivity|].
  destruct e; simpl; now rewrite ?IH.
Qed.

Lemma uuid_writes_none (P : event -> Prop) t :
  (forall p c, ~ P (EvWriteUuid p c)) -> Forall P t -> uuid_writes t = [].
Proof.
  intros HP Hf. induction Hf as [|e t He Hf IH]; simpl; [reflexivity|].
  destruct e; try exact IH. now apply HP in He.
Qed.

Lemma no_tag_call (P : event -> Prop) t :
  ~ P tag_call -> Forall P t -> ~ In tag_call t.
Proof.
  intros HP Hf Hin. rewrite Forall_forall in Hf. now apply HP, Hf.
Qed.

Lemma install_ok m s s' :
  install E m s = (Ok tt, s') ->
  exists vs evs,
    variants (self s) = Some vs
    /\ T s' = T s ++ evs
    /\ Forall (fun e => install_ev e /\ succeeded e) evs
    /\ forall i, i < length vs -> exists cmd, In (EvInstall i cmd 0) evs.
Proof.
  intros H. unfold install in H.
  apply bind_inv in H as [(? & _ & ?) | (pue & s1 & [= <- <-] & H)];
    [discriminate|].
  apply bind_inv in H as [(? & _ & ?) | ([] & s2 & Hu & H)]; [discriminate|].
  assert (Ht : R_trace (fun e => install_ev e /\ succeeded e) s s2).
  { revert Hu. apply trace_rel. unfold makedirs_central, write_uuid_file.
    pres_tac. }
  assert (Ha : R_attrs s s2).
  { revert Hu. apply trace_rel. unfold makedirs_central, write_uuid_file.
    pres_tac. }
  change (install_variants m s2 = (Ok tt, s')) in H.
  apply install_variants_run in H as (evs & Hte & Hf & Hc & Hok).
  destruct (Hok eq_refl) as (vs & Hvs & Hfo & Hall).
  destruct Ht as (e0 & Ht0 & Hf0).
  destruct Ha as (_ & _ & _ & _ & Hv).
  exists vs, (e0 ++ evs). split; [congruence|].
  split; [rewrite Hte, Ht0; now rewrite app_assoc|].
  split.
  - apply Forall_app. split; [exact Hf0|].
    eapply Forall_impl; [|exact Hfo].
    intros e [He1 He2]. split; [|exact He2].
    destruct e; simpl in *; auto.
  - intros i Hi. destruct (Hall i Hi) as (cmd & Hin).
    exists cmd. apply in_or_app. now right.
Qed.

(** *** The tag comes last *)

(** An event cannot be in a trace none of whose parts holds it. *)
Ltac absent H :=
  unfold tag_call in *;
  repeat match type of H with
         | In _ (_ ++ _) => apply in_app_or in H as [H|H]
         | In _ (_ :: _) => destruct H as [H|H]; [discriminate H|]
         | In _ [] => destruct H
         | _ => contradiction
         end.

Definition central_ok (e : event) : Prop := install_ev e /\ succeeded e.

(** C1.  In every run of [release], if [create_release_tag] is called at
    all then the trace of the run is: the call of [pre_build] and its
    checks; the call of [build] and, for every variant index, a build that
    returned 0; the call of [install] and, for every variant index, an
    install that returned 0; the call of [post_install], the write of the
    release-time metafile, the notification; and, as the last action,
    the call of [create_release_tag].  No build or install command in the
    trace returned non-zero. *)
Theorem release_tags_last
  (m : mode) (cm : option string) (nj : nat) (bt : string) (anl : bool)
  (o : self_t) (c : family_dir) (ex : string -> bool) (r : result unit)
  (s' : st) :
  release E m cm nj bt anl (start o c ex) = (r, s') ->
  In tag_call (T s') ->
  exists vs t_pre t_build t_install f text t_mail,
    variants (self s') = Some vs /\ vs <> []
    /\ T s' = EvCall "pre_build" :: t_pre
               ++ EvCall "build" :: t_build
               ++ EvCall "install" :: t_install
               ++ EvCall "post_install" :: EvWriteTimeMetafile f text :: t_mail
               ++ [tag_call]
    /\ Forall pre_ev t_pre
    /\ Forall built_ok t_build
    /\ Forall central_ok t_install
    /\ Forall mail_ev t_mail
    /\ (forall i, i < length vs -> exists cmd, In (EvBuild i cmd 0) t_build)
    /\ (forall i, i < length vs -> exists cmd, In (EvInstall i cmd 0) t_install).
Proof.
  intros H Htag.
  apply release_shape in H as (r1 & s1 & H1 & H).
  pose proof (pre_build_run _ _ _ _ H1) as ((t_pre & Ht1 & Hf1) & _ & Hprep & _).
  rewrite T_after in Ht1. unfold T at 2 in Ht1. simpl in Ht1.
  assert (Hpre : ~ In tag_call t_pre).
  { apply (no_tag_call pre_ev); [|exact Hf1]. simpl. intros [|]; discriminate. }
  destruct r1 as [[]|e].
  2:{ destruct H as [_ ->]. exfalso. rewrite Ht1 in Htag. absent Htag. }
  destruct (Hprep eq_refl) as (md & prd & vs & _ & _ & _ & _ & _ & Hvs & Hne).
  destruct H as (r2 & s2 & H2 & H).
  pose proof (trace_build _ _ _ _ H2) as (t_build & Ht2 & Hf2).
  pose proof (attrs_build _ _ _ _ H2) as (_ & _ & _ & _ & Hv2).
  rewrite T_after in Ht2. rewrite self_after in Hv2.
  assert (Hb : ~ In tag_call t_build).
  { apply (no_tag_call build_ev); [|exact Hf2]. simpl. tauto. }
  destruct r2 as [[]|e].
  2:{ destruct H as [_ ->]. exfalso. rewrite Ht2, Ht1 in Htag. absent Htag. }
  apply build_ok in H2 as (vs2 & t_build' & Hvs2 & Ht2' & Hfb & Hallb).
  rewrite T_after in Ht2'. rewrite Ht2 in Ht2'. apply app_inv_head in Ht2'.
  subst t_build'. rewrite self_after, Hvs in Hvs2. injection Hvs2 as <-.
  destruct H as (r3 & s3 & H3 & H).
  pose proof (trace_install _ _ _ _ H3) as (t_inst & Ht3 & Hf3).
  pose proof (attrs_install _ _ _ _ H3) as (_ & _ & _ & _ & Hv3).
  rewrite T_after in Ht3. rewrite self_after in Hv3.
  assert (Hi : ~ In tag_call t_inst).
  { apply (no_tag_call install_ev); [|exact Hf3]. simpl. tauto. }
  assert (Hbefore : ~ In tag_call (T s3)).
  { rewrite Ht3, Ht2, Ht1. intros Hin. absent Hin. }
  destruct r3 as [[]|e].
  2:{ destruct H as [_ ->]. contradiction. }
  apply install_ok in H3 as (vs3 & t_inst' & Hvs3 & Ht3' & Hfi & Halli).
  rewrite T_after in Ht3'. rewrite Ht3 in Ht3'. apply app_inv_head in Ht3'.
  subst t_inst'. rewrite self_after, Hv2, Hvs in Hvs3. injection Hvs3 as <-.
  pose proof (attrs_post_install _ _ _ _ H) as (_ & _ & _ & _ & Hv4).
  rewrite self_after in Hv4.
  apply post_install_run in H as (t_post & Ht4 & _ & _ & Hlast).
  rewrite T_after in Ht4.
  destruct Hlast as (f & text & t_mail & -> & Hfm).
  { rewrite Ht4 in Htag.
    apply in_app_or in Htag as [Htag|Htag]; [|exact Htag].
    exfalso. absent Htag. }
  exists vs, t_pre, t_build, t_inst, f, text, t_mail.
  split; [congruence|]. split; [exact Hne|].
  split.
  { rewrite Ht4, Ht3, Ht2, Ht1. simpl.
    repeat (rewrite <- app_assoc; simpl). reflexivity. }
  repeat split; assumption.
Qed.

(** *** The uuid marker *)

Lemma no_uuid_pre t : Forall pre_ev t -> uuid_writes t = [].
Proof. apply uuid_writes_none. intros p c H. exact H. Qed.
Lemma no_uuid_build t : Forall build_ev t -> uuid_writes t = [].
Proof. apply uuid_writes_none. intros p c H. exact H. Qed.
Lemma no_uuid_variants t : Forall variant_install_ev t -> uuid_writes t = [].
Proof. apply uuid_writes_none. intros p c H. exact H. Qed.
Lemma no_uuid_post t : Forall post_ev t -> uuid_writes t = [].
Proof. apply uuid_writes_none. intros p c H. exact H. Qed.

(** The run up to the install phase, when that phase is entered. *)
Lemma release_reaches_install m cm nj bt anl o c ex r s' :
  release E m cm nj bt anl (start o c ex) = (r, s') ->
  In (EvCall "install") (T s') ->
  exists s2 r3 s3 t,
    prepared c (after (EvCall "install") s2)
    /\ central (wld (after (EvCall "install") s2)) = c
    /\ uuid_writes (T (after (EvCall "install") s2)) = []
    /\ install E m (after (EvCall "install") s2) = (r3, s3)
    /\ T s' = T s3 ++ t /\ uuid_writes t = []
    /\ central (wld s') = central (wld s3)
    /\ R_attrs (after (EvCall "install") s2) s'.
Proof.
  intros H Hin.
  apply release_shape in H as (r1 & s1 & H1 & H).
  pose proof (pre_build_run _ _ _ _ H1) as ((t_pre & Ht1 & Hf1) & Hc1 & Hprep & _).
  rewrite T_after in Ht1. unfold T at 2 in Ht1. simpl in Ht1.
  rewrite central_after in Hc1. simpl in Hc1.
  assert (Hpre : ~ In (EvCall "install") t_pre).
  { intros Hi. rewrite Forall_forall in Hf1. apply Hf1 in Hi.
    simpl in Hi. destruct Hi; discriminate. }
  destruct r1 as [[]|e].
  2:{ destruct H as [_ ->]. exfalso. rewrite Ht1 in Hin. absent Hin. }
  specialize (Hprep eq_refl). rewrite central_after in Hprep. simpl in Hprep.
  destruct H as (r2 & s2 & H2 & H).
  pose proof (trace_build _ _ _ _ H2) as (t_build & Ht2 & Hf2).
  pose proof (attrs_build _ _ _ _ H2) as Ha2.
  pose proof (central_build _ _ _ _ H2) as Hc2.
  rewrite T_after in Ht2. unfold R_central in Hc2. rewrite central_after in Hc2.
  assert (Hb : ~ In (EvCall "install") t_build).
  { intros Hi. rewrite Forall_forall in Hf2. now apply Hf2 in Hi. }
  destruct r2 as [[]|e].
  2:{ destruct H as [_ ->]. exfalso. rewrite Ht2, Ht1 in Hin. absent Hin. }
  destruct H as (r3 & s3 & H3 & H).
  exists s2, r3, s3.
  assert (Hprep2 : prepared c (after (EvCall "install") s2)).
  { destruct Hprep as (md & prd & vs & P1 & P2 & P3 & P4 & P5 & P6 & P7).
    destruct Ha2 as (A1 & A2 & A3 & A4 & A5).
    rewrite self_after in A1, A2, A3, A4, A5.
    exists md, prd, vs. rewrite self_after. unfold uuid_known in *.
    rewrite A1, A2, A3, A4, A5. auto 10. }
  assert (Hw2 : uuid_writes (T (after (EvCall "install") s2)) = []).
  { rewrite T_after, Ht2, Ht1. simpl. rewrite !uuid_writes_app. simpl.
    rewrite (no_uuid_pre _ Hf1), (no_uuid_build _ Hf2). reflexivity. }
  pose proof (attrs_install _ _ _ _ H3) as Ha3.
  destruct r3 as [[]|e].
  - pose proof (trace_post_install _ _ _ _ H) as (t_post & Ht4 & Hf4).
    pose proof (central_post_install _ _ _ _ H) as Hc4.
    pose proof (attrs_post_install _ _ _ _ H) as Ha4.
    rewrite T_after in Ht4. unfold R_central in Hc4.
    rewrite central_after in Hc4.
    exists ([EvCall "post_install"] ++ t_post).
    split; [assumption|]. split; [rewrite central_after; congruence|].
    split; [assumption|]. split; [assumption|].
    split; [rewrite Ht4; now rewrite <- app_assoc|].
    split; [simpl; now apply no_uuid_post|].
    split; [assumption|].
    eapply R_attrs_trans; [exact Ha3|exact Ha4].
  - destruct H as [_ ->]. exists [].
    split; [assumption|]. split; [rewrite central_after; congruence|].
    split; [assumption|]. split; [assumption|].
    split; [now rewrite app_nil_r|].
    split; [reflexivity|]. split; [reflexivity|exact Ha3].
Qed.

(** A run that never enters the install phase writes no marker and
    leaves the family directory as it was. *)
Lemma release_without_install m cm nj bt anl o c ex r s' :
  release E m cm nj bt anl (start o c ex) = (r, s') ->
  ~ In (EvCall "install") (T s') ->
  uuid_writes (T s') = [] /\ central (wld s') = c /\ exists e, r = Raise e.
Proof.
  intros H Hnin.
  apply release_shape in H as (r1 & s1 & H1 & H).
  pose proof (pre_build_run _ _ _ _ H1) as ((t_pre & Ht1 & Hf1) & Hc1 & _ & _).
  rewrite T_after in Ht1. unfold T at 2 in Ht1. simpl in Ht1.
  rewrite central_after in Hc1. simpl in Hc1.
  destruct r1 as [[]|e].
  2:{ destruct H as [-> ->]. rewrite Ht1. simpl.
      rewrite (no_uuid_pre _ Hf1). eauto. }
  destruct H as (r2 & s2 & H2 & H).
  pose proof (trace_build _ _ _ _ H2) as (t_build & Ht2 & Hf2).
  pose proof (central_build _ _ _ _ H2) as Hc2.
  rewrite T_after in Ht2. unfold R_central in Hc2. rewrite central_after in Hc2.
  destruct r2 as [[]|e].
  2:{ destruct H as [-> ->]. rewrite Ht2, Ht1. simpl.
      rewrite !uuid_writes_app. simpl.
      rewrite (no_uuid_pre _ Hf1), (no_uuid_build _ Hf2).
      split; [reflexivity|]. split; [congruence|eauto]. }
  exfalso. destruct H as (r3 & s3 & H3 & H).
  pose proof (trace_install _ _ _ _ H3) as (t_inst & Ht3 & _).
  rewrite T_after in Ht3.
  assert (Hin3 : In (EvCall "install") (T s3)).
  { rewrite Ht3. apply in_or_app. left. apply in_or_app. right. now left. }
  destruct r3 as [[]|e].
  - pose proof (trace_post_install _ _ _ _ H) as (t_post & Ht4 & _).
    rewrite T_after in Ht4. apply Hnin. rewrite Ht4.
    apply in_or_app. left. apply in_or_app. now left.
  - destruct H as [_ ->]. now apply Hnin.
Qed.

Lemma event_eq_dec (a b : event) : {a = b} + {a <> b}.
Proof.
  pose proof (list_eq_dec string_dec) as Hl.
  decide equality; auto using string_dec, Z.eq_dec, Nat.eq_dec.
Qed.

(** The uuid marker, where the protocol holds.  (a) When the central
    [package.uuid] can be read and its stripped
    contents differ from the uuid of the metadata, the release raises
    during [pre_build]: the build phase is not entered, nothing is
    written, and once the metadata has loaded and the release path is set
    the error is the uuid error.  (b) At the first release of a family,
    when the family directory does not exist, [check_uuid] raises nothing;
    if the install phase is entered it first makes the family directory
    and writes the marker, with the uuid of the metadata, and that is the
    only write of the marker in the run.  (c) When the family directory
    exists, with or without a marker, the run writes no marker and leaves
    the directory as it was. *)
Theorem uuid_marker_protocol
  (m : mode) (cm : option string) (nj : nat) (bt : string) (anl : bool)
  (o : self_t) (c : family_dir) (ex : string -> bool) (r : result unit)
  (s' : st) :
  release E m cm nj bt anl (start o c ex) = (r, s') ->
  (forall f,
      c = Dir (Some f) -> uf_readable f = true ->
      (forall p md, ConfigMetadata E p = Ok md ->
                    Py.strip (uf_content f) <> md_uuid md) ->
      (exists e, r = Raise e)
      /\ T s' = [EvCall "pre_build"]
      /\ central (wld s') = c
      /\ (forall md s1 c0 r0,
            get_metadata E m
              (after (EvCall "pre_build")
                 (with_self (set_release_args cm nj bt anl) (start o c ex)))
            = (Ok md, s1) ->
            getenv E REZ_RELEASE_PATH_ENV_VAR = Some (String c0 r0) ->
            r = Raise (uuid_mismatch_error
                         (Py.path_join
                            (Py.path_join (String c0 r0) (md_name md))
                            "package.uuid"))))
  /\ (c = NoDir ->
      (forall s puf md,
          central (wld s) = NoDir -> metadata (self s) = Some md ->
          check_uuid puf s = (Ok false, s))
      /\ (In (EvCall "install") (T s') ->
          exists md prd t0 t1,
            metadata (self s') = Some md
            /\ pkg_release_dir (self s') = Some prd
            /\ T s' = t0 ++ [EvCall "install"; EvMakeFamilyDir prd;
                             EvWriteUuid (Py.path_join prd "package.uuid")
                               (md_uuid md)] ++ t1
            /\ uuid_writes t0 = [] /\ uuid_writes t1 = []
            /\ uuid_writes (T s')
               = [(Py.path_join prd "package.uuid", md_uuid md)]
            /\ central (wld s')
               = Dir (Some {| uf_content := md_uuid md;
                              uf_readable := true |})))
  /\ (forall d, c = Dir d -> uuid_writes (T s') = [] /\ central (wld s') = c).
Proof.
  intros H. split; [|split].
  - (* (a) *)
    intros f -> Hr Hne.
    apply release_shape in H as (r1 & s1 & H1 & H).
    pose proof (pre_build_run _ _ _ _ H1) as (_ & Hc1 & _ & Hmis).
    rewrite central_after in Hc1. simpl in Hc1.
    destruct (Hmis f eq_refl Hr Hne) as (Ht & (e & ->) & Hprecise).
    destruct H as [-> ->].
    split; [eauto|]. split; [exact Ht|]. split; [exact Hc1|].
    exact Hprecise.
  - (* (b) *)
    intros ->. split.
    + intros s puf md Hc Hmd. rewrite (check_uuid_eq _ _ md Hmd).
      unfold check_uuid_result. now rewrite Hc.
    + intros Hin.
      destruct (release_reaches_install _ _ _ _ _ _ _ _ _ _ H Hin)
        as (s2 & r3 & s3 & t & Hprep & Hc2 & Hw2 & H3 & Ht & Hwt & Hcs & Ha).
      destruct Hprep as (md & prd & vs & P1 & P2 & P3 & P4 & _ & _ & _).
      assert (P4' : uuid_known (self (after (EvCall "install") s2)) = false)
        by exact P4.
      destruct (install_first _ _ _ _ _ _ _ P4' Hc2 P2 P3 P1 H3)
        as (s1 & Ht1 & Hc1 & _ & Hiv).
      apply install_variants_run in Hiv as (evs & Hte & Hfe & Hce & _).
      destruct Ha as (A1 & A2 & _).
      exists md, prd, (T s2), (evs ++ t).
      split; [congruence|]. split; [congruence|].
      assert (Hw0 : uuid_writes (T s2) = []).
      { rewrite T_after, uuid_writes_app in Hw2. simpl in Hw2.
        now rewrite app_nil_r in Hw2. }
      assert (Hw1 : uuid_writes (evs ++ t) = []).
      { rewrite uuid_writes_app, (no_uuid_variants _ Hfe), Hwt. reflexivity. }
      assert (Heq : T s' = T s2 ++ [EvCall "install"; EvMakeFamilyDir prd;
                                    EvWriteUuid (Py.path_join prd "package.uuid")
                                      (md_uuid md)] ++ evs ++ t).
      { rewrite Ht, Hte, Ht1, T_after. repeat rewrite <- app_assoc.
        reflexivity. }
      split; [exact Heq|]. split; [exact Hw0|]. split; [exact Hw1|].
      split.
      * rewrite Heq, uuid_writes_app, Hw0. simpl. now rewrite Hw1.
      * congruence.
  - (* (c) *)
    intros d ->.
    destruct (in_dec event_eq_dec (EvCall "install") (T s')) as [Hin|Hnin].
    + destruct (release_reaches_install _ _ _ _ _ _ _ _ _ _ H Hin)
        as (s2 & r3 & s3 & t & Hprep & Hc2 & Hw2 & H3 & Ht & Hwt & Hcs & _).
      destruct Hprep as (md & prd & vs & _ & _ & _ & P4 & _ & _ & _).
      destruct (uuid_known (self (after (EvCall "install") s2))) eqn:Hk.
      * apply (install_existing _ _ _ _ Hk) in H3.
        apply install_variants_run in H3 as (evs & Hte & Hfe & Hce & _).
        split; [|congruence].
        rewrite Ht, Hte, !uuid_writes_app, Hw2, (no_uuid_variants _ Hfe), Hwt.
        reflexivity.
      * destruct (install_blocked _ _ _ _ _ Hk Hc2 H3) as [-> _].
        split; [|congruence].
        rewrite Ht, uuid_writes_app, Hw2, Hwt. reflexivity.
    + destruct (release_without_install _ _ _ _ _ _ _ _ _ _ H Hnin)
        as (Hw & Hc & _).
      now split.
Qed.

(** *** A family directory without a readable marker *)

(** The marker is not known to exist and the family directory is there:
    the error of [install] is the one of [os.makedirs]. *)
Lemma install_blocked_error m s prd d :
  uuid_known (self s) = false ->
  central (wld s) = Dir d ->
  pkg_release_dir (self s) = Some prd ->
  install E m s
  = (Raise (OSError ("[Errno 17] File exists: '" ++ prd ++ "'")%string), s).
Proof.
  intros Hk Hc Hprd. unfold uuid_known in Hk.
  cbv [install bind attr getattr makedirs_central world_get raise].
  rewrite Hk. cbn [negb]. rewrite Hprd, Hc. reflexivity.
Qed.

(** The install phase of a run that enters it, and what its failure does
    to the run. *)
Lemma release_install_outcome m cm nj bt anl o c ex r s' :
  release E m cm nj bt anl (start o c ex) = (r, s') ->
  In (EvCall "install") (T s') ->
  exists s2 r3 s3,
    prepared c (after (EvCall "install") s2)
    /\ central (wld (after (EvCall "install") s2)) = c
    /\ install E m (after (EvCall "install") s2) = (r3, s3)
    /\ (forall e, r3 = Raise e -> r = Raise e /\ s' = s3).
Proof.
  intros H Hin.
  apply release_shape in H as (r1 & s1 & H1 & H).
  pose proof (pre_build_run _ _ _ _ H1) as ((t_pre & Ht1 & Hf1) & Hc1 & Hprep & _).
  rewrite T_after in Ht1. unfold T at 2 in Ht1. simpl in Ht1.
  rewrite central_after in Hc1. simpl in Hc1.
  assert (Hpre : ~ In (EvCall "install") t_pre).
  { intros Hi. rewrite Forall_forall in Hf1. apply Hf1 in Hi.
    simpl in Hi. destruct Hi; discriminate. }
  destruct r1 as [[]|e].
  2:{ destruct H as [_ ->]. exfalso. rewrite Ht1 in Hin. absent Hin. }
  specialize (Hprep eq_refl). rewrite central_after in Hprep. simpl in Hprep.
  destruct H as (r2 & s2 & H2 & H).
  pose proof (trace_build _ _ _ _ H2) as (t_build & Ht2 & Hf2).
  pose proof (attrs_build _ _ _ _ H2) as Ha2.
  pose proof (central_build _ _ _ _ H2) as Hc2.
  rewrite T_after in Ht2. unfold R_central in Hc2. rewrite central_after in Hc2.
  assert (Hb : ~ In (EvCall "install") t_build).
  { intros Hi. rewrite Forall_forall in Hf2. now apply Hf2 in Hi. }
  destruct r2 as [[]|e].
  2:{ destruct H as [_ ->]. exfalso. rewrite Ht2, Ht1 in Hin. absent Hin. }
  destruct H as (r3 & s3 & H3 & H).
  exists s2, r3, s3.
  split.
  { destruct Hprep as (md & prd & vs & P1 & P2 & P3 & P4 & P5 & P6 & P7).
    destruct Ha2 as (A1 & A2 & A3 & A4 & A5).
    rewrite self_after in A1, A2, A3, A4, A5.
    exists md, prd, vs. rewrite self_after. unfold uuid_known in *.
    rewrite A1, A2, A3, A4, A5. auto 10. }
  split; [rewrite central_after; congruence|].
  split; [exact H3|].
  intros e ->. exact H.
Qed.

(** A release over a family directory that exists but holds no readable
    [package.uuid]: [check_uuid] takes the marker for missing and raises
    nothing, the variants are built, and the install phase then fails in
    [os.makedirs], on its first action.  The marker is never written, no
    variant is installed, and the run never succeeds. *)
Lemma release_over_unmarked_directory m cm nj bt anl o d ex r s' :
  release E m cm nj bt anl (start o (Dir d) ex) = (r, s') ->
  is_ok (read_uuid_file (Dir d)) = false ->
  (exists e, r = Raise e)
  /\ uuid_writes (T s') = []
  /\ central (wld s') = Dir d
  /\ (In (EvCall "install") (T s') ->
      exists prd t,
        pkg_release_dir (self s') = Some prd
        /\ r = Raise (OSError ("[Errno 17] File exists: '" ++ prd ++ "'")%string)
        /\ T s' = t ++ [EvCall "install"]).
Proof.
  intros H Hno.
  assert (Hin_case : In (EvCall "install") (T s') ->
            exists prd t,
              pkg_release_dir (self s') = Some prd
              /\ r = Raise (OSError ("[Errno 17] File exists: '" ++ prd ++ "'")%string)
              /\ T s' = t ++ [EvCall "install"]).
  { intros Hin.
    destruct (release_install_outcome _ _ _ _ _ _ _ _ _ _ H Hin)
      as (s2 & r3 & s3 & Hprep & Hc2 & H3 & Hr).
    destruct Hprep as (md & prd & vs & _ & P2 & _ & P4 & _ & _ & _).
    rewrite Hno in P4.
    rewrite (install_blocked_error _ _ prd d P4 Hc2 P2) in H3.
    injection H3 as <- <-.
    destruct (Hr _ eq_refl) as [-> ->].
    exists prd, (T s2). split; [exact P2|]. split; [reflexivity|].
    apply T_after. }
  destruct (uuid_marker_protocol m cm nj bt anl o (Dir d) ex r s' H)
    as (_ & _ & Hc).
  destruct (Hc d eq_refl) as [Hw Hcen].
  split; [|split; [exact Hw|split; [exact Hcen|exact Hin_case]]].
  destruct (in_dec event_eq_dec (EvCall "install") (T s')) as [Hin|Hnin].
  - destruct (Hin_case Hin) as (prd & t & _ & -> & _). eauto.
  - destruct (release_without_install _ _ _ _ _ _ _ _ _ _ H Hnin)
      as (_ & _ & He).
    exact He.
Qed.

(** *** Runs that cannot succeed *)

Section Doomed.

(** [Inv] holds of the state, and the events of the run satisfy [P]. *)
Variable Inv : st -> Prop.
Variable P : event -> Prop.

(** The action raises from every state that satisfies [Inv]. *)
Definition doomed {A} (m : M st A) : Prop :=
  forall s r s', Inv s -> m s = (r, s') ->
    (exists e, r = Raise e) /\ R_trace P s s'.

(** The action keeps [Inv], and what it returns satisfies [Q]. *)
Definition keeps {A} (Q : A -> Prop) (m : M st A) : Prop :=
  forall s r s', Inv s -> m s = (r, s') ->
    Inv s' /\ R_trace P s s' /\ (forall a, r = Ok a -> Q a).

Lemma doomed_raise {A} e : doomed (@raise st A e).
Proof.
  intros s r s' _ [= <- <-]. split; [eauto|apply R_trace_refl].
Qed.

Lemma doomed_bind_l {A B} (m : M st A) (f : A -> M st B) :
  doomed m -> doomed (bind m f).
Proof.
  intros Hm s r s' Hi H.
  apply bind_inv in H as [(e & H & ->) | (a & s1 & H1 & H2)].
  - split; [eauto|]. now apply (Hm _ _ _ Hi H).
  - destruct (Hm _ _ _ Hi H1) as [[e [=]] _].
Qed.

Lemma doomed_bind_r {A B} (Q : A -> Prop) (m : M st A) (f : A -> M st B) :
  keeps Q m -> (forall a, Q a -> doomed (f a)) -> doomed (bind m f).
Proof.
  intros Hm Hf s r s' Hi H.
  apply bind_inv in H as [(e & H & ->) | (a & s1 & H1 & H2)].
  - split; [eauto|]. now apply (Hm _ _ _ Hi H).
  - destruct (Hm _ _ _ Hi H1) as (Hi1 & Ht1 & Hq).
    destruct (Hf a (Hq a eq_refl) _ _ _ Hi1 H2) as [He Ht2].
    split; [exact He|]. eapply R_trace_trans; eassumption.
Qed.

Lemma keeps_of_pres {A} (R : st -> st -> Prop) (m : M st A) :
  (forall s s', R s s' -> Inv s -> Inv s') ->
  preserves R m -> preserves (R_trace P) m -> keeps (fun _ => True) m.
Proof.
  intros HR H1 H2 s r s' Hi H.
  split; [exact (HR _ _ (H1 _ _ _ H) Hi)|]. split; [exact (H2 _ _ _ H)|auto].
Qed.

End Doomed.

(** The base class: [get_tag_meta_str] reads [self.tag_url], which only
    the svn class assigns. *)
Definition R_tag (s s' : st) : Prop := tag_url (self s') = tag_url (self s).

Lemma R_tag_refl s : R_tag s s.
Proof. reflexivity. Qed.
Lemma R_tag_trans a b c : R_tag a b -> R_tag b c -> R_tag a c.
Proof. unfold R_tag. congruence. Qed.
Lemma tag_emit e : preserves R_tag (emit e).
Proof. now intros s r s' [= _ <-]. Qed.
Lemma tag_set_local f : preserves R_tag (set_local f).
Proof. now intros s r s' [= _ <-]. Qed.
Lemma tag_set_central d : preserves R_tag (set_central d).
Proof. now intros s r s' [= _ <-]. Qed.
Lemma tag_assign f :
  (forall o, tag_url (f o) = tag_url o) -> preserves R_tag (assign f).
Proof. intros Hf s r s' [= _ <-]. apply Hf. Qed.

#[local] Hint Resolve R_tag_refl R_tag_trans tag_emit tag_set_local
  tag_set_central tag_assign : pres.

(** The events of a run up to the first build command. *)
Definition before_build_cmd (e : event) : Prop :=
  match e with
  | EvCall m => m <> "install" /\ m <> "post_install" /\ m <> "create_release_tag"
  | EvMakedirs _ | EvRemove _ | EvRmtree _ | EvWriteChangelog _ _
  | EvWriteCommitFile _ _ | EvEditor _ _ | EvCopySource _ => True
  | _ => False
  end.

Definition no_tag_url (s : st) : Prop := tag_url (self s) = None.

Lemma no_tag_url_kept s s' : R_tag s s' -> no_tag_url s -> no_tag_url s'.
Proof. unfold R_tag, no_tag_url. congruence. Qed.

Ltac open_hooks :=
  unfold get_metadata, validate_repostate, validate_version, _write_changelog,
    get_changelog, hg_get_changelog, copy_source, svn_get_metadata,
    base_get_metadata, svn_validate_repostate, hg_validate_repostate, hg_check,
    svn_validate_version, base_validate_version, last_tagged_version,
    get_last_tagged_version, svn_get_last_tagged_version,
    base_get_last_tagged_version, get_tags, svn_get_tags, hg_get_tags,
    svn_get_tag_url, svn_url_exists, has_patch_queue,
    check_uuid, message_text.

Lemma tag_pre_build_base : preserves R_tag (pre_build E BaseMode).
Proof.
  unfold pre_build, _get_commit_message. open_hooks. pres_tac.
Qed.

Lemma trace_before_build m :
  preserves (R_trace before_build_cmd) (pre_build E m).
Proof.
  unfold pre_build, _write_changelog, _get_commit_message. pres_tac.
Qed.

Ltac doomed_step Hkept :=
  eapply doomed_bind_r with (Q := fun _ => True);
  [ eapply keeps_of_pres;
    [ exact Hkept | solve [open_hooks; pres_tac] | solve [open_hooks; pres_tac] ]
  | intros ? _; cbv zeta ].

Lemma build_variant_base v i :
  doomed no_tag_url before_build_cmd (build_variant E BaseMode v i).
Proof.
  unfold build_variant.
  do 6 doomed_step no_tag_url_kept.
  apply doomed_bind_l. unfold get_build_cmd.
  apply doomed_bind_l. unfold cmd_options.
  apply doomed_bind_l. unfold get_tag_meta_str.
  intros s r s' Hi H. unfold getattr in H. rewrite Hi in H.
  injection H as <- <-. split; [eauto|apply R_trace_refl].
Qed.


(** The svn class: [validate_version] raises on its first line, so
    [pre_build] cannot return. *)
Definition any_state (s : st) : Prop := True.

Lemma any_state_kept s s' : R_trace pre_ev s s' -> any_state s -> any_state s'.
Proof. auto. Qed.

Ltac doomed_by R Hkept :=
  eapply doomed_bind_r with (Q := fun _ => True);
  [ eapply (keeps_of_pres _ _ R);
    [ exact Hkept | solve [open_hooks; pres_tac] | solve [open_hooks; pres_tac] ]
  | intros ? _; cbv zeta ].

Lemma pre_build_svn : doomed any_state pre_ev (pre_build E SvnMode).
Proof.
  unfold pre_build.
  do 2 doomed_by (R_trace pre_ev) any_state_kept.
  destruct (getenv E REZ_RELEASE_PATH_ENV_VAR) as [[|c0 r0]|];
    try apply doomed_raise.
  cbv zeta.
  do 17 doomed_by (R_trace pre_ev) any_state_kept.
  apply doomed_bind_l.
  intros s r s' _ H.
  unfold validate_version, svn_validate_version in H.
  unfold bind at 1 in H. unfold getattr at 1 in H.
  injection H as <- <-. split; [eauto|apply R_trace_refl].
Qed.


(** A commit message given to [release]: [pre_build] asks the environment
    for the editor only when the message is [None], and
    [_get_commit_message] runs the editor in every case. *)
Definition R_msg (s s' : st) : Prop :=
  editor (self s') = editor (self s)
  /\ (forall x, commit_message (self s) = Some (Some x) ->
                exists y, commit_message (self s') = Some (Some y)).

Lemma R_msg_refl s : R_msg s s.
Proof. split; eauto. Qed.
Lemma R_msg_trans a b c : R_msg a b -> R_msg b c -> R_msg a c.
Proof.
  intros [E1 M1] [E2 M2]. split; [congruence|].
  intros x Hx. destruct (M1 x Hx) as [y Hy]. exact (M2 y Hy).
Qed.
Lemma msg_emit e : preserves R_msg (emit e).
Proof. intros s r s' [= _ <-]. split; [reflexivity|eauto]. Qed.
Lemma msg_set_local f : preserves R_msg (set_local f).
Proof. intros s r s' [= _ <-]. split; [reflexivity|eauto]. Qed.
Lemma msg_set_central d : preserves R_msg (set_central d).
Proof. intros s r s' [= _ <-]. split; [reflexivity|eauto]. Qed.
Lemma msg_assign f :
  (forall o, editor (f o) = editor o) ->
  (forall o, commit_message (f o) = commit_message o) ->
  preserves R_msg (assign f).
Proof.
  intros He Hm s r s' [= _ <-]. split; [apply He|].
  intros x Hx. exists x. simpl. now rewrite Hm.
Qed.
Lemma msg_assign_message v :
  preserves R_msg (assign (set_commit_message (Some (Some v)))).
Proof. intros s r s' [= _ <-]. split; [reflexivity|]. intros x _. now exists v. Qed.

#[local] Hint Resolve R_msg_refl R_msg_trans msg_emit msg_set_local
  msg_set_central msg_assign msg_assign_message : pres.

Definition has_message (s : st) : Prop :=
  editor (self s) = None /\ exists x, commit_message (self s) = Some (Some x).

Lemma has_message_kept s s' : R_msg s s' -> has_message s -> has_message s'.
Proof.
  intros [He Hm] [Hn [x Hx]]. split; [congruence|exact (Hm x Hx)].
Qed.

Definition no_editor_error : exn :=
  TypeError "unsupported operand type(s) for +: 'NoneType' and 'str'".

(** Without an editor, [_get_commit_message] writes the message to the
    temporary file, fails to build the editor command, and removes the
    file. *)
Lemma get_commit_message_without_editor s bd x :
  base_dir (self s) = Some bd ->
  commit_message (self s) = Some (Some x) ->
  editor (self s) = None ->
  _get_commit_message E s
  = (Raise no_editor_error,
     after (EvRemove (Py.path_join bd RELEASE_COMMIT_FILE))
       (after (EvWriteCommitFile (Py.path_join bd RELEASE_COMMIT_FILE) x) s)).
Proof.
  intros Hbd Hcm Hed.
  cbv [_get_commit_message message_text bind getattr try_finally attr raise
       ret].
  rewrite Hbd, Hcm. cbn [emit modify with_wld self]. rewrite Hed.
  reflexivity.
Qed.

Lemma get_commit_message_doomed :
  doomed has_message pre_ev (_get_commit_message E).
Proof.
  intros s r s' [Hed [x Hcm]] H.
  destruct (base_dir (self s)) as [bd|] eqn:Hbd.
  - rewrite (get_commit_message_without_editor s bd x Hbd Hcm Hed) in H.
    injection H as <- <-. split; [eauto|].
    eexists. split; [rewrite !T_after, <- app_assoc; reflexivity|].
    repeat constructor.
  - unfold _get_commit_message in H. unfold bind at 1 in H.
    unfold getattr at 1 in H. rewrite Hbd in H. injection H as <- <-.
    split; [eauto|apply R_trace_refl].
Qed.

Ltac doomed_msg :=
  eapply doomed_bind_r with (Q := fun _ => True);
  [ eapply (keeps_of_pres _ _ R_msg);
    [ exact has_message_kept
    | solve [open_hooks; pres_tac] | solve [open_hooks; pres_tac] ]
  | intros ? _; cbv zeta ].

Lemma pre_build_with_message m : doomed has_message pre_ev (pre_build E m).
Proof.
  unfold pre_build.
  do 2 doomed_msg.
  destruct (getenv E REZ_RELEASE_PATH_ENV_VAR) as [[|c0 r0]|];
    try apply doomed_raise.
  cbv zeta.
  do 12 doomed_msg.
  eapply doomed_bind_r with (Q := fun cm => exists x, cm = Some x).
  { intros s r s' [Hed [x Hcm]] H. unfold getattr in H. rewrite Hcm in H.
    injection H as <- <-.
    split; [split; eauto|]. split; [apply R_trace_refl|].
    intros ? [= <-]. eauto. }
  intros cm [x ->]. cbv beta iota.
  do 6 doomed_msg.
  apply get_commit_message_doomed.
Qed.


End WithVersions.

End PipelineProps.

(** *** Runs of the pipeline on a mercurial working copy *)

Module PipelineRuns.

Import Release PipelineProps.

Definition configured (k : string) : option string :=
  if String.eqb k "REZ_RELEASE_PACKAGES_PATH" then Some "/central"
  else if String.eqb k "REZ_RELEASE_EDITOR" then Some "vi"
  else if String.eqb k "REZ_RELEASE_EMAIL_TO" then Some "team@example.org"
  else None.

(** Version 1.0.0 of a package with two variants. *)
Definition package : metadata_t :=
  {| md_version := "1.0.0"; md_name := "proj"; md_uuid := "7b0c-41aa";
     md_description := "A project."; md_authors := ["ann"];
     md_variants := [["python-2.6"]; ["python-2.7"]] |}.

(** A clean working copy tagged 0.9.0; every external command succeeds. *)
Definition all_well : environ :=
  Scenario.hg_repo "0.9.0" configured (Ok package) Scenario.sh_ok.

Definition hg_object : self_t (VA := DottedVersion.api) :=
  match hg_init all_well "/work/proj" with
  | Ok o => o
  | Raise _ => base_init all_well "/work/proj"
  end.

Definition nothing_local : string -> bool := fun _ => false.

(** The first release of the family. *)
Abbreviation first_release :=
  (release all_well HgMode None 4 "0" false (start hg_object NoDir nothing_local)).

(** A release over a family directory whose marker holds another uuid. *)
Definition other_family : family_dir :=
  Dir (Some {| uf_content := "e1f0-99c2" ++ Py.nl; uf_readable := true |}).

Abbreviation clashing_release :=
  (release all_well HgMode None 4 "0" false
     (start hg_object other_family nothing_local)).

(** The install of the second variant fails. *)
Definition second_install_fails : environ :=
  Scenario.hg_repo "0.9.0" configured (Ok package)
    (fun cmd =>
       if String.eqb cmd
            ("cd /work/proj/build/rez-release/1/ ; "
             ++ "rez-build -n -t 1234 -v 1 -s 5d2f1a -- -c -- install")
       then (1%Z, "") else (0%Z, "/central/proj/1.0.0")).

Abbreviation failed_release :=
  (release second_install_fails HgMode None 4 "0" false
     (start hg_object NoDir nothing_local)).

(** On the first release the pipeline completes and the tag call is the
    last event. *)
Example first_release_trace :
  fst first_release = Ok tt
  /\ T (snd first_release)
     = [EvCall "pre_build"; EvMakedirs "/work/proj/build/rez-release";
        EvCall "validate_repostate"; EvCall "validate_version";
        EvWriteCommitFile "/work/proj/build/rez-release/rez-release-commit.tmp" "";
        EvEditor "vi /work/proj/build/rez-release/rez-release-commit.tmp" 0;
        EvRemove "/work/proj/build/rez-release/rez-release-commit.tmp";
        EvCall "build";
        EvCopySource "/work/proj/build/rez-release/0";
        EvBuild 0 ("cd /work/proj/build/rez-release/0 ; "
                   ++ "rez-build -t 1234 -v 0 -s 5d2f1a -- -- -j4") 0;
        EvCopySource "/work/proj/build/rez-release/1";
        EvBuild 1 ("cd /work/proj/build/rez-release/1 ; "
                   ++ "rez-build -t 1234 -v 1 -s 5d2f1a -- -- -j4") 0;
        EvCall "install";
        EvMakeFamilyDir "/central/proj";
        EvWriteUuid "/central/proj/package.uuid" "7b0c-41aa";
        EvInstallPath 0 "cd /work/proj/build/rez-release/0/ ; rez-build -i -v 0" 0;
        EvInstall 0 ("cd /work/proj/build/rez-release/0/ ; "
                     ++ "rez-build -n -t 1234 -v 0 -s 5d2f1a -- -c -- install") 0;
        EvCheckInstalled "/central/proj/1.0.0";
        EvInstallPath 1 "cd /work/proj/build/rez-release/1/ ; rez-build -i -v 1" 0;
        EvInstall 1 ("cd /work/proj/build/rez-release/1/ ; "
                     ++ "rez-build -n -t 1234 -v 1 -s 5d2f1a -- -c -- install") 0;
        EvCheckInstalled "/central/proj/1.0.0";
        EvCall "post_install";
        EvWriteTimeMetafile "/central/proj/1.0.0/.metadata/release_time.txt"
          ("1234" ++ Py.nl);
        EvSendEmail
          "[rez] [release] unknown.user released proj-1.0.0 (2 variants)"
          "Release." ["team@example.org"];
        EvCall "create_release_tag"].
Proof. split; vm_compute; reflexivity. Qed.

(** When the install of the second variant fails, the first variant is
    installed, the error warns of a partial installation, and no tag is
    created. *)
Example failed_release_no_tag :
  fst failed_release = Raise (RezReleaseError install_failed)
  /\ In (EvCheckInstalled "/central/proj/1.0.0") (T (snd failed_release))
  /\ ~ In tag_call (T (snd failed_release)).
Proof.
  split; [vm_compute; reflexivity|]. split.
  - vm_compute. tauto.
  - vm_compute. intuition discriminate.
Qed.

(** C1 at the first release. *)
Lemma release_tags_last_run :
  exists vs t_pre t_build t_install f text t_mail,
    variants (self (snd first_release)) = Some vs /\ vs <> []
    /\ T (snd first_release)
       = EvCall "pre_build" :: t_pre
         ++ EvCall "build" :: t_build
         ++ EvCall "install" :: t_install
         ++ EvCall "post_install" :: EvWriteTimeMetafile f text :: t_mail
         ++ [tag_call]
    /\ Forall pre_ev t_pre
    /\ Forall built_ok t_build
    /\ Forall central_ok t_install
    /\ Forall mail_ev t_mail
    /\ (forall i, i < length vs -> exists cmd, In (EvBuild i cmd 0) t_build)
    /\ (forall i, i < length vs -> exists cmd, In (EvInstall i cmd 0) t_install).
Proof.
  apply (release_tags_last all_well HgMode None 4 "0" false hg_object NoDir
           nothing_local (fst first_release) (snd first_release)).
  - exact (surjective_pairing first_release).
  - vm_compute. tauto.
Defined.

(** The protocol at the first release and at a release over another
    family's marker. *)
Lemma uuid_marker_protocol_run :
  (exists md prd t0 t1,
      metadata (self (snd first_release)) = Some md
      /\ pkg_release_dir (self (snd first_release)) = Some prd
      /\ T (snd first_release)
         = (t0 ++ [EvCall "install"; EvMakeFamilyDir prd;
                   EvWriteUuid (Py.path_join prd "package.uuid") (md_uuid md)]
               ++ t1)%list
      /\ uuid_writes t0 = [] /\ uuid_writes t1 = []
      /\ uuid_writes (T (snd first_release))
         = [(Py.path_join prd "package.uuid", md_uuid md)]
      /\ central (wld (snd first_release))
         = Dir (Some {| uf_content := md_uuid md; uf_readable := true |}))
  /\ ((exists e, fst clashing_release = Raise e)
      /\ T (snd clashing_release) = [EvCall "pre_build"]
      /\ central (wld (snd clashing_release)) = other_family).
Proof.
  split.
  - destruct (uuid_marker_protocol all_well HgMode None 4 "0" false hg_object
                NoDir nothing_local (fst first_release) (snd first_release)
                (surjective_pairing first_release)) as (_ & Hb & _).
    apply (Hb eq_refl). vm_compute. tauto.
  - destruct (uuid_marker_protocol all_well HgMode None 4 "0" false hg_object
                other_family nothing_local (fst clashing_release)
                (snd clashing_release) (surjective_pairing clashing_release))
      as (Ha & _).
    destruct (Ha _ eq_refl eq_refl) as (H1 & H2 & H3 & _).
    + intros p md [= <-]. vm_compute. discriminate.
    + auto.
Defined.

Example clashing_release_error :
  fst clashing_release
  = Raise (uuid_mismatch_error "/central/proj/package.uuid").
Proof. vm_compute. reflexivity. Qed.

(** A family directory that exists and holds no [package.uuid]. *)
Definition unmarked_family : family_dir := Dir None.

Abbreviation blocked_release :=
  (release all_well HgMode None 4 "0" false
     (start hg_object unmarked_family nothing_local)).

(** C3.  The claim fails where the family directory exists and no uuid
    marker does.  No marker exists yet, and as the claim says [check_uuid]
    raises nothing: it records that the marker is missing.  Both variants
    are then built.  But the install phase does not write the marker: it
    calls [os.makedirs] on the family directory, which is there, and the
    release ends with [OSError] on the first action of the phase.  The
    trace holds no write of the marker and no installation, and the
    directory is left without its marker, so every later release of the
    family fails the same way. *)
Theorem marker_not_written_in_existing_directory :
  package_uuid_exists (self (snd blocked_release)) = Some false
  /\ fst blocked_release
     = Raise (OSError "[Errno 17] File exists: '/central/proj'")
  /\ T (snd blocked_release)
     = [EvCall "pre_build"; EvMakedirs "/work/proj/build/rez-release";
        EvCall "validate_repostate"; EvCall "validate_version";
        EvWriteCommitFile "/work/proj/build/rez-release/rez-release-commit.tmp" "";
        EvEditor "vi /work/proj/build/rez-release/rez-release-commit.tmp" 0;
        EvRemove "/work/proj/build/rez-release/rez-release-commit.tmp";
        EvCall "build";
        EvCopySource "/work/proj/build/rez-release/0";
        EvBuild 0 ("cd /work/proj/build/rez-release/0 ; "
                   ++ "rez-build -t 1234 -v 0 -s 5d2f1a -- -- -j4") 0;
        EvCopySource "/work/proj/build/rez-release/1";
        EvBuild 1 ("cd /work/proj/build/rez-release/1 ; "
                   ++ "rez-build -t 1234 -v 1 -s 5d2f1a -- -- -j4") 0;
        EvCall "install"]
  /\ uuid_writes (T (snd blocked_release)) = []
  /\ central (wld (snd blocked_release)) = unmarked_family.
Proof. repeat split; vm_compute; reflexivity. Qed.

(** The same for every run over such a directory, at this one. *)
Example blocked_release_general :
  (exists e, fst blocked_release = Raise e)
  /\ uuid_writes (T (snd blocked_release)) = []
  /\ central (wld (snd blocked_release)) = unmarked_family.
Proof.
  destruct (release_over_unmarked_directory all_well HgMode None 4 "0" false
              hg_object None nothing_local (fst blocked_release)
              (snd blocked_release) (surjective_pairing blocked_release)
              eq_refl) as (H1 & H2 & H3 & _).
  auto.
Qed.

(** *** Runs that cannot succeed *)

(** The same release with the base class. *)
Abbreviation base_release :=
  (release all_well BaseMode None 4 "0" false
     (start (base_init (VA := DottedVersion.api) all_well "/work/proj")
        NoDir nothing_local)).


Example base_release_error :
  fst base_release = Raise (AttributeError "tag_url")
  /\ T (snd base_release)
     = [EvCall "pre_build"; EvMakedirs "/work/proj/build/rez-release";
        EvCall "validate_repostate"; EvCall "validate_version";
        EvWriteCommitFile "/work/proj/build/rez-release/rez-release-commit.tmp" "";
        EvEditor "vi /work/proj/build/rez-release/rez-release-commit.tmp" 0;
        EvRemove "/work/proj/build/rez-release/rez-release-commit.tmp";
        EvCall "build";
        EvCopySource "/work/proj/build/rez-release/0"].
Proof. split; vm_compute; reflexivity. Qed.

(** An svn working copy of [http://svn/proj/trunk] with the package file
    under version control and every command succeeding. *)
Definition svn_all_well : environ :=
  Scenario.environment configured (Ok package) Scenario.no_dirs Scenario.sh_ok
    (Ok tt) (fun _ => Ok 1) Scenario.no_ls Scenario.no_hg.

Definition svn_object : self_t (VA := DottedVersion.api) :=
  match svn_init svn_all_well "/work/proj" with
  | Ok o => o
  | Raise _ => base_init svn_all_well "/work/proj"
  end.

Abbreviation svn_release :=
  (release svn_all_well SvnMode None 4 "0" false
     (start svn_object NoDir nothing_local)).


Example svn_release_error :
  fst svn_release = Raise (AttributeError "version")
  /\ T (snd svn_release)
     = [EvCall "pre_build"; EvMakedirs "/work/proj/build/rez-release";
        EvCall "validate_repostate"; EvCall "validate_version"].
Proof. split; vm_compute; reflexivity. Qed.

(** The first release, with the commit message given. *)
Abbreviation release_with_message :=
  (release all_well HgMode (Some "Release 1.0.0") 4 "0" false
     (start hg_object NoDir nothing_local)).


Example release_with_message_error :
  fst release_with_message = Raise no_editor_error
  /\ T (snd release_with_message)
     = [EvCall "pre_build"; EvMakedirs "/work/proj/build/rez-release";
        EvCall "validate_repostate"; EvCall "validate_version";
        EvWriteCommitFile "/work/proj/build/rez-release/rez-release-commit.tmp"
          "Release 1.0.0";
        EvRemove "/work/proj/build/rez-release/rez-release-commit.tmp"].
Proof. split; vm_compute; reflexivity. Qed.

End PipelineRuns.

(* ------------------------------------------------------------------ *)
(** ** Properties of the git plugin *)

Module GitProps.

Import Git.

#[local] Arguments Py.str_nat : simpl never.
#[local] Arguments Py.int : simpl never.
#[local] Arguments Py.split : simpl never.

(** *** Strings *)

(** [s] has no occurrence of the character [c]. *)
Fixpoint lacks (c : ascii) (s : string) : bool :=
  match s with
  | EmptyString => true
  | String a r => negb (Ascii.eqb a c) && lacks c r
  end.

Definition is_digit (c : ascii) : bool :=
  ((48 <=? nat_of_ascii c) && (nat_of_ascii c <=? 57))%nat.

Fixpoint all_digits (s : string) : bool :=
  match s with
  | EmptyString => true
  | String a r => is_digit a && all_digits r
  end.

Fixpoint no_space (s : string) : bool :=
  match s with
  | EmptyString => true
  | String a r => negb (Py.is_space a) && no_space r
  end.

Lemma append_assoc (a b c : string) : ((a ++ b) ++ c = a ++ (b ++ c))%string.
Proof. induction a as [|x a IH]; simpl; [reflexivity|now rewrite IH]. Qed.

Lemma append_nil_r (a : string) : (a ++ "")%string = a.
Proof. induction a as [|x a IH]; simpl; [reflexivity|now rewrite IH]. Qed.

Lemma lacks_app c a b : lacks c (a ++ b) = lacks c a && lacks c b.
Proof.
  induction a as [|x a IH]; simpl; [reflexivity|].
  now rewrite IH, andb_assoc.
Qed.

Lemma digits_decimal d : all_digits (NilEmpty.string_of_uint d) = true.
Proof. induction d; simpl; try rewrite IHd; reflexivity. Qed.

Lemma str_nat_digits n : all_digits (Py.str_nat n) = true.
Proof.
  unfold Py.str_nat, NilZero.string_of_uint.
  destruct (Nat.to_uint n); try apply digits_decimal. reflexivity.
Qed.

Lemma str_nat_nonempty n : Py.str_nat n <> "".
Proof.
  unfold Py.str_nat, NilZero.string_of_uint.
  destruct (Nat.to_uint n); simpl; discriminate.
Qed.

Lemma digits_lack c s :
  is_digit c = false -> all_digits s = true -> lacks c s = true.
Proof.
  intros Hc. induction s as [|a r IH]; simpl; [reflexivity|].
  intros H. apply andb_prop in H as [Ha Hr]. rewrite (IH Hr), andb_true_r.
  destruct (Ascii.eqb a c) eqn:Heq; [|reflexivity].
  apply Ascii.eqb_eq in Heq. subst a. congruence.
Qed.

Lemma digit_not_space a : is_digit a = true -> Py.is_space a = false.
Proof.
  unfold is_digit, Py.is_space. intros H.
  apply andb_prop in H as [H1 H2].
  apply Nat.leb_le in H1. apply Nat.leb_le in H2.
  repeat match goal with
         | |- context [(?x =? ?y)%nat] =>
             destruct (Nat.eqb_spec x y); [lia|]
         end.
  reflexivity.
Qed.

Lemma digits_no_space s : all_digits s = true -> no_space s = true.
Proof.
  induction s as [|a r IH]; simpl; [reflexivity|].
  intros H. apply andb_prop in H as [Ha Hr].
  now rewrite (digit_not_space _ Ha), (IH Hr).
Qed.

(** The pattern finds nothing in a text without opening bracket. *)
Lemma findall_skip p s :
  lacks "[" p = true ->
  findall_bracketed None (p ++ s) = findall_bracketed None s.
Proof.
  induction p as [|a p IH]; simpl; [reflexivity|].
  intros H. apply andb_prop in H as [Ha Hp].
  destruct (Ascii.eqb a "["); [discriminate|]. now apply IH.
Qed.

(** A run without closing bracket is read up to the bracket that closes
    it. *)
Lemma findall_run w : forall run rest,
  lacks "]" w = true ->
  findall_bracketed (Some run) (w ++ String "]" rest)
  = match (run ++ w)%string with
    | EmptyString => findall_bracketed None rest
    | tok => tok :: findall_bracketed None rest
    end.
Proof.
  induction w as [|a w IH]; intros run rest H; simpl.
  - rewrite append_nil_r. now destruct run.
  - simpl in H. apply andb_prop in H as [Ha Hw].
    destruct (Ascii.eqb a "]"); [discriminate|].
    rewrite (IH _ _ Hw). now rewrite append_assoc.
Qed.

Lemma split_on_whole c w : lacks c w = true -> Py.split_on c w = [w].
Proof.
  induction w as [|a w IH]; simpl; [reflexivity|].
  intros H. apply andb_prop in H as [Ha Hw].
  destruct (Ascii.eqb a c); [discriminate|]. now rewrite (IH Hw).
Qed.

Lemma split_on_head c w rest :
  lacks c w = true ->
  Py.split_on c (w ++ String c rest) = w :: Py.split_on c rest.
Proof.
  induction w as [|a w IH]; simpl.
  - now rewrite Ascii.eqb_refl.
  - intros H. apply andb_prop in H as [Ha Hw].
    destruct (Ascii.eqb a c); [discriminate|]. now rewrite (IH Hw).
Qed.

Lemma split_once_head c w rest :
  lacks c w = true ->
  Py.split_once c (w ++ String c rest) = [w; rest].
Proof.
  induction w as [|a w IH]; simpl.
  - now rewrite Ascii.eqb_refl.
  - intros H. apply andb_prop in H as [Ha Hw].
    destruct (Ascii.eqb a c); [discriminate|]. now rewrite (IH Hw).
Qed.

Lemma split_once_whole c w : lacks c w = true -> Py.split_once c w = [w].
Proof.
  induction w as [|a w IH]; simpl; [reflexivity|].
  intros H. apply andb_prop in H as [Ha Hw].
  destruct (Ascii.eqb a c); [discriminate|]. now rewrite (IH Hw).
Qed.

Lemma split_once_two c u : forall a b,
  Py.split_once c u = [a; b] -> u = (a ++ String c b)%string.
Proof.
  induction u as [|x u IH]; intros a b; simpl; [discriminate|].
  destruct (Ascii.eqb x c) eqn:Hx.
  - intros [= <- <-]. apply Ascii.eqb_eq in Hx. now subst.
  - destruct (Py.split_once c u) as [|w [|w' [|? ?]]]; try discriminate.
    intros [= <- <-]. simpl. now rewrite (IH w w' eq_refl).
Qed.

Lemma words_word w : forall cur,
  no_space w = true ->
  Py.words_aux (Some cur) w = [(cur ++ w)%string].
Proof.
  induction w as [|a w IH]; intros cur H; simpl.
  - now rewrite append_nil_r.
  - simpl in H. apply andb_prop in H as [Ha Hw].
    destruct (Py.is_space a); [discriminate|].
    rewrite (IH _ Hw). now rewrite append_assoc.
Qed.

Lemma split_two (w : string) :
  no_space w = true -> w <> "" ->
  forall label, no_space label = true -> label <> "" ->
  Py.split (label ++ " " ++ w) = [label; w].
Proof.
  intros Hw Hne label Hl Hlne. unfold Py.split.
  destruct label as [|a l]; [congruence|].
  simpl in Hl. apply andb_prop in Hl as [Ha Hl]. simpl.
  destruct (Py.is_space a); [discriminate|].
  assert (Hgen : forall l cur, no_space l = true ->
            Py.words_aux (Some cur) (l ++ " " ++ w)
            = [(cur ++ l)%string; w]).
  { clear -Hw Hne. induction l as [|b l IH]; intros cur H; simpl.
    - rewrite append_nil_r. destruct w as [|x w]; [congruence|].
      simpl in Hw. apply andb_prop in Hw as [Hx Hw]. simpl.
      destruct (Py.is_space x); [discriminate|].
      now rewrite (words_word _ _ Hw).
    - simpl in H. apply andb_prop in H as [Hb Hl].
      destruct (Py.is_space b); [discriminate|].
      rewrite (IH _ Hl). now rewrite append_assoc. }
  now rewrite (Hgen _ _ Hl).
Qed.

(** [int(str(n)) == n] *)
Lemma int_str_nat n : Py.int (Py.str_nat n) = Ok (Z.of_nat n).
Proof.
  assert (Hd : Py.int_digits (Py.str_nat n) = Ok (Z.of_nat n)).
  { unfold Py.int_digits, Py.str_nat.
    destruct (Nat.to_uint n) eqn:Hn;
      try (rewrite NilZero.usu by discriminate;
           rewrite <- Hn, DecimalNat.Unsigned.of_to; reflexivity).
    simpl. rewrite <- (DecimalNat.Unsigned.of_to n), Hn. reflexivity. }
  pose proof (str_nat_digits n) as Hall.
  destruct (Py.str_nat n) as [|a r] eqn:Hs; [exact Hd|].
  simpl in Hall. apply andb_prop in Hall as [Ha _].
  unfold Py.int.
  destruct a as [[] [] [] [] [] [] [] []]; try exact Hd; discriminate Ha.
Qed.


(** *** The commands the plugin runs *)

Section Plugin.

Variable cfg : settings.
Variable re_search : string -> string -> bool.

(** The repository once a command is recorded. *)
Definition logged (args : list string) (r : repo) : repo :=
  set_cmds (r_cmds r ++ [args])%list r.

Definition command_failed (args : list string) (err : string) : exn :=
  ReleaseVCSError ("command failed: git " ++ Py.join " " args ++ Py.nl ++ err).

Definition upstream_args : list string :=
  ["rev-parse"; "--abbrev-ref"; "--symbolic-full-name"; "@{u}"].

Lemma git_bare r :
  git ["rev-parse"; "--is-bare-repository"] r
  = (Ok [if r_bare r then "true" else "false"],
     logged ["rev-parse"; "--is-bare-repository"] r).
Proof. reflexivity. Qed.

Lemma git_upstream r :
  git upstream_args r
  = match r_upstream r with
    | Tracking u => (Ok [u], logged upstream_args r)
    | NoUpstream err =>
        (Raise (command_failed upstream_args err), logged upstream_args r)
    end.
Proof.
  unfold git, upstream_args, git_exec, git_rev_parse. simpl.
  destruct (r_upstream r); reflexivity.
Qed.

Lemma git_ls_files r :
  git ["ls-files"; "--other"; "--exclude-standard"] r
  = (Ok (r_untracked r), logged ["ls-files"; "--other"; "--exclude-standard"] r).
Proof. reflexivity. Qed.

Lemma git_porcelain r :
  git ["status"; "--porcelain"] r
  = (Ok (r_changes r), logged ["status"; "--porcelain"] r).
Proof. reflexivity. Qed.

Lemma git_head r :
  git ["rev-parse"; "--abbrev-ref"; "HEAD"] r
  = (Ok [r_branch r], logged ["rev-parse"; "--abbrev-ref"; "HEAD"] r).
Proof. reflexivity. Qed.

Lemma git_remote_update remote r :
  r_online r = true ->
  git ["remote"; "update"; remote] r
  = (Ok ["Fetching " ++ remote],
     logged ["remote"; "update"; remote]
       (set_distance (fst (r_fetch r)) (snd (r_fetch r)) r)).
Proof. intros H. unfold git. simpl. now rewrite H. Qed.

Lemma git_status_sb r :
  git ["status"; "--short"; "-b"] r
  = (Ok (status_header r :: r_changes r), logged ["status"; "--short"; "-b"] r).
Proof. reflexivity. Qed.

Lemma git_tag_list r :
  git ["tag"] r = (Ok (map fst (r_tags r)), logged ["tag"] r).
Proof. reflexivity. Qed.

(** *** The distance to the remote *)

(** What [get_relative_to_remote] is documented to return: "Negative is
    behind, positive in front, zero means we are matched to remote.  if we
    are both behind and ahead then only the ahead value will be
    reported." *)
Definition distance (ahead behind : nat) : Z :=
  match ahead, behind with
  | 0, 0 => 0%Z
  | S _, _ => Z.of_nat ahead
  | 0, S _ => (- Z.of_nat behind)%Z
  end.

Lemma lacks_digits c n : is_digit c = false -> lacks c (Py.str_nat n) = true.
Proof. intros H. apply digits_lack; [exact H|apply str_nat_digits]. Qed.

Lemma parse_ahead n rest :
  rest = "" \/ (exists x, rest = String "," x) ->
  parse_distance ("ahead " ++ Py.str_nat n ++ rest) = Ok (Z.of_nat n).
Proof.
  intros Hrest. unfold parse_distance.
  assert (Hsplit : Py.first (Py.split_on "," ("ahead " ++ Py.str_nat n ++ rest))
                   = Ok ("ahead " ++ Py.str_nat n)).
  { assert (Hl : lacks "," ("ahead " ++ Py.str_nat n) = true).
    { rewrite lacks_app, lacks_digits; reflexivity. }
    destruct Hrest as [-> | [x ->]].
    - rewrite append_nil_r. now rewrite (split_on_whole _ _ Hl).
    - rewrite <- append_assoc. now rewrite (split_on_head _ _ _ Hl). }
  rewrite Hsplit.
  assert (Hs : Py.split ("ahead " ++ Py.str_nat n) = ["ahead"; Py.str_nat n]).
  { apply (split_two (Py.str_nat n)
             (digits_no_space _ (str_nat_digits n)) (str_nat_nonempty n)
             "ahead"); [reflexivity|discriminate]. }
  cbn [rbind]. rewrite Hs. simpl. now rewrite int_str_nat.
Qed.

Lemma parse_behind n :
  parse_distance ("behind " ++ Py.str_nat n) = Ok (- Z.of_nat n)%Z.
Proof.
  unfold parse_distance.
  assert (Hl : lacks "," ("behind " ++ Py.str_nat n) = true).
  { rewrite lacks_app, lacks_digits; reflexivity. }
  rewrite (split_on_whole _ _ Hl).
  assert (Hs : Py.split ("behind " ++ Py.str_nat n) = ["behind"; Py.str_nat n]).
  { apply (split_two (Py.str_nat n)
             (digits_no_space _ (str_nat_digits n)) (str_nat_nonempty n)
             "behind"); [reflexivity|discriminate]. }
  cbn [rbind Py.first]. rewrite Hs. simpl. now rewrite int_str_nat.
Qed.

(** The bracketed groups of a status header, and the distance parsed from
    the last of them. *)
Lemma header_distance pre a b :
  lacks "[" pre = true ->
  let toks := findall_bracketed None (pre ++ distance_suffix a b) in
  match a, b with
  | 0, 0 => toks = []
  | _, _ => Py.nonempty toks = true
            /\ rbind (Py.last toks) parse_distance = Ok (distance a b)
  end.
Proof.
  intros Hpre. cbv zeta. rewrite (findall_skip _ _ Hpre).
  assert (Hrun : forall w, lacks "]" w = true -> w <> "" ->
            findall_bracketed None (" [" ++ w ++ "]") = [w]).
  { intros w Hw Hne. simpl. rewrite (findall_run _ _ _ Hw). simpl.
    destruct w; [congruence|reflexivity]. }
  destruct a as [|a], b as [|b].
  - reflexivity.
  - replace (distance_suffix 0 (S b))
      with (" [" ++ ("behind " ++ Py.str_nat (S b)) ++ "]") by reflexivity.
    rewrite Hrun; [| rewrite lacks_app, lacks_digits; reflexivity | discriminate].
    split; [reflexivity|]. cbn [Py.last List.rev app rbind].
    apply parse_behind.
  - replace (distance_suffix (S a) 0)
      with (" [" ++ ("ahead " ++ Py.str_nat (S a)) ++ "]") by reflexivity.
    rewrite Hrun; [| rewrite lacks_app, lacks_digits; reflexivity | discriminate].
    split; [reflexivity|]. cbn [Py.last List.rev app rbind].
    rewrite <- (append_nil_r (Py.str_nat (S a))).
    apply parse_ahead. now left.
  - replace (distance_suffix (S a) (S b))
      with (" [" ++ ("ahead " ++ Py.str_nat (S a) ++ ", behind "
                     ++ Py.str_nat (S b)) ++ "]")
      by (unfold distance_suffix; simpl; now rewrite !append_assoc).
    rewrite Hrun.
    + split; [reflexivity|]. cbn [Py.last List.rev app rbind].
      apply parse_ahead. right.
      exists (" behind " ++ Py.str_nat (S b)). reflexivity.
    + rewrite !lacks_app, !lacks_digits; reflexivity.
    + discriminate.
Qed.


Lemma get_relative_to_remote_distance r u :
  r_upstream r = Tracking u ->
  lacks "[" (r_branch r) = true -> lacks "[" u = true ->
  get_relative_to_remote r
  = (Ok (distance (r_ahead r) (r_behind r)),
     logged ["status"; "--short"; "-b"] r).
Proof.
  intros Hu Hb Hlu. unfold get_relative_to_remote.
  unfold bind at 1. rewrite git_status_sb.
  unfold bind at 1. unfold lift. cbn [Py.first].
  assert (Hh : status_header r
               = ("## " ++ r_branch r ++ "..." ++ u)
                 ++ distance_suffix (r_ahead r) (r_behind r)).
  { unfold status_header. rewrite Hu. simpl. now rewrite !append_assoc. }
  rewrite Hh.
  assert (Hpre : lacks "[" ("## " ++ r_branch r ++ "..." ++ u) = true).
  { rewrite !lacks_app, Hb, Hlu. reflexivity. }
  pose proof (header_distance _ (r_ahead r) (r_behind r) Hpre) as Hd.
  cbv zeta in Hd.
  destruct (r_ahead r) as [|a], (r_behind r) as [|b].
  - rewrite Hd. reflexivity.
  - destruct Hd as [Hne Hp]. rewrite Hne, Hp. reflexivity.
  - destruct Hd as [Hne Hp]. rewrite Hne, Hp. reflexivity.
  - destruct Hd as [Hne Hp]. rewrite Hne, Hp. reflexivity.
Qed.

(** The tracking branch, when there is one. *)
Lemma get_tracking_branch_some r remote rbranch :
  r_upstream r = Tracking (remote ++ "/" ++ rbranch) ->
  lacks "/" remote = true ->
  get_tracking_branch r
  = (Ok [Some remote; Some rbranch], logged upstream_args r).
Proof.
  intros Hu Hl. unfold get_tracking_branch.
  unfold bind at 1. fold upstream_args. rewrite git_upstream, Hu.
  unfold bind at 1. unfold lift. cbn [Py.first].
  unfold ret.
  change (remote ++ "/" ++ rbranch) with (remote ++ String "/" rbranch).
  now rewrite (split_once_head _ _ _ Hl).
Qed.

(** The tracking branch, when git reports none. *)
Lemma get_tracking_branch_none r err :
  r_upstream r = NoUpstream err ->
  get_tracking_branch r
  = (if Py.contains "No upstream branch"
          (exn_str (command_failed upstream_args err))
     then Ok [None; None]
     else Raise (command_failed upstream_args err),
     logged upstream_args r).
Proof.
  intros Hu. unfold get_tracking_branch.
  unfold bind at 1. fold upstream_args. rewrite git_upstream, Hu.
  cbn [is_Exception command_failed].
  now destruct (Py.contains _ _).
Qed.

Lemma str_abs_ahead n : Py.str_Z (Z.abs (Z.of_nat (S n))) = Py.str_nat (S n).
Proof.
  rewrite Z.abs_eq by lia. unfold Py.str_Z.
  destruct (Z.of_nat (S n)) eqn:Hz; try lia; now rewrite <- Hz, Nat2Z.id.
Qed.

Lemma str_abs_behind n : Py.str_Z (Z.abs (- Z.of_nat (S n))) = Py.str_nat (S n).
Proof. rewrite Z.abs_opp. apply str_abs_ahead. Qed.



(** *** Tagging *)

(** [message or ''] *)
Definition message_text (message : option string) : string :=
  match message with
  | Some (String c r) => String c r
  | _ => ""
  end.

Definition tag_args (name : string) (message : option string) : list string :=
  ["tag"; "-a"; name; "-m"; message_text message].

Definition has_tag (name : string) (r : repo) : bool :=
  existsb (String.eqb name) (map fst (r_tags r)).

Lemma git_tag_create name message r :
  git (tag_args name message) r
  = if has_tag name r
    then (Raise (command_failed (tag_args name message)
                   ("fatal: tag '" ++ name ++ "' already exists")),
          logged (tag_args name message) r)
    else if negb (r_refname_ok r name)
    then (Raise (command_failed (tag_args name message)
                   ("fatal: '" ++ name ++ "' is not a valid tag name.")),
          logged (tag_args name message) r)
    else (Ok [],
          logged (tag_args name message)
            (set_tags (r_tags r ++ [(name, message_text message)])%list r)).
Proof.
  unfold git, tag_args, has_tag. simpl.
  destruct (existsb _ _); [reflexivity|].
  destruct (r_refname_ok r name); reflexivity.
Qed.

Lemma git_push_tag remote name r :
  git ["push"; remote; name] r
  = if r_online r
    then (Ok [], logged ["push"; remote; name]
                   (set_pushed (r_pushed r ++ [(remote, name)])%list r))
    else (Raise (command_failed ["push"; remote; name]
                   ("fatal: unable to access '" ++ remote ++ "'")),
          logged ["push"; remote; name] r).
Proof. unfold git. simpl. destruct (r_online r); reflexivity. Qed.

Lemma get_tracking_branch_tracking r u :
  r_upstream r = Tracking u ->
  get_tracking_branch r
  = (Ok (map Some (Py.split_once "/" u)), logged upstream_args r).
Proof.
  intros Hu. unfold get_tracking_branch.
  unfold bind at 1. fold upstream_args. rewrite git_upstream, Hu.
  reflexivity.
Qed.

(** The tags after a call of [create_release_tag], in all cases. *)
Lemma create_release_tag_tags name message r res r' :
  create_release_tag name message r = (res, r') ->
  r_tags r'
  = (if has_tag name r then r_tags r
     else if r_refname_ok r name
          then r_tags r ++ [(name, message_text message)]
          else r_tags r)%list
  /\ r_refname_ok r' = r_refname_ok r.
Proof.
  unfold create_release_tag.
  unfold bind at 1. rewrite git_tag_list. fold (has_tag name r).
  destruct (has_tag name r) eqn:Hhas; [intros [= <- <-]; now split|].
  unfold bind at 1. fold (message_text message).
  change (["tag"; "-a"; name] ++ ["-m"; message_text message])%list
    with (tag_args name message).
  rewrite git_tag_create.
  change (has_tag name (logged ["tag"] r)) with (has_tag name r).
  cbn [logged set_cmds r_tags r_refname_ok].
  rewrite Hhas.
  destruct (r_refname_ok r name) eqn:Hok; cbn [negb];
    [|intros [= <- <-]; now split].
  unfold bind at 1.
  destruct (r_upstream r) as [u|err] eqn:Hu.
  - rewrite (get_tracking_branch_tracking _ u) by exact Hu.
    unfold bind at 1. unfold lift.
    destruct (Py.split_once "/" u) as [|a [|b [|c l]]]; cbn [map Py.unpack2];
      try (intros [= <- <-]; now split).
    unfold bind at 1. unfold lift. cbn [join_uri].
    unfold bind at 1. rewrite git_push_tag.
    cbn [logged set_cmds set_tags r_online].
    destruct (r_online r); intros [= <- <-]; now split.
  - rewrite (get_tracking_branch_none _ err) by exact Hu.
    destruct (Py.contains _ _); intros [= <- <-]; now split.
Qed.

(** *** What a call of [create_release_tag] pushes *)

(** The pushes after a call of [create_release_tag], in all cases. *)
Lemma create_release_tag_pushed name message r res r' :
  create_release_tag name message r = (res, r') ->
  r_pushed r'
  = (if has_tag name r then r_pushed r
     else if r_refname_ok r name
          then match r_upstream r with
               | Tracking u =>
                   match Py.split_once "/" u with
                   | [remote; _] =>
                       if r_online r then r_pushed r ++ [(remote, name)]
                       else r_pushed r
                   | _ => r_pushed r
                   end
               | NoUpstream _ => r_pushed r
               end
          else r_pushed r)%list.
Proof.
  unfold create_release_tag.
  unfold bind at 1. rewrite git_tag_list. fold (has_tag name r).
  destruct (has_tag name r) eqn:Hhas; [now intros [= <- <-]|].
  unfold bind at 1. fold (message_text message).
  change (["tag"; "-a"; name] ++ ["-m"; message_text message])%list
    with (tag_args name message).
  rewrite git_tag_create.
  change (has_tag name (logged ["tag"] r)) with (has_tag name r).
  cbn [logged set_cmds r_tags r_refname_ok].
  rewrite Hhas.
  destruct (r_refname_ok r name) eqn:Hok; cbn [negb];
    [|now intros [= <- <-]].
  unfold bind at 1.
  destruct (r_upstream r) as [u|err] eqn:Hu.
  - rewrite (get_tracking_branch_tracking _ u) by exact Hu.
    unfold bind at 1. unfold lift.
    destruct (Py.split_once "/" u) as [|a [|b [|c l]]]; cbn [map Py.unpack2];
      try (now intros [= <- <-]).
    unfold bind at 1. unfold lift. cbn [join_uri].
    unfold bind at 1. rewrite git_push_tag.
    cbn [logged set_cmds set_tags r_online r_pushed].
    destruct (r_online r); now intros [= <- <-].
  - rewrite (get_tracking_branch_none _ err) by exact Hu.
    destruct (Py.contains _ _); now intros [= <- <-].
Qed.



(** *** The local checks of [validate_repostate] *)

Definition bare_args : list string := ["rev-parse"; "--is-bare-repository"].
Definition ls_files_args : list string :=
  ["ls-files"; "--other"; "--exclude-standard"].
Definition porcelain_args : list string := ["status"; "--porcelain"].
Definition head_args : list string := ["rev-parse"; "--abbrev-ref"; "HEAD"].

Lemma git_plain_status r :
  git ["status"] r = (Ok (r_status r), logged ["status"] r).
Proof. reflexivity. Qed.

(** The run of [validate_repostate] up to the check of the upstream
    branch, on a clean working copy. *)
Lemma validate_repostate_clean r tb r1 :
  get_tracking_branch (logged bare_args r) = (Ok tb, r1) ->
  r_untracked r1 = [] -> r_changes r1 = [] ->
  forall remote remote_branch, Py.unpack2 tb = Ok (remote, remote_branch) ->
  validate_repostate cfg re_search r
  = (if is_none remote && negb (allow_no_upstream cfg)
     then raise (ReleaseVCSError
                   ("Release cancelled: there is no upstream branch (git cannot see "
                    ++ "a remote repo - you should probably FIX THIS FIRST!). To allow "
                    ++ "the release, set the config entry "
                    ++ "'plugins.release_vcs.git.allow_no_upstream' to true."))
     else
       ((if Py.nonempty (releasable_branches cfg)
         then
           current_branch_name <- get_local_branch ;;
           if negb (any_search re_search (releasable_branches cfg)
                      current_branch_name)
           then raise (ReleaseVCSError
                         ("Could not release: current branch is "
                          ++ current_branch_name ++ ", must match one of: "
                          ++ Py.join ", " (releasable_branches cfg)))
           else ret tt
         else ret tt) ;;;
        match remote with
        | Some (String c0 r0) =>
            git ["remote"; "update"; String c0 r0] ;;;
            n <- get_relative_to_remote ;;
            if negb (n =? 0)%Z
            then
              let s := if (0 <? n)%Z then "ahead of" else "behind" in
              remote_uri <- lift (join_uri remote remote_branch) ;;
              raise (ReleaseVCSError
                       ("Could not release: " ++ Py.str_Z (Z.abs n)
                        ++ " commits " ++ s ++ " " ++ remote_uri ++ "."))
            else ret tt
        | _ => ret tt
        end))%py
      (logged porcelain_args (logged ls_files_args r1)).
Proof.
  intros Htb Hun Hch remote remote_branch Hp.
  unfold validate_repostate.
  unfold bind at 1. rewrite git_bare. unfold list_eq_str.
  fold bare_args. unfold bind at 1. rewrite Htb.
  unfold bind at 1. unfold lift. rewrite Hp.
  unfold bind at 1. rewrite git_ls_files. rewrite Hun. cbn [Py.nonempty].
  unfold bind at 1. rewrite git_porcelain.
  cbn [logged set_cmds r_changes]. rewrite Hch. cbn [Py.nonempty].
  reflexivity.
Qed.






(** *** The log between a revision and HEAD *)

Lemma eqb_length a b : String.eqb a b = true -> String.length a = String.length b.
Proof. intros H. apply String.eqb_eq in H. now subst. Qed.

Lemma length_append a b :
  String.length (a ++ b) = String.length a + String.length b.
Proof. induction a as [|x a IH]; simpl; [reflexivity|now rewrite IH]. Qed.

(** A name followed by a suffix, without the suffix. *)
Lemma strip_suffix_app suf c : strip_suffix suf (c ++ suf) = Some c.
Proof.
  induction c as [|x c IH].
  - simpl. destruct suf; simpl; now rewrite ?Ascii.eqb_refl, ?String.eqb_refl.
  - change (String x c ++ suf)%string with (String x (c ++ suf)).
    cbn [strip_suffix].
    destruct (String.eqb (String x (c ++ suf)) suf) eqn:Heq.
    + apply eqb_length in Heq. simpl in Heq. rewrite length_append in Heq. lia.
    + now rewrite IH.
Qed.

Definition range_args (c : string) : list string := ["log"; c ++ "..HEAD"].

Definition hashes_args (c : string) : list string :=
  ["log"; "-n"; "100"; c ++ ".."; "--no-merges"; "--reverse"; "--pretty=%H";
   "."].

Definition details_args (h : string) : list string :=
  ["log"; h; "--name-only"; "--no-merges"; "-1";
   "--pretty=" ++ commit_details_format cfg].

(** The commits whose hashes [get_commit_details] asks for. *)
Definition selected (cs : list commit) : list commit :=
  List.rev (firstn 100 (filter (fun c => not_merge c && c_touches c) cs)).

Lemma git_log_range c cs r :
  r_range r c = Some cs ->
  git (range_args c) r
  = (Ok (concat (map c_log cs)), logged (range_args c) r).
Proof.
  intros Hr. unfold git, range_args.
  cbn [git_exec String.eqb Ascii.eqb Bool.eqb git_log].
  rewrite strip_suffix_app. cbn [option_map]. rewrite Hr. reflexivity.
Qed.

Lemma git_log_all r :
  git ["log"] r = (Ok (concat (map c_log (r_history r))), logged ["log"] r).
Proof. reflexivity. Qed.

Lemma git_log_hashes c cs r :
  r_range r c = Some cs ->
  git (hashes_args c) r
  = (Ok (map c_hash (selected cs)), logged (hashes_args c) r).
Proof.
  intros Hr. unfold git, hashes_args.
  cbn [git_exec String.eqb Ascii.eqb Bool.eqb git_log args_eqb andb].
  rewrite strip_suffix_app. cbn [option_map]. rewrite Hr. reflexivity.
Qed.

Lemma find_commit_unique x cs :
  In x cs -> NoDup (map c_hash cs) ->
  exists rest, find_commit (c_hash x) cs = x :: rest.
Proof.
  induction cs as [|y cs IH]; intros Hin Hnd; [destruct Hin|].
  simpl in Hnd. inversion Hnd as [|? ? Hnot Hnd']; subst.
  cbn [find_commit].
  destruct Hin as [-> | Hin].
  - rewrite String.eqb_refl. eauto.
  - destruct (String.eqb (c_hash y) (c_hash x)) eqn:Heq.
    + apply String.eqb_eq in Heq. exfalso. apply Hnot. rewrite Heq.
      now apply in_map.
    + now apply IH.
Qed.

Lemma git_log_details x r :
  In x (r_history r) -> NoDup (map c_hash (r_history r)) ->
  c_merge x = false ->
  git (details_args (c_hash x)) r
  = (Ok (c_details x (commit_details_format cfg)),
     logged (details_args (c_hash x)) r).
Proof.
  intros Hin Hnd Hm. unfold git, details_args.
  cbn [git_exec String.eqb Ascii.eqb Bool.eqb git_log args_eqb andb
       strip_prefix append].
  destruct (find_commit_unique x _ Hin Hnd) as (rest & ->).
  cbn [filter]. unfold not_merge at 1. rewrite Hm. reflexivity.
Qed.

(** The state once the details of the commits [xs] were asked for. *)
Fixpoint asked_details (xs : list commit) (r : repo) : repo :=
  match xs with
  | [] => r
  | x :: rest => asked_details rest (logged (details_args (c_hash x)) r)
  end.

Lemma asked_details_history xs : forall r,
  r_history (asked_details xs r) = r_history r.
Proof. induction xs as [|x xs IH]; intros r; simpl; [reflexivity|now rewrite IH]. Qed.

Lemma asked_details_cmds xs : forall r,
  r_cmds (asked_details xs r)
  = (r_cmds r ++ map (fun x => details_args (c_hash x)) xs)%list.
Proof.
  induction xs as [|x xs IH]; intros r; simpl.
  - now rewrite app_nil_r.
  - rewrite IH. simpl. now rewrite <- app_assoc.
Qed.

Lemma details_loop_run xs : forall acc r,
  (forall x, In x xs -> In x (r_history r) /\ c_merge x = false) ->
  NoDup (map c_hash (r_history r)) ->
  details_loop cfg (map c_hash xs) acc r
  = (Ok (acc ++ map (fun x => Py.join Py.nl
                                (c_details x (commit_details_format cfg))) xs)%list,
     asked_details xs r).
Proof.
  induction xs as [|x xs IH]; intros acc r Hall Hnd.
  - simpl. now rewrite app_nil_r.
  - cbn [map details_loop]. unfold bind at 1.
    fold (details_args (c_hash x)).
    destruct (Hall x (or_introl eq_refl)) as [Hin Hm].
    rewrite (git_log_details x r Hin Hnd Hm).
    rewrite IH.
    + cbn [asked_details]. now rewrite <- app_assoc.
    + intros y Hy. apply Hall. now right.
    + exact Hnd.
Qed.

Lemma selected_spec cs x :
  In x (selected cs) -> In x cs /\ c_merge x = false /\ c_touches x = true.
Proof.
  unfold selected. intros H. apply in_rev in H.
  assert (Hf : In x (filter (fun c => not_merge c && c_touches c) cs)).
  { revert H. generalize (filter (fun c => not_merge c && c_touches c) cs).
    intros l. revert l. generalize 100.
    induction n as [|n IH]; intros [|y l]; simpl; try tauto.
    intros [->|H]; [now left|right; now apply IH]. }
  apply filter_In in Hf as [Hin Hb]. apply andb_prop in Hb as [Hm Ht].
  unfold not_merge in Hm. apply negb_true_iff in Hm. auto.
Qed.

Lemma selected_length cs : length (selected cs) <= 100.
Proof. unfold selected. rewrite length_rev. apply firstn_le_length. Qed.



End Plugin.

End GitProps.

(* ------------------------------------------------------------------ *)
(** *** Runs of the git plugin *)

Module GitRuns.

Import Git GitProps.

Definition plugin_settings : settings :=
  {| allow_no_upstream := false;
     commit_details_format := "%h %s";
     releasable_branches := ["master"] |}.

(** A pattern without special characters, searched in a name. *)
Definition search_plain (pattern name : string) : bool :=
  Py.contains pattern name.

Definition plain_commit (h subject : string) (touches : bool) : commit :=
  {| c_hash := h; c_merge := false; c_touches := touches;
     c_log := ["commit " ++ h; "    " ++ subject];
     c_details := fun fmt => [h ++ " " ++ subject; "src/" ++ h ++ ".py"] |}.

Definition merge_commit (h subject : string) : commit :=
  {| c_hash := h; c_merge := true; c_touches := true;
     c_log := ["commit " ++ h; "Merge: 3e1 9ab"; "    " ++ subject];
     c_details := fun fmt => [h ++ " " ++ subject] |}.

Definition c0 : commit := plain_commit "0a1" "first release" true.
Definition c1 : commit := plain_commit "3e1" "fix the parser" true.
Definition c2 : commit := plain_commit "9ab" "update the docs" false.
Definition m3 : commit := merge_commit "c4d" "Merge branch 'topic'".
Definition c4 : commit := plain_commit "f72" "bump the version" true.

(** A working copy tagged [1.0.0] at its first commit, whose upstream is
    [behind] commits further once the remote is updated. *)
Definition working_tree (untracked changes : list string) (branch : string)
  (up : upstream) (behind : nat) : repo :=
  {| r_bare := false; r_untracked := untracked; r_changes := changes;
     r_status := ["On branch " ++ branch];
     r_branch := branch;
     r_upstream := up;
     r_ahead := 0; r_behind := 0; r_fetch := (0, behind);
     r_online := true;
     r_refname_ok := fun name => negb (Py.contains " " name);
     r_tags := [("1.0.0", "first release")];
     r_pushed := [];
     r_history := [c4; m3; c2; c1; c0];
     r_range := fun rev => if String.eqb rev "0a1" then Some [c4; m3; c2; c1]
                           else None;
     r_cmds := [] |}.

(** A clean working copy of [master] that tracks [origin/master]. *)
Definition working_copy (behind : nat) : repo :=
  working_tree [] [] "master" (Tracking "origin/master") behind.


(** The same working copy in step with its remote passes. *)
Example validate_repostate_in_step :
  fst (validate_repostate plugin_settings search_plain (working_copy 0)) = Ok tt.
Proof. reflexivity. Qed.








End GitRuns.

(* ------------------------------------------------------------------ *)
(** ** Further properties of the release modes *)

Module HookProps.

Import Release.

Section WithVersions.

Context {VA : VersionAPI}.
Variable E : environ.

Lemma truthy_nonempty s : Py.truthy s = true -> s <> "".
Proof. destruct s; [discriminate|discriminate]. Qed.

Lemma base_get_metadata_complete s md s1 :
  base_get_metadata E s = (Ok md, s1) ->
  md_version md <> "" /\ md_name md <> "" /\ md_uuid md <> ""
  /\ md_description md <> "" /\ md_authors md <> []
  /\ ConfigMetadata E (Py.path_join (path (self s)) "package.yaml") = Ok md
  /\ exists v, Version_new (md_version md) = Ok v
               /\ s1 = with_self (set_this_version (Some v)) s.
Proof.
  unfold base_get_metadata.
  unfold bind at 1. unfold attr at 1. cbv zeta.
  destruct (access E _); cbn [negb]; [|discriminate].
  unfold bind at 1. unfold lift at 1.
  destruct (ConfigMetadata E _) as [md'|e] eqn:Hcfg; [|discriminate].
  destruct (Py.truthy (md_version md')) eqn:Hv; cbn [negb]; [|discriminate].
  unfold bind at 1. unfold lift at 1.
  destruct (Version_new (md_version md')) as [v|e] eqn:Hp;
    [|destruct e; discriminate].
  unfold bind at 1. unfold assign, modify.
  destruct (Py.truthy (md_name md')) eqn:Hn; cbn [negb]; [|discriminate].
  destruct (Py.truthy (md_uuid md')) eqn:Hu; cbn [negb]; [|discriminate].
  destruct (Py.truthy (md_description md')) eqn:Hd; cbn [negb]; [|discriminate].
  destruct (Py.nonempty (md_authors md')) eqn:Ha; cbn [negb]; [|discriminate].
  intros [= <- <-].
  repeat (split; [now apply truthy_nonempty|]).
  split; [destruct (md_authors md'); [discriminate Ha|discriminate]|].
  split; [reflexivity|]. exists v. now split.
Qed.




End WithVersions.

End HookProps.

(* ------------------------------------------------------------------ *)
(** ** The registry stays free of duplicates *)

Module RegistryInvariants.

Import Registry.

Section Classes.

Variable cls_t : Type.

Lemma existsb_eqb_in name (l : list string) :
  existsb (String.eqb name) l = true <-> In name l.
Proof.
  rewrite existsb_exists. split.
  - intros (x & Hin & Heq). apply String.eqb_eq in Heq. now subst.
  - intros Hin. exists name. split; [exact Hin|apply String.eqb_refl].
Qed.


End Classes.


End RegistryInvariants.

(* ------------------------------------------------------------------ *)
(** *** Runs on a mercurial working copy *)

Module HookRuns.

Import Release HookProps.

Definition hg_fresh (tag version : string) : st (VA := DottedVersion.api) :=
  start (base_init (VersionRuns.hg_env tag version) "/work/proj") NoDir
    (fun _ => false).




End HookRuns.

(* ------------------------------------------------------------------ *)
(** ** Further properties of the git plugin *)

Module GitQueries.

Import Git GitProps.

Section Plugin.

Variable cfg : settings.



End Plugin.


(** X13 on a branch three commits ahead of its upstream and one behind. *)
Definition diverged : repo :=
  set_distance 3 1 (GitRuns.working_copy 0).


End GitQueries.
